(** * MuMuAINovel: the formulaic-writing detector, [app/services/pattern_analyzer.py]

    A shallow embedding of the analysis engine (segmenter, template
    abstractor, clusterer, n-gram miner, emotion vocabulary analyzer and
    incremental cache manager) together with the properties its design
    document states about it.

    Conventions of the embedding:
    - a Python [str] is the list of its code points ([pystr]); literals are
      written as UTF-8 text and decoded by [py];
    - a Python [int] is a [Z] (or a [nat] where it is a length or an index);
    - a Python [float] is a binary64 primitive float, so that [a / b] and
      [int(x)] behave bit for bit as in CPython;
    - a [dict] used as a record is a [Record]; a [dict], [Counter] or
      [defaultdict] that is iterated is an association list in insertion
      order; the cache table, which is only looked up by key, is a [gmap]. *)

From Stdlib Require Import ZArith NArith PrimFloat FloatOps SpecFloat Uint63.
From Stdlib Require Import String Ascii DecimalString List Sorted Lia.
From stdpp Require Import gmap list.
Import ListNotations.

Local Open Scope string_scope.
Local Open Scope list_scope.
Local Open Scope Z_scope.
Set Warnings "-inexact-float".

(* ================================================================== *)
(** ** Python strings *)
(* ================================================================== *)

Module PyStr.

Definition pystr := list N.

(** UTF-8 decoding of a literal: [need] continuation bytes are still to be
    read into [acc]. *)
Fixpoint utf8_go (bs : list N) (need : nat) (acc : N) : pystr :=
  match bs with
  | [] => []
  | b :: bs' =>
      match need with
      | O =>
          if (b <? 128)%N then b :: utf8_go bs' 0 0%N
          else if (b <? 224)%N then utf8_go bs' 1 (b mod 32)%N
          else if (b <? 240)%N then utf8_go bs' 2 (b mod 16)%N
          else utf8_go bs' 3 (b mod 8)%N
      | S k =>
          let acc' := (acc * 64 + b mod 64)%N in
          match k with
          | O => acc' :: utf8_go bs' 0 0%N
          | S _ => utf8_go bs' k acc'
          end
      end
  end.

Definition py (s : string) : pystr :=
  utf8_go (map N_of_ascii (list_ascii_of_string s)) 0 0%N.

Fixpoint eqb (a b : pystr) : bool :=
  match a, b with
  | [], [] => true
  | x :: a', y :: b' => N.eqb x y && eqb a' b'
  | _, _ => false
  end.

(** [x in xs] for a list or set of strings. *)
Definition mem (x : pystr) (xs : list pystr) : bool := existsb (eqb x) xs.

(** [c in "..."] for a character and a string. *)
Definition char_in (c : N) (s : pystr) : bool := existsb (N.eqb c) s.

(** [s.startswith(p)] *)
Fixpoint startswith (s p : pystr) {struct p} : bool :=
  match p, s with
  | [], _ => true
  | _ :: _, [] => false
  | x :: p', y :: s' => N.eqb x y && startswith s' p'
  end.

(** [sub in s] *)
Fixpoint contains (s sub : pystr) : bool :=
  startswith s sub ||
  match s with
  | [] => false
  | _ :: s' => contains s' sub
  end.

(** [s.count(sub)]: occurrences found left to right, the scan resuming
    after the end of each one ([skip] characters of the last occurrence are
    still to be passed). *)
Fixpoint count_from (sub : pystr) (skip : nat) (s : pystr) : nat :=
  match s with
  | [] => O
  | _ :: s' =>
      match skip with
      | S k => count_from sub k s'
      | O =>
          if startswith s sub
          then S (count_from sub (Nat.pred (length sub)) s')
          else count_from sub O s'
      end
  end.

Definition count (s sub : pystr) : nat :=
  match sub with
  | [] => S (length s)
  | _ :: _ => count_from sub O s
  end.

(** [sep.join(parts)] *)
Fixpoint join (sep : pystr) (parts : list pystr) : pystr :=
  match parts with
  | [] => []
  | [p] => p
  | p :: ps => p ++ sep ++ join sep ps
  end.

(** [str.isspace] on one character. *)
Definition isspace (c : N) : bool :=
  ((9 <=? c) && (c <=? 13) || (28 <=? c) && (c <=? 32) || (c =? 133) || (c =? 160)
   || (c =? 5760) || (8192 <=? c) && (c <=? 8202) || (c =? 8232) || (c =? 8233)
   || (c =? 8239) || (c =? 8287) || (c =? 12288))%N.

Fixpoint lstrip (s : pystr) : pystr :=
  match s with
  | c :: s' => if isspace c then lstrip s' else s
  | [] => []
  end.

(** [s.strip()] *)
Definition strip (s : pystr) : pystr := rev (lstrip (rev (lstrip s))).

Lemma eqb_eq a b : eqb a b = true <-> a = b.
Proof.
  revert b; induction a as [|x a IH]; intros [|y b]; simpl; split; try congruence.
  - intros H. apply andb_true_iff in H as [Hx Hab].
    apply N.eqb_eq in Hx. apply IH in Hab. congruence.
  - intros [= -> ->]. rewrite N.eqb_refl. simpl. now apply IH.
Qed.

Lemma eqb_refl a : eqb a a = true.
Proof. now apply eqb_eq. Qed.

Lemma eqb_neq a b : eqb a b = false <-> a <> b.
Proof.
  split.
  - intros H E. apply eqb_eq in E. congruence.
  - intros H. destruct (eqb a b) eqn:E; [|reflexivity].
    apply eqb_eq in E. contradiction.
Qed.

Lemma startswith_app s p : startswith s p = true <-> exists t, s = p ++ t.
Proof.
  revert s; induction p as [|x p IH]; intros s; simpl.
  - split; [intros _; now exists s | reflexivity].
  - destruct s as [|y s]; simpl.
    + split; [discriminate | intros [t Ht]; discriminate].
    + rewrite andb_true_iff, N.eqb_eq, IH. split.
      * intros [-> [t ->]]. now exists t.
      * intros [t [= -> ->]]. split; [reflexivity | now exists t].
Qed.

End PyStr.

Export PyStr (pystr, py).
Arguments py : simpl never.

(* ================================================================== *)
(** ** Python numbers *)
(* ================================================================== *)

Module PyNum.

(** [float(z)], exact for the integers of magnitude up to 2^53; the
    engine converts lengths and occurrence counts only. Beyond 2^63 the
    conversion through a 63-bit integer wraps, where Python rounds and,
    past the largest float, raises [OverflowError]: what is proved of an
    [int] that no run bounds is stated for that magnitude. *)
Definition float_of_Z (z : Z) : float :=
  if z <? 0 then PrimFloat.opp (PrimFloat.of_uint63 (Uint63.of_Z (- z)))
  else PrimFloat.of_uint63 (Uint63.of_Z z).

(** [a / b] on two ints (true division): Python rounds the exact
    quotient once, which is the division of the two floats when both ints
    are converted exactly. *)
Definition truediv (a b : Z) : float :=
  PrimFloat.div (float_of_Z a) (float_of_Z b).

(** [int(x)]: truncation toward zero. *)
Definition int (x : float) : Z :=
  match Prim2SF x with
  | S754_finite s m e =>
      let v := if 0 <=? e then Z.shiftl (Z.pos m) e else Z.shiftr (Z.pos m) (- e) in
      if s then - v else v
  | _ => 0
  end.

(** The nearest integer to [a / b] for [0 < b], ties to the even one: the
    rounding the design document's formulas call [round]. *)
Definition round_div (a b : Z) : Z :=
  let q := a / b in
  let r := a mod b in
  if 2 * r <? b then q
  else if b <? 2 * r then q + 1
  else if Z.even q then q else q + 1.

End PyNum.

(* ================================================================== *)
(** ** Counters and stable sorting *)
(* ================================================================== *)

Section Containers.
Context {K : Type} `{EqDecision K}.

(** A [Counter] (or a [dict] with integer values), keys in insertion order. *)
Definition Counter := list (K * Z).

(** [c[k] = v] *)
Fixpoint counter_set (c : Counter) (k : K) (v : Z) : Counter :=
  match c with
  | [] => [(k, v)]
  | (k', v') :: c' =>
      if decide (k = k') then (k', v) :: c' else (k', v') :: counter_set c' k v
  end.

(** [c[k] += v]; a missing key counts as 0. *)
Fixpoint counter_add (c : Counter) (k : K) (v : Z) : Counter :=
  match c with
  | [] => [(k, 0 + v)]
  | (k', v') :: c' =>
      if decide (k = k') then (k', v' + v) :: c' else (k', v') :: counter_add c' k v
  end.

(** [Counter(keys)] *)
Definition counter_of (keys : list K) : Counter :=
  fold_left (fun c k => counter_add c k 1) keys [].

(** [sum(c.values())] *)
Definition counter_total (c : Counter) : Z :=
  fold_right Z.add 0 (map snd c).

End Containers.

Arguments Counter K : clear implicits.

Section Sorting.
Context {A : Type}.

(** Insertion of [x] behind every element that must precede it. *)
Fixpoint insert_sorted (before : A -> A -> bool) (x : A) (l : list A) : list A :=
  match l with
  | [] => [x]
  | y :: l' => if before y x then y :: insert_sorted before x l' else x :: l
  end.

(** A stable sort: [before y x] says that [y] must come strictly before
    [x]; elements that are not ordered by it keep their input order. *)
Definition stable_sort (before : A -> A -> bool) (l : list A) : list A :=
  fold_right (insert_sorted before) [] l.

(** [l.sort(key=key)] and [sorted(l, key=key)] *)
Definition sort_by_key (key : A -> Z) : list A -> list A :=
  stable_sort (fun y x => key y <? key x).

(** [l.sort(key=key, reverse=True)] *)
Definition sort_by_key_reverse (key : A -> Z) : list A -> list A :=
  stable_sort (fun y x => key x <? key y).

End Sorting.

(** [c.most_common(n)] *)
Definition most_common {K : Type} (n : nat) (c : Counter K) : list (K * Z) :=
  firstn n (sort_by_key_reverse snd c).

(** [c.most_common()] *)
Definition most_common_all {K : Type} (c : Counter K) : list (K * Z) :=
  sort_by_key_reverse snd c.

(** [str(z)] for an int. *)
Definition str_of_Z (z : Z) : pystr :=
  py (DecimalString.NilZero.string_of_int (Z.to_int z)).

(** [round(x, 2)]: the double nearest to the decimal with two fractional
    digits nearest to the exact value of [x]. *)
Definition round2 (x : float) : float :=
  match Prim2SF x with
  | S754_finite s m e =>
      let q := if 0 <=? e then Z.pos m * 100 * 2 ^ e
               else PyNum.round_div (Z.pos m * 100) (2 ^ (- e)) in
      PyNum.truediv (if s then - q else q) 100
  | _ => x
  end.

(* ================================================================== *)
(** ** Emotion vocabulary analyzer *)
(* ================================================================== *)

Inductive emotion := happy | sad | angry | fear | surprise.

#[global] Instance emotion_eq_dec : EqDecision emotion.
Proof. solve_decision. Defined.

Record EmotionConfig := {
  keywords : list pystr;
  expressions : list pystr
}.

Definition EMOTION_VOCABULARY : list (emotion * EmotionConfig) := [
  (happy, {|
     keywords := map py ["笑"; "开心"; "高兴"; "欢喜"; "愉快"; "欣喜"; "快乐"; "乐"];
     expressions := map py [
       "笑了笑"; "笑了起来"; "嘴角上扬"; "嘴角微扬"; "露出笑容";
       "开心地"; "高兴地"; "欣喜"; "喜悦"; "乐呵呵"] |});
  (sad, {|
     keywords := map py ["哭"; "泪"; "悲"; "伤心"; "难过"; "痛苦"; "忧伤"];
     expressions := map py [
       "叹了口气"; "叹气"; "眼眶泛红"; "眼眶湿润"; "流下眼泪";
       "泪流满面"; "悲伤地"; "伤心地"; "难过地"; "黯然"] |});
  (angry, {|
     keywords := map py ["怒"; "气"; "愤"; "恼"; "火"];
     expressions := map py [
       "怒道"; "怒吼"; "冷哼"; "大怒"; "勃然大怒";
       "气愤地"; "愤怒地"; "怒气冲冲"; "火冒三丈"] |});
  (fear, {|
     keywords := map py ["怕"; "惧"; "恐"; "惊"; "慌"];
     expressions := map py [
       "害怕"; "恐惧"; "惊恐"; "惊慌"; "慌张";
       "心惊胆战"; "胆战心惊"; "瑟瑟发抖"] |});
  (surprise, {|
     keywords := map py ["惊"; "讶"; "愕"];
     expressions := map py [
       "惊讶"; "吃惊"; "震惊"; "愕然"; "目瞪口呆";
       "大吃一惊"; "惊呆了"; "不敢相信"] |})
].

(** One category of the report of [analyze_emotion_diversity]. *)
Record EmotionData := {
  ed_expressions : list (pystr * Z);
  total_count : Z;
  unique_count : Z;
  concentration : float;
  top_expression : option pystr;
  top_count : Z
}.

Record EmotionDiversity := {
  emotions : list (emotion * EmotionData);
  diversity_score : Z;
  total_expressions : Z;
  total_unique : Z;
  most_concentrated_emotion : option emotion;
  ed_suggestion : pystr
}.

(** The occurrences of an expression in a text, as an int. *)
Definition occurrences (full_text expr : pystr) : Z :=
  Z.of_nat (PyStr.count full_text expr).

(** The inner loop of [count_emotion_expressions]: the counter of one
    category. *)
Definition found_counter (full_text : pystr) (exprs : list pystr) : Counter pystr :=
  fold_left
    (fun counter expr =>
       let count := occurrences full_text expr in
       if 0 <? count then counter_set counter expr count else counter)
    exprs [].

(** [count_emotion_expressions]: per category, the occurrences of each
    catalog expression in the chapters joined by newlines. *)
Definition count_emotion_expressions (chapters_content : list pystr)
  : list (emotion * Counter pystr) :=
  let full_text := PyStr.join [10%N] chapters_content in
  map (fun '(emo, config) => (emo, found_counter full_text (expressions config)))
    EMOTION_VOCABULARY.

(** The loop over [emotion_counts.items()] shared, as text, by
    [analyze_emotion_diversity] and [aggregate_emotion_stats]: the
    per-category report and the two running totals. *)
Definition emotion_category_data (counter : Counter pystr) : EmotionData :=
  let exprs := most_common 10 counter in
  let total := counter_total counter in
  let unique := Z.of_nat (length counter) in
  let top_expr :=
    match exprs with
    | (e, c) :: _ => (Some e, c)
    | [] => (None, 0)
    end in
  let conc :=
    if 0 <? total then PyNum.truediv (snd top_expr) total else 0%float in
  {| ed_expressions := exprs;
     total_count := total;
     unique_count := unique;
     concentration := round2 conc;
     top_expression := fst top_expr;
     top_count := snd top_expr |}.

Definition emotion_totals (emotion_counts : list (emotion * Counter pystr))
  : list (emotion * EmotionData) * Z * Z :=
  fold_left
    (fun '(result, total_expressions, total_unique) '(emo, counter) =>
       match counter with
       | [] => (result, total_expressions, total_unique)
       | _ :: _ =>
           let data := emotion_category_data counter in
           (result ++ [(emo, data)],
            total_expressions + total_count data,
            total_unique + unique_count data)
       end)
    emotion_counts ([], 0, 0).

(** The category relied on most: the scan for the largest concentration
    among the categories with at least 5 occurrences. *)
Definition most_concentrated (result : list (emotion * EmotionData))
  : option emotion * float :=
  fold_left
    (fun '(mc, max_concentration) '(emo, data) =>
       if PrimFloat.ltb max_concentration (concentration data)
          && (5 <=? total_count data)
       then (Some emo, concentration data)
       else (mc, max_concentration))
    result (None, 0%float).

Definition emotion_names (e : emotion) : pystr :=
  match e with
  | happy => py "开心" | sad => py "悲伤" | angry => py "愤怒"
  | fear => py "恐惧" | surprise => py "惊讶"
  end.

Definition lookup_emotion {V : Type} (e : emotion) (l : list (emotion * V)) : option V :=
  snd <$> find (fun p => bool_decide (fst p = e)) l.

Definition emotion_suggestion (result : list (emotion * EmotionData))
  (mc : option emotion) (max_concentration : float) : pystr :=
  match mc with
  | Some e =>
      if PrimFloat.ltb 0.7%float max_concentration then
        let top_expr :=
          match lookup_emotion e result with
          | Some data => default [] (top_expression data)
          | None => []
          end in
        py "表达「" ++ emotion_names e ++ py "」时，"
        ++ str_of_Z (PyNum.int (PrimFloat.mul max_concentration 100))
        ++ py "%使用「" ++ top_expr ++ py "」，建议扩展情感表达词汇"
      else []
  | None => []
  end.

(** [analyze_emotion_diversity] *)
Definition analyze_emotion_diversity (chapters_content : list pystr) : EmotionDiversity :=
  let emotion_counts := count_emotion_expressions chapters_content in
  let '(result, total_expressions, total_unique) := emotion_totals emotion_counts in
  let diversity_score :=
    if total_expressions =? 0 then 50
    else if total_expressions <? 10 then 60
    else
      let diversity_ratio := PyNum.truediv total_unique total_expressions in
      let base_score := PyNum.int (PrimFloat.mul diversity_ratio 200) in
      let quantity_bonus := Z.min 30 (total_unique * 3) in
      Z.min 100 (base_score + quantity_bonus) in
  let '(mc, max_concentration) := most_concentrated result in
  {| emotions := result;
     diversity_score := diversity_score;
     total_expressions := total_expressions;
     total_unique := total_unique;
     most_concentrated_emotion := mc;
     ed_suggestion := emotion_suggestion result mc max_concentration |}.

(** The per-chapter statistics kept in the cache ([emotion_stats]). *)
Record ExprCount := { expr : pystr; count : Z }.

Record EmotionStat := {
  es_total : Z;
  es_expressions : list ExprCount
}.

Definition EmotionStats := list (emotion * EmotionStat).

(** The inner loop of the emotion scan of [analyze_single_chapter]: the
    total and the expressions found of one category. *)
Definition found_in_chapter (content : pystr) (exprs : list pystr) : Z * list ExprCount :=
  fold_left
    (fun '(count, found_expressions) expr =>
       let expr_count := occurrences content expr in
       if 0 <? expr_count
       then (count + expr_count,
             found_expressions ++ [{| expr := expr; count := expr_count |}])
       else (count, found_expressions))
    exprs (0, []).

(** The statistics of one category, when it occurs at all. *)
Definition category_stat (content : pystr) (config : EmotionConfig) : option EmotionStat :=
  let '(count, found_expressions) := found_in_chapter content (expressions config) in
  if 0 <? count
  then Some {| es_total := count; es_expressions := found_expressions |}
  else None.

(** The emotion scan of [analyze_single_chapter]. *)
Definition chapter_emotion_stats (content : pystr) : EmotionStats :=
  fold_left
    (fun emotion_stats '(emo, config) =>
       match category_stat content config with
       | Some stat => emotion_stats ++ [(emo, stat)]
       | None => emotion_stats
       end)
    EMOTION_VOCABULARY [].

(* ================================================================== *)
(** ** Verb groups and opening keywords *)
(* ================================================================== *)

Definition VERB_SEMANTIC_GROUPS : list (pystr * list pystr) := [
  (py "[视觉]", map py ["看"; "望"; "盯"; "瞧"; "瞅"; "观察"; "注视"; "凝视"; "打量"; "审视"; "眺望"; "俯视"; "仰望"; "环顾"; "扫视"]);
  (py "[言语]", map py ["说"; "道"; "讲"; "问"; "答"; "回答"; "回应"; "喊"; "叫"; "吼"; "嚷"; "嘟囔"; "低语"; "呢喃"; "轻声"]);
  (py "[移动]", map py ["走"; "跑"; "冲"; "奔"; "飞"; "跳"; "爬"; "滚"; "溜"; "窜"; "闯"; "踱"; "漫步"; "疾步"; "快步"]);
  (py "[手动]", map py ["拿"; "抓"; "握"; "捏"; "拎"; "提"; "举"; "放"; "扔"; "丢"; "递"; "接"; "推"; "拉"; "拽"; "按"; "摸"; "碰"; "触"]);
  (py "[情感]", map py ["笑"; "哭"; "怒"; "惊"; "喜"; "悲"; "恨"; "爱"; "怕"; "慌"; "愁"; "叹"; "愣"; "呆"]);
  (py "[思维]", map py ["想"; "思"; "考虑"; "琢磨"; "思索"; "寻思"; "盘算"; "回忆"; "记得"; "忘记"; "明白"; "理解"; "懂"; "知道"]);
  (py "[姿态]", map py ["站"; "坐"; "躺"; "蹲"; "趴"; "倚"; "靠"; "卧"; "跪"; "立"]);
  (py "[头动]", map py ["点头"; "摇头"; "抬头"; "低头"; "转头"; "回头"; "侧头"; "仰头"; "埋头"]);
  (py "[表情]", map py ["皱眉"; "蹙眉"; "挑眉"; "扬眉"; "眯眼"; "瞪眼"; "闭眼"; "睁眼"; "咬唇"; "抿唇"; "撇嘴"; "嘟嘴"])
].

(** [VERB_TO_SEMANTIC.get(word)]: the reverse table is filled group after
    group, a later group overwriting an earlier one. *)
Definition VERB_TO_SEMANTIC (word : pystr) : option pystr :=
  fold_left
    (fun found '(semantic_tag, verbs) =>
       if PyStr.mem word verbs then Some semantic_tag else found)
    VERB_SEMANTIC_GROUPS None.

Inductive opening_type := op_time | op_weather | op_action | op_dialogue | op_other.

#[global] Instance opening_type_eq_dec : EqDecision opening_type.
Proof. solve_decision. Defined.

Definition quote_char : N := 34%N.
Definition apostrophe_char : N := 39%N.

Definition OPENING_KEYWORDS (k : opening_type) : list pystr :=
  match k with
  | op_time =>
      map py ["清晨"; "早上"; "上午"; "中午"; "下午"; "傍晚"; "黄昏"; "夜晚"; "深夜";
              "凌晨"; "天亮"; "天黑"; "日出"; "日落"; "午后"; "夜深"; "拂晓"; "黎明";
              "第二天"; "第三天"; "几天后"; "一周后"; "一个月后"; "次日"]
  | op_weather =>
      map py ["阳光"; "月光"; "星光"; "细雨"; "大雨"; "暴雨"; "风"; "雪"; "云"; "雾";
              "晴朗"; "阴沉"; "乌云"; "雷电"; "闪电"]
  | op_action =>
      map py ["走进"; "推开"; "打开"; "关上"; "站在"; "坐在"; "躺在"; "跑向"; "冲向"]
  | op_dialogue =>
      [py "「"; [quote_char]; [apostrophe_char]; [8220%N]; py "『"]
  | op_other => []
  end.

(* ================================================================== *)
(** ** Data model *)
(* ================================================================== *)

(** A row of the [chapters] table, as far as the engine reads it. The
    [content] column is nullable. *)
Record Chapter := {
  id : pystr;
  project_id : pystr;
  chapter_number_of : Z;
  title : pystr;
  content : option pystr
}.

(** A sentence with its source (the dicts of [all_sentences]). *)
Record Sentence := {
  s_text : pystr;
  s_chapter_id : pystr;
  s_chapter_number : Z;
  s_chapter_title : option pystr;
  s_position : nat;
  s_is_opening : bool;
  s_is_ending : bool
}.

(** A template as one chapter's analysis holds and caches it. *)
Record CachedTemplate := {
  ct_text : pystr;
  ct_template : pystr;
  ct_position : nat;
  ct_is_opening : bool;
  ct_is_ending : bool
}.

(** A template with its source: the items the clusterer and the n-gram
    miner work on. *)
Record Template := {
  text : pystr;
  template : pystr;
  chapter_id : pystr;
  chapter_number : Z;
  chapter_title : pystr;
  position : nat;
  is_opening : bool;
  is_ending : bool
}.

#[global] Instance Template_eq_dec : EqDecision Template.
Proof. solve_decision. Defined.

(* ================================================================== *)
(** ** Segmenter *)
(* ================================================================== *)

(** The character class of the pattern of [split_sentences]: the
    ideographic full stop, the fullwidth and the ASCII exclamation and
    question marks. *)
Definition is_terminator (c : N) : bool :=
  PyStr.char_in c (py "。！？!?").

(** [re.split] on one or more terminators and an optional double quote
    after them. [in_match] holds between the first terminator of a
    separator and its end; [cur] is the piece being read. *)
Fixpoint re_split (s : pystr) (in_match : bool) (cur : pystr) : list pystr :=
  match s with
  | [] => [cur]
  | c :: s' =>
      if is_terminator c then
        if in_match then re_split s' true [] else cur :: re_split s' true []
      else if in_match && (c =? quote_char)%N then re_split s' false []
      else re_split s' false (cur ++ [c])
  end.

(** [split_sentences] *)
Definition split_sentences (text : pystr) : list pystr :=
  map PyStr.strip
    (filter (fun s => negb (PyStr.eqb s []) && (3 <? length (PyStr.strip s))%nat)
       (re_split text false [])).

(* ================================================================== *)
(** ** Template abstractor *)
(* ================================================================== *)

Definition NOUN : pystr := py "[名词]".
Definition PRONOUN : pystr := py "[代词]".
Definition ADVERB : pystr := py "[副词]".
Definition ADJECTIVE : pystr := py "[形容词]".
Definition NUMERAL : pystr := py "[数词]".

(** [''.join(parts)] *)
Definition concat_str (parts : list pystr) : pystr := concat parts.

(** The merge loop of the tagger-backed strategy: an item that starts
    with a bracket and equals the item kept just before it is dropped. *)
Fixpoint merge_placeholders (prev : option pystr) (result : list pystr) : list pystr :=
  match result with
  | [] => []
  | item :: rest =>
      if PyStr.startswith item (py "[") && bool_decide (Some item = prev)
      then merge_placeholders prev rest
      else item :: merge_placeholders (Some item) rest
  end.

(** The token loop of the tagger-backed strategy, on the (word, flag)
    pairs of the part-of-speech tagger. *)
Definition jieba_token (word flag : pystr) : pystr :=
  if PyStr.startswith flag (py "n") then NOUN
  else if PyStr.eqb flag (py "r") then PRONOUN
  else if PyStr.startswith flag (py "v") then
    match VERB_TO_SEMANTIC word with
    | Some semantic => semantic
    | None => word
    end
  else if PyStr.eqb flag (py "d") then ADVERB
  else if PyStr.startswith flag (py "a") then ADJECTIVE
  else if PyStr.eqb flag (py "m") then NUMERAL
  else if PyStr.eqb flag (py "p") then word
  else if PyStr.mem flag (map py ["c"; "u"; "e"; "y"; "o"; "w"]) then word
  else word.

Definition common_verbs : list pystr := map py [
  "是"; "有"; "在"; "说"; "道"; "看"; "想"; "知道"; "觉得"; "认为";
  "走"; "来"; "去"; "跑"; "站"; "坐"; "躺"; "笑"; "哭"; "喊"; "叫";
  "做"; "给"; "让"; "把"; "被"; "对"; "向"; "从"; "到"; "过";
  "打开"; "关上"; "拿起"; "放下"; "抬头"; "低头"; "转身"; "回头";
  "开始"; "结束"; "继续"; "停止"; "出现"; "消失"; "发现"; "听到"].

Definition keep_words : list pystr := map py [
  "的"; "地"; "得"; "了"; "着"; "过"; "吗"; "呢"; "吧"; "啊";
  "和"; "与"; "或"; "但"; "但是"; "然而"; "因为"; "所以"; "如果";
  "就"; "都"; "也"; "还"; "又"; "再"; "才"; "只"; "很"; "太";
  "不"; "没"; "没有"; "不是"; "不会"; "不能"].

Definition pronouns : list pystr := map py [
  "我"; "你"; "他"; "她"; "它"; "我们"; "你们"; "他们"; "她们"; "它们";
  "这"; "那"; "这个"; "那个"; "这些"; "那些"; "自己"; "大家"; "谁"].

(** The punctuation kept by the fallback strategy. In the source the
    literal is two adjacent literals, so it holds the double quote (twice)
    and no apostrophe. *)
Definition kept_punctuation : pystr :=
  py "，。！？、；：" ++ [quote_char; quote_char] ++ py "（）【】《》…—".

(** [\u4e00 <= char <= \u9fff] *)
Definition is_cjk (c : N) : bool := ((19968 <=? c) && (c <=? 40959))%N.

(** The scan of the fallback strategy. [skip] is set when the previous
    step consumed two characters. *)
Fixpoint simple_scan (text : pystr) (skip : bool) (result : list pystr) : list pystr :=
  match text with
  | [] => result
  | char :: rest =>
      if skip then simple_scan rest false result
      else
        let single :=
          if PyStr.mem [char] common_verbs || PyStr.mem [char] keep_words
          then result ++ [[char]]
          else if PyStr.mem [char] pronouns then result ++ [PRONOUN]
          else if PyStr.char_in char kept_punctuation then result ++ [[char]]
          else if is_cjk char then
            if bool_decide (last result = Some NOUN) then result
            else result ++ [NOUN]
          else result ++ [[char]] in
        match rest with
        | next :: _ =>
            let two_char := [char; next] in
            if PyStr.mem two_char common_verbs || PyStr.mem two_char keep_words
            then simple_scan rest true (result ++ [two_char])
            else if PyStr.mem two_char pronouns
            then simple_scan rest true (result ++ [PRONOUN])
            else simple_scan rest false single
        | [] => simple_scan rest false single
        end
  end.

(** [_extract_template_simple_impl] *)
Definition _extract_template_simple_impl (sentence : pystr) : pystr :=
  concat_str (simple_scan sentence false []).

Section Abstractor.

(** Whether the part-of-speech tagger could be imported, and its [cut]:
    the (word, flag) pairs of a sentence. The tagger is an external
    library; [None] stands for a call that raises. *)
Variable JIEBA_AVAILABLE : bool.
Variable pseg_cut : pystr -> option (list (pystr * pystr)).

(** The items of the tagger-backed strategy before they are joined. *)
Definition jieba_items (sentence : pystr) : option (list pystr) :=
  words ← pseg_cut sentence;
  Some (merge_placeholders None (map (fun '(word, flag) => jieba_token word flag) words)).

(** [_extract_template_with_jieba_impl] *)
Definition _extract_template_with_jieba_impl (sentence : pystr) : option pystr :=
  if negb JIEBA_AVAILABLE then Some (_extract_template_simple_impl sentence)
  else concat_str <$> jieba_items sentence.

(** [extract_template_cached]; the memo table in front of it does not
    change what it returns. *)
Definition extract_template_cached (sentence : pystr) : option pystr :=
  if JIEBA_AVAILABLE then _extract_template_with_jieba_impl sentence
  else Some (_extract_template_simple_impl sentence).

Definition extract_template (sentence : pystr) : option pystr :=
  extract_template_cached sentence.

(** [extract_templates_batch]: every sentence is looked up in the table
    built over the distinct sentences; it raises when one of them does. *)
Definition extract_templates_batch (sentences : list pystr) : option (list pystr) :=
  mapM extract_template_cached sentences.

End Abstractor.

(* ================================================================== *)
(** ** Clusterer *)
(* ================================================================== *)

(** One row of the edit-distance table: [left] is [curr_row[j]] and
    [prev_row] is read from index [j] on. *)
Fixpoint distance_row (c1 : N) (t2 : pystr) (prev_row : list Z) (left : Z) : list Z :=
  match t2, prev_row with
  | c2 :: t2', diag :: ((up :: _) as prev_row') =>
      let insertions := up + 1 in
      let deletions := left + 1 in
      let substitutions := diag + (if (c1 =? c2)%N then 0 else 1) in
      let cell := Z.min (Z.min insertions deletions) substitutions in
      cell :: distance_row c1 t2' prev_row' cell
  | _, _ => []
  end.

Definition edit_distance (t1 t2 : pystr) : Z :=
  let rows :=
    fold_left
      (fun '(i, prev_row) c1 =>
         (i + 1, (i + 1) :: distance_row c1 t2 prev_row (i + 1)))
      t1 (0, map Z.of_nat (seq 0 (S (length t2)))) in
  default 0 (last (snd rows)).

(** [template_similarity] *)
Definition template_similarity (t1 t2 : pystr) : float :=
  if PyStr.eqb t1 t2 then 1%float
  else
    let len1 := Z.of_nat (length t1) in
    let len2 := Z.of_nat (length t2) in
    if (len1 =? 0) || (len2 =? 0) then 0%float
    else if PrimFloat.ltb (PrimFloat.mul (PyNum.float_of_Z (Z.max len1 len2)) 0.5)
                          (PyNum.float_of_Z (Z.abs (len1 - len2)))
    then 0%float
    else
      let '(t1, t2, len1, len2) :=
        if len2 <? len1 then (t2, t1, len2, len1) else (t1, t2, len1, len2) in
      let distance := edit_distance t1 t2 in
      let max_len := Z.max len1 len2 in
      PrimFloat.sub 1 (PyNum.truediv distance max_len).

(** The values of a [defaultdict(list)] filled by appending every element
    under its key, keys in the order they first occur. *)
Section GroupBy.
Context {A K : Type} `{EqDecision K}.

Fixpoint group_add (groups : list (K * list A)) (k : K) (x : A) : list (K * list A) :=
  match groups with
  | [] => [(k, [x])]
  | (k', xs) :: groups' =>
      if decide (k = k') then (k', xs ++ [x]) :: groups'
      else (k', xs) :: group_add groups' k x
  end.

Definition group_by (key : A -> K) (l : list A) : list (K * list A) :=
  fold_left (fun groups x => group_add groups (key x) x) l [].

End GroupBy.

Record Cluster := {
  representative : pystr;
  items : list Template
}.

(** The union-find of [_merge_similar_clusters]. [find] follows the parent
    links and makes every cell on its way point to the root it returns; it
    is recursive in the source, and [fuel] bounds the depth of the
    recursion here. [None] stands for a recursion deeper than [fuel] or an
    index out of range. *)
Fixpoint find (fuel : nat) (merged_into : list nat) (x : nat) : option (list nat * nat) :=
  match fuel with
  | O => None
  | S fuel' =>
      p ← merged_into !! x;
      if (p =? x)%nat then Some (merged_into, p)
      else
        '(merged_into', r) ← find fuel' merged_into p;
        Some (<[x := r]> merged_into', r)
  end.

Definition union (fuel : nat) (merged_into : list nat) (x y : nat) : option (list nat) :=
  '(m1, rx) ← find fuel merged_into x;
  '(m2, ry) ← find fuel m1 y;
  Some (if (rx =? ry)%nat then m2 else <[rx := ry]> m2).

(** The test of one pair of representatives in the double loop. *)
Definition similar_pair (threshold : float) (rep_i rep_j : pystr) : bool :=
  let li := Z.of_nat (length rep_i) in
  let lj := Z.of_nat (length rep_j) in
  if PrimFloat.ltb (PrimFloat.mul (PyNum.float_of_Z (Z.max li lj)) 0.4)
                   (PyNum.float_of_Z (Z.abs (li - lj)))
  then false
  else PrimFloat.leb threshold (template_similarity rep_i rep_j).

(** A [for] loop over [l] whose body may fail. *)
Fixpoint for_each {S X : Type} (l : list X) (body : S -> X -> option S) (s : S) : option S :=
  match l with
  | [] => Some s
  | x :: l' => s' ← body s x; for_each l' body s'
  end.

(** [merged_clusters[root]] after the loop body for [cluster]: a new entry
    takes the cluster's representative, an entry whose representative is
    empty takes it too, and the items are appended. *)
Fixpoint merged_add (merged_clusters : list (nat * Cluster)) (root : nat) (cluster : Cluster)
  : list (nat * Cluster) :=
  match merged_clusters with
  | [] => [(root, {| representative := representative cluster; items := items cluster |})]
  | (k, c) :: rest =>
      if (root =? k)%nat then
        (k, {| representative :=
                 match representative c with
                 | [] => representative cluster
                 | _ :: _ => representative c
                 end;
               items := items c ++ items cluster |}) :: rest
      else (k, c) :: merged_add rest root cluster
  end.

(** The depth allowed to [find] on [n] clusters: every union makes a tree
    at most one link higher, and fewer than [n * n] pairs are united. *)
Definition find_fuel (n : nat) : nat := (n * n)%nat.

(** [_merge_similar_clusters] *)
Definition _merge_similar_clusters (clusters : list Cluster) (threshold : float)
  : option (list Cluster) :=
  let n := length clusters in
  if (n <=? 1)%nat then Some clusters
  else
    let fuel := find_fuel n in
    merged_into ←
      for_each (seq 0 n)
        (fun merged_into i =>
           for_each (seq (i + 1) (n - (i + 1)))
             (fun merged_into j =>
                ci ← clusters !! i;
                cj ← clusters !! j;
                if similar_pair threshold (representative ci) (representative cj)
                then union fuel merged_into i j
                else Some merged_into)
             merged_into)
        (seq 0 n);
    '(_, merged_clusters) ←
      for_each (imap (fun i cluster => (i, cluster)) clusters)
        (fun '(merged_into, merged_clusters) '(i, cluster) =>
           '(merged_into', root) ← find fuel merged_into i;
           Some (merged_into', merged_add merged_clusters root cluster))
        (merged_into, []);
    Some (map snd merged_clusters).

(** [cluster_templates_similar] *)
Definition cluster_templates_similar (templates : list Template) (threshold : float)
  : option (list (list Template)) :=
  match templates with
  | [] => Some []
  | _ :: _ =>
      let valid_templates := filter (fun t => (5 <? length (template t))%nat) templates in
      match valid_templates with
      | [] => Some []
      | _ :: _ =>
          let exact_clusters := group_by template valid_templates in
          let cluster_list :=
            map (fun '(tpl, its) => {| representative := tpl; items := its |})
              (filter (fun '(_, its) => (2 <=? length its)%nat) exact_clusters) in
          if (length cluster_list <=? 50)%nat then
            merged ← _merge_similar_clusters cluster_list threshold;
            let result := map items (filter (fun c => (2 <=? length (items c))%nat) merged) in
            Some (sort_by_key_reverse (fun x => Z.of_nat (length x)) result)
          else
            let result := map items cluster_list in
            Some (sort_by_key_reverse (fun x => Z.of_nat (length x)) result)
      end
  end.

(** [cluster_templates] *)
Definition cluster_templates (templates : list Template) : option (list (list Template)) :=
  cluster_templates_similar templates 0.7.

(* ================================================================== *)
(** ** Narrative tagger and n-gram miner *)
(* ================================================================== *)

(** The type labels ['D'], ['T'], ['E'], ['A'] and ['N']. *)
Inductive sentence_type := Dialogue | Thought | Emotion | Action | Narrative.

#[global] Instance sentence_type_eq_dec : EqDecision sentence_type.
Proof. solve_decision. Defined.

Definition type_label (t : sentence_type) : pystr :=
  match t with
  | Dialogue => py "D" | Thought => py "T" | Emotion => py "E"
  | Action => py "A" | Narrative => py "N"
  end.

(** [extract_sentence_type] *)
Definition extract_sentence_type (template : pystr) : sentence_type :=
  let has_dialogue :=
    existsb (fun marker => PyStr.contains template marker)
      [py "「"; [quote_char]; [apostrophe_char]; py "："] in
  let has_action :=
    existsb (fun tag => PyStr.contains template tag)
      (map py ["[视觉]"; "[移动]"; "[手动]"; "[姿态]"; "[头动]"]) in
  let has_emotion :=
    PyStr.contains template (py "[情感]")
    || existsb (fun tag => PyStr.contains template tag) [py "[表情]"] in
  let has_speech := PyStr.contains template (py "[言语]") in
  let has_thought := PyStr.contains template (py "[思维]") in
  if has_dialogue || has_speech then Dialogue
  else if has_thought then Thought
  else if has_emotion then Emotion
  else if has_action then Action
  else Narrative.

Record NGram := {
  pattern : pystr;
  types : list sentence_type;
  ng_chapter_id : pystr;
  ng_chapter_number : Z;
  start_position : nat;
  sentences : list pystr
}.

(** [l[i:i+n]] *)
Definition slice {A : Type} (l : list A) (i n : nat) : list A := firstn n (skipn i l).

(** The chapters of [extract_ngrams]: the templates grouped by chapter id,
    every group sorted by position. *)
Definition chapters_by_position (templates : list Template) : list (pystr * list Template) :=
  map (fun '(cid, ts) => (cid, sort_by_key (fun x => Z.of_nat (position x)) ts))
    (group_by chapter_id templates).

(** The n-grams of one chapter, each with the templates it is made of
    ([ngram_templates] in the source). *)
Definition chapter_ngrams (n : nat) (cid : pystr) (chapter_templates : list Template)
  : list (NGram * list Template) :=
  if (length chapter_templates <? n)%nat then []
  else
    let types := map (fun t => extract_sentence_type (template t)) chapter_templates in
    map (fun i =>
           let ngram_types := slice types i n in
           let ngram_templates := slice chapter_templates i n in
           ({| pattern := PyStr.join (py "→") (map type_label ngram_types);
               types := ngram_types;
               ng_chapter_id := cid;
               ng_chapter_number :=
                 match chapter_templates with
                 | t :: _ => chapter_number t
                 | [] => 0
                 end;
               start_position := i;
               sentences := map text ngram_templates |},
            ngram_templates))
      (seq 0 (length types + 1 - n)).

Definition extract_ngrams_with_members (templates : list Template) (n : nat)
  : list (NGram * list Template) :=
  if (length templates <? n)%nat then []
  else
    flat_map (fun '(cid, chapter_templates) => chapter_ngrams n cid chapter_templates)
      (chapters_by_position templates).

(** [extract_ngrams] *)
Definition extract_ngrams (templates : list Template) (n : nat) : list NGram :=
  map fst (extract_ngrams_with_members templates n).

(** [s.split(sep)] for a separator of one character. *)
Fixpoint split_char (sep : N) (s : pystr) (cur : pystr) : list pystr :=
  match s with
  | [] => [cur]
  | c :: s' =>
      if (c =? sep)%N then cur :: split_char sep s' []
      else split_char sep s' (cur ++ [c])
  end.

(** [_describe_ngram_pattern] *)
Definition _describe_ngram_pattern (pattern : pystr) : pystr :=
  let type_names p :=
    if PyStr.eqb p (py "D") then py "对话"
    else if PyStr.eqb p (py "T") then py "思维"
    else if PyStr.eqb p (py "E") then py "情感"
    else if PyStr.eqb p (py "A") then py "动作"
    else if PyStr.eqb p (py "N") then py "叙述"
    else p in
  PyStr.join (py " → ") (map type_names (split_char 8594%N pattern [])).

Record NGramExample := {
  ex_chapter : Z;
  ex_sentences : list pystr
}.

Record RepetitivePattern := {
  rp_pattern : pystr;
  rp_count : Z;
  rp_description : pystr;
  rp_examples : list NGramExample
}.

Record NGramAnalysis := {
  bigram_patterns : list RepetitivePattern;
  trigram_patterns : list RepetitivePattern;
  total_bigrams : Z;
  unique_bigrams : Z;
  ngram_diversity_score : Z
}.

(** The patterns among the 10 most common that occur at least 3 times,
    each with its first 3 instances. *)
Definition repetitive_patterns (ngrams : list NGram) (counter : Counter pystr)
  : list RepetitivePattern :=
  map (fun '(pat, cnt) =>
         let examples := firstn 3 (filter (fun ng => PyStr.eqb (pattern ng) pat) ngrams) in
         {| rp_pattern := pat;
            rp_count := cnt;
            rp_description := _describe_ngram_pattern pat;
            rp_examples :=
              map (fun ex => {| ex_chapter := ng_chapter_number ex;
                                ex_sentences := sentences ex |}) examples |})
    (filter (fun '(_, cnt) => 3 <=? cnt) (most_common 10 counter)).

(** [analyze_ngram_patterns] *)
Definition analyze_ngram_patterns (templates : list Template) : NGramAnalysis :=
  let bigrams := extract_ngrams templates 2 in
  let trigrams := extract_ngrams templates 3 in
  let bigram_counter := counter_of (map pattern bigrams) in
  let trigram_counter := counter_of (map pattern trigrams) in
  let repetitive_bigrams := repetitive_patterns bigrams bigram_counter in
  let repetitive_trigrams := repetitive_patterns trigrams trigram_counter in
  let total_bigrams := Z.of_nat (length bigrams) in
  let unique_bigrams := Z.of_nat (length bigram_counter) in
  let diversity_score :=
    if 0 <? total_bigrams then
      let diversity_ratio := PyNum.truediv unique_bigrams total_bigrams in
      Z.min 100 (PyNum.int (PrimFloat.mul diversity_ratio 200))
    else 100 in
  {| bigram_patterns := repetitive_bigrams;
     trigram_patterns := repetitive_trigrams;
     total_bigrams := total_bigrams;
     unique_bigrams := unique_bigrams;
     ngram_diversity_score := diversity_score |}.

(* ================================================================== *)
(** ** Opening analyzer *)
(* ================================================================== *)

(** [analyze_opening_type] *)
Definition analyze_opening_type (sentence : pystr) : opening_type :=
  if existsb (fun marker => PyStr.startswith (PyStr.strip sentence) marker)
       (OPENING_KEYWORDS op_dialogue)
  then op_dialogue
  else if existsb (fun keyword => PyStr.contains (firstn 20 sentence) keyword)
            (OPENING_KEYWORDS op_time)
  then op_time
  else if existsb (fun keyword => PyStr.contains (firstn 30 sentence) keyword)
            (OPENING_KEYWORDS op_weather)
  then op_weather
  else if existsb (fun keyword => PyStr.contains (firstn 15 sentence) keyword)
            (OPENING_KEYWORDS op_action)
  then op_action
  else op_other.

Record OpeningExample := {
  oe_chapter : Z;
  oe_text : pystr
}.

(** The report of [analyze_openings]; [dominant_type] is [None] where the
    source has ["unknown"]. *)
Record OpeningAnalysis := {
  oa_total_chapters : Z;
  categories : Counter opening_type;
  examples : list (opening_type * list OpeningExample);
  dominant_type : option opening_type;
  dominant_count : Z;
  dominant_ratio : float;
  is_monotonous : bool;
  oa_suggestion : pystr
}.

Definition opening_type_names (t : opening_type) : pystr :=
  match t with
  | op_time => py "时间" | op_weather => py "天气/环境" | op_dialogue => py "对话"
  | op_action => py "动作" | op_other => py "其他"
  end.

(** [opening_examples[opening_type]] gets the example when it holds fewer
    than 3; reading it creates the key. *)
Fixpoint examples_add (exs : list (opening_type * list OpeningExample))
  (k : opening_type) (e : OpeningExample) : list (opening_type * list OpeningExample) :=
  match exs with
  | [] => [(k, [e])]
  | (k', es) :: exs' =>
      if decide (k = k')
      then (k', if (length es <? 3)%nat then es ++ [e] else es) :: exs'
      else (k', es) :: examples_add exs' k e
  end.

(** [analyze_openings] *)
Definition analyze_openings (all_sentences : list Sentence) (total_chapters : nat)
  : OpeningAnalysis :=
  let openings := filter (fun s => (s_position s =? 0)%nat) all_sentences in
  let '(categories, opening_examples) :=
    fold_left
      (fun '(categories, opening_examples) opening =>
         let opening_type := analyze_opening_type (s_text opening) in
         (counter_add categories opening_type 1,
          examples_add opening_examples opening_type
            {| oe_chapter := s_chapter_number opening;
               oe_text :=
                 if (50 <? length (s_text opening))%nat
                 then firstn 50 (s_text opening) ++ py "..."
                 else s_text opening |}))
      openings ([], []) in
  let '(dominant_type, dominant_count, dominant_ratio) :=
    match most_common 1 categories with
    | (t, c) :: _ =>
        (Some t, c,
         match openings with
         | [] => 0%float
         | _ :: _ => PyNum.truediv c (Z.of_nat (length openings))
         end)
    | [] => (None, 0, 0%float)
    end in
  let suggestion :=
    if PrimFloat.ltb 0.6 dominant_ratio then
      str_of_Z (PyNum.int (PrimFloat.mul dominant_ratio 100))
      ++ py "%的章节以"
      ++ match dominant_type with Some t => opening_type_names t | None => py "unknown" end
      ++ py "开场，建议尝试更多样的开场方式"
    else [] in
  {| oa_total_chapters := Z.of_nat (length openings);
     categories := categories;
     examples := opening_examples;
     dominant_type := dominant_type;
     dominant_count := dominant_count;
     dominant_ratio := round2 dominant_ratio;
     is_monotonous := PrimFloat.ltb 0.6 dominant_ratio;
     oa_suggestion := suggestion |}.

(* ================================================================== *)
(** ** Score aggregator *)
(* ================================================================== *)

Record Pattern := {
  p_template : pystr;
  p_count : Z;
  p_examples : list pystr;
  p_chapters : list Z;
  is_opening_pattern : bool;
  is_ending_pattern : bool
}.

(** [sorted(set(l))] *)
Definition sorted_set (l : list Z) : list Z := sort_by_key (fun z => z) (remove_dups l).

(** The repeated patterns: the clusters of at least 3 items, by count. *)
Definition find_patterns (clusters : list (list Template)) : list Pattern :=
  sort_by_key_reverse p_count
    (flat_map
       (fun cluster =>
          match cluster with
          | c0 :: _ =>
              if (3 <=? length cluster)%nat then
                [{| p_template := template c0;
                    p_count := Z.of_nat (length cluster);
                    p_examples := map text (firstn 5 cluster);
                    p_chapters := sorted_set (map chapter_number cluster);
                    is_opening_pattern := forallb is_opening cluster;
                    is_ending_pattern := forallb is_ending cluster |}]
              else []
          | [] => []
          end)
       clusters).

(** [calculate_pattern_score] *)
Definition calculate_pattern_score (patterns : list Pattern)
  (opening_analysis : OpeningAnalysis) (emotion_diversity : EmotionDiversity)
  (chapter_count : Z) (ngram_analysis : option NGramAnalysis) : Z :=
  let score := 100 in
  let pattern_penalty :=
    fold_left
      (fun pattern_penalty pat =>
         let repeat_ratio := PyNum.truediv (p_count pat) (Z.max chapter_count 1) in
         if PrimFloat.ltb 0.5 repeat_ratio then pattern_penalty + 5
         else if PrimFloat.ltb 0.3 repeat_ratio then pattern_penalty + 3
         else if PrimFloat.ltb 0.2 repeat_ratio then pattern_penalty + 2
         else pattern_penalty + 1)
      (firstn 10 patterns) 0 in
  let score := score - Z.min 30 pattern_penalty in
  let score :=
    if is_monotonous opening_analysis then
      let dominant_ratio := dominant_ratio opening_analysis in
      if PrimFloat.ltb 0.8 dominant_ratio then score - 20
      else if PrimFloat.ltb 0.6 dominant_ratio then score - 12
      else score - 6
    else score in
  let emotion_score := diversity_score emotion_diversity in
  let score :=
    if emotion_score <? 40 then score - 20
    else if emotion_score <? 60 then score - 12
    else if emotion_score <? 80 then score - 6
    else score in
  let score :=
    match ngram_analysis with
    | Some ngram_analysis =>
        let ngram_diversity := ngram_diversity_score ngram_analysis in
        let bigram_count := Z.of_nat (length (bigram_patterns ngram_analysis)) in
        let trigram_count := Z.of_nat (length (trigram_patterns ngram_analysis)) in
        let score :=
          if ngram_diversity <? 30 then score - 15
          else if ngram_diversity <? 50 then score - 10
          else if ngram_diversity <? 70 then score - 5
          else score in
        let score :=
          if 5 <? bigram_count then score - 8
          else if 3 <? bigram_count then score - 5
          else if 1 <? bigram_count then score - 2
          else score in
        if 3 <? trigram_count then score - 7
        else if 1 <? trigram_count then score - 3
        else score
    | None => score
    end in
  Z.max 0 (Z.min 100 score).

(** [get_pattern_level] *)
Definition get_pattern_level (score : Z) : pystr :=
  if 80 <=? score then py "多样丰富"
  else if 60 <=? score then py "较为多样"
  else if 40 <=? score then py "套路化明显"
  else py "高度套路化".

(** [generate_pattern_suggestions] *)
Definition generate_pattern_suggestions (patterns : list Pattern)
  (opening_analysis : OpeningAnalysis) (emotion_diversity : EmotionDiversity)
  (ngram_analysis : option NGramAnalysis) : list pystr :=
  let suggestions :=
    flat_map
      (fun pat =>
         if 5 <=? p_count pat then
           let template :=
             if (30 <? length (p_template pat))%nat
             then firstn 30 (p_template pat) ++ py "..."
             else p_template pat in
           [py "「" ++ template ++ py "」出现" ++ str_of_Z (p_count pat)
            ++ py "次，建议使用更多样的表达方式"]
         else [])
      (firstn 5 patterns) in
  let suggestions :=
    match oa_suggestion opening_analysis with
    | [] => suggestions
    | _ :: _ => suggestions ++ [oa_suggestion opening_analysis]
    end in
  let suggestions :=
    match ed_suggestion emotion_diversity with
    | [] => suggestions
    | _ :: _ => suggestions ++ [ed_suggestion emotion_diversity]
    end in
  match ngram_analysis with
  | Some ngram_analysis =>
      suggestions
      ++ flat_map
           (fun bp =>
              if 5 <=? rp_count bp then
                [py "叙事模式「" ++ rp_description bp ++ py "」出现"
                 ++ str_of_Z (rp_count bp) ++ py "次，尝试打破固定的句式节奏"]
              else [])
           (firstn 3 (bigram_patterns ngram_analysis))
      ++ flat_map
           (fun tp =>
              if 4 <=? rp_count tp then
                [py "三句式模式「" ++ rp_description tp
                 ++ py "」频繁出现，建议增加叙事结构变化"]
              else [])
           (firstn 2 (trigram_patterns ngram_analysis))
      ++ (if ngram_diversity_score ngram_analysis <? 40
          then [py "叙事节奏较为单一，建议穿插不同类型的句子组合"]
          else [])
  | None => suggestions
  end.

(* ================================================================== *)
(** ** Analysis results and the tables of the database *)
(* ================================================================== *)

(** The analysis of one chapter ([analyze_single_chapter]); the title key
    is absent from the analysis of an empty chapter. *)
Record ChapterAnalysis := {
  ca_chapter_id : pystr;
  ca_chapter_number : Z;
  ca_chapter_title : option pystr;
  ca_templates : list CachedTemplate;
  ca_sentence_count : nat;
  ca_opening_type : option opening_type;
  ca_emotion_stats : EmotionStats
}.

(** A row of [chapter_pattern_cache] (the surrogate key and the
    timestamps are left out). *)
Record ChapterPatternCache := {
  cache_project_id : pystr;
  cache_chapter_id : pystr;
  cache_chapter_number : Z;
  content_hash : pystr;
  cache_templates : list CachedTemplate;
  cache_sentence_count : nat;
  cache_opening_type : option opening_type;
  cache_emotion_stats : option EmotionStats;
  analysis_version : pystr
}.

(** The result of an analysis: the fields stored in
    [project_pattern_analysis]. *)
Record AnalysisResult := {
  score : Z;
  level : pystr;
  chapters_analyzed : nat;
  patterns_found : nat;
  top_patterns : list Pattern;
  opening_analysis : OpeningAnalysis;
  emotion_diversity : EmotionDiversity;
  ngram_analysis : NGramAnalysis;
  suggestions : list pystr
}.

Record ProjectPatternAnalysis := {
  ppa_project_id : pystr;
  ppa_result : AnalysisResult;
  detection_version : pystr
}.

Record IncrementalStats := {
  cached_chapters : nat;
  refreshed_chapters : nat
}.

(** What an analysis run returns, by its [status]. *)
Inductive Outcome :=
| insufficient_data (message : pystr) (current_chapters : nat)
| no_content (message : pystr)
| success (result : AnalysisResult) (incremental_stats : option IncrementalStats).

Record DB := {
  chapters_table : list Chapter;
  chapter_pattern_cache : gmap pystr ChapterPatternCache;
  project_pattern_analysis : gmap pystr ProjectPatternAnalysis
}.

(** The chapters of a project in the order of their numbers. *)
Definition select_chapters (db : DB) (pid : pystr) : list Chapter :=
  sort_by_key chapter_number_of
    (filter (fun c => PyStr.eqb (project_id c) pid) (chapters_table db)).

(** [save_pattern_analysis]: the project's row is updated or created. *)
Definition save_pattern_analysis (db : DB) (pid : pystr) (result : AnalysisResult) : DB :=
  {| chapters_table := chapters_table db;
     chapter_pattern_cache := chapter_pattern_cache db;
     project_pattern_analysis :=
       <[pid := {| ppa_project_id := pid;
                   ppa_result := result;
                   detection_version := py "2.0" |}]> (project_pattern_analysis db) |}.

(** [not content] for a nullable text. *)
Definition is_empty (content : option pystr) : bool :=
  match content with
  | None | Some [] => true
  | Some (_ :: _) => false
  end.

Definition insufficient_message (min_chapters : nat) : pystr :=
  py "需要至少" ++ str_of_Z (Z.of_nat min_chapters) ++ py "个章节才能进行套路化分析".

Definition ANALYSIS_VERSION : pystr := py "2.0".

(** The flags of the sentence at index [i] of a chapter of [len]
    sentences. *)
Definition opening_flag (i : nat) : bool := (i <? 3)%nat.
Definition ending_flag (i len : nat) : bool :=
  if (3 <? len)%nat then (len - 3 <=? i)%nat else false.

(** The sentence records of one chapter in [analyze_project_patterns]. *)
Definition chapter_sentences (chapter : Chapter) (content : pystr) : list Sentence :=
  let sentences := split_sentences content in
  imap (fun i sent =>
          {| s_text := sent;
             s_chapter_id := id chapter;
             s_chapter_number := chapter_number_of chapter;
             s_chapter_title := Some (title chapter);
             s_position := i;
             s_is_opening := opening_flag i;
             s_is_ending := ending_flag i (length sentences) |})
    sentences.

(** [emotion_counts[emotion][expr_data["expr"]] += expr_data["count"]] *)
Definition emotion_counts_add (emotion_counts : list (emotion * Counter pystr))
  (emo : emotion) (expr_data : ExprCount) : list (emotion * Counter pystr) :=
  map (fun '(e, counter) =>
         if decide (e = emo)
         then (e, counter_add counter (expr expr_data) (count expr_data))
         else (e, counter))
    emotion_counts.

(** [aggregate_emotion_stats] *)
Definition aggregate_emotion_stats (chapter_analyses : list ChapterAnalysis)
  : EmotionDiversity :=
  let emotion_counts :=
    fold_left
      (fun emotion_counts ca =>
         fold_left
           (fun emotion_counts '(emo, stats) =>
              fold_left
                (fun emotion_counts expr_data =>
                   emotion_counts_add emotion_counts emo expr_data)
                (es_expressions stats) emotion_counts)
           (ca_emotion_stats ca) emotion_counts)
      chapter_analyses
      (map (fun '(emo, _) => (emo, [])) EMOTION_VOCABULARY) in
  let '(result, total_expressions, total_unique) := emotion_totals emotion_counts in
  let diversity_score :=
    if total_expressions =? 0 then 50
    else if total_expressions <? 10 then 60
    else
      let diversity_ratio := PyNum.truediv total_unique total_expressions in
      let base_score := PyNum.int (PrimFloat.mul diversity_ratio 200) in
      let quantity_bonus := Z.min 30 (total_unique * 3) in
      Z.min 100 (base_score + quantity_bonus) in
  let '(mc, max_concentration) := most_concentrated result in
  {| emotions := result;
     diversity_score := diversity_score;
     total_expressions := total_expressions;
     total_unique := total_unique;
     most_concentrated_emotion := mc;
     ed_suggestion := emotion_suggestion result mc max_concentration |}.

Section Engine.

Variable JIEBA_AVAILABLE : bool.
Variable pseg_cut : pystr -> option (list (pystr * pystr)).

(** [compute_content_hash]: the MD5 digest of the text, in hexadecimal. *)
Variable compute_content_hash : pystr -> pystr.

(** Steps 3 to 11 of a run, from the templates, the sentences, the emotion
    report and the number of chapters of the project. *)
Definition build_result (templates : list Template) (all_sentences : list Sentence)
  (emotion_diversity : EmotionDiversity) (n_chapters : nat) : option AnalysisResult :=
  clusters ← cluster_templates templates;
  let patterns := find_patterns clusters in
  let opening_analysis := analyze_openings all_sentences n_chapters in
  let ngram_analysis := analyze_ngram_patterns templates in
  let score :=
    calculate_pattern_score patterns opening_analysis emotion_diversity
      (Z.of_nat n_chapters) (Some ngram_analysis) in
  let level := get_pattern_level score in
  let suggestions :=
    generate_pattern_suggestions patterns opening_analysis emotion_diversity
      (Some ngram_analysis) in
  Some {| score := score;
          level := level;
          chapters_analyzed := n_chapters;
          patterns_found := length patterns;
          top_patterns := firstn 10 patterns;
          opening_analysis := opening_analysis;
          emotion_diversity := emotion_diversity;
          ngram_analysis := ngram_analysis;
          suggestions := suggestions |}.

(** [analyze_project_patterns]: the analysis of all chapters anew. [None]
    stands for an exception that leaves the run; the session is committed
    by the last statement only, so the tables are then as before. *)
Definition analyze_project_patterns (db : DB) (pid : pystr) (min_chapters : nat)
  : option (DB * Outcome) :=
  let chapters := select_chapters db pid in
  if (length chapters <? min_chapters)%nat then
    Some (db, insufficient_data (insufficient_message min_chapters) (length chapters))
  else
    let '(all_sentences, chapters_content) :=
      fold_left
        (fun '(all_sentences, chapters_content) chapter =>
           match content chapter with
           | Some ((_ :: _) as text) =>
               (all_sentences ++ chapter_sentences chapter text,
                chapters_content ++ [text])
           | _ => (all_sentences, chapters_content)
           end)
        chapters ([], []) in
    match all_sentences with
    | [] => Some (db, no_content (py "章节内容为空"))
    | _ :: _ =>
        template_strs ←
          extract_templates_batch JIEBA_AVAILABLE pseg_cut (map s_text all_sentences);
        let templates :=
          zip_with
            (fun sent tpl =>
               {| text := s_text sent;
                  template := tpl;
                  chapter_id := s_chapter_id sent;
                  chapter_number := s_chapter_number sent;
                  chapter_title := default [] (s_chapter_title sent);
                  position := s_position sent;
                  is_opening := s_is_opening sent;
                  is_ending := s_is_ending sent |})
            all_sentences template_strs in
        analysis_result ←
          build_result templates all_sentences
            (analyze_emotion_diversity chapters_content) (length chapters);
        Some (save_pattern_analysis db pid analysis_result,
              success analysis_result None)
    end.

(** [analyze_single_chapter] *)
Definition analyze_single_chapter (cid : pystr) (number : Z) (content : pystr)
  (title : pystr) : option ChapterAnalysis :=
  match content with
  | [] =>
      Some {| ca_chapter_id := cid;
              ca_chapter_number := number;
              ca_chapter_title := None;
              ca_templates := [];
              ca_sentence_count := 0;
              ca_opening_type := None;
              ca_emotion_stats := [] |}
  | _ :: _ =>
      let sentences := split_sentences content in
      template_strs ← extract_templates_batch JIEBA_AVAILABLE pseg_cut sentences;
      let templates :=
        imap (fun i '(sent, tpl) =>
                {| ct_text := sent;
                   ct_template := tpl;
                   ct_position := i;
                   ct_is_opening := opening_flag i;
                   ct_is_ending := ending_flag i (length sentences) |})
          (zip sentences template_strs) in
      let opening_type :=
        match sentences with
        | first :: _ => Some (analyze_opening_type first)
        | [] => None
        end in
      Some {| ca_chapter_id := cid;
              ca_chapter_number := number;
              ca_chapter_title := Some title;
              ca_templates := templates;
              ca_sentence_count := length sentences;
              ca_opening_type := opening_type;
              ca_emotion_stats := chapter_emotion_stats content |}
  end.

(** The test both the loop of the incremental run and
    [get_or_create_chapter_cache] make on the row found for a chapter: the
    row when it is there, its hash is the chapter's and its version is the
    engine's. *)
Definition valid_cache (cache : option ChapterPatternCache) (hash : pystr)
  : option ChapterPatternCache :=
  match cache with
  | Some c =>
      if PyStr.eqb (content_hash c) hash && PyStr.eqb (analysis_version c) ANALYSIS_VERSION
      then Some c else None
  | None => None
  end.

(** The analysis read from a valid row. *)
Definition cached_analysis (chapter : Chapter) (cache : ChapterPatternCache) : ChapterAnalysis :=
  {| ca_chapter_id := id chapter;
     ca_chapter_number := chapter_number_of chapter;
     ca_chapter_title := Some (title chapter);
     ca_templates := cache_templates cache;
     ca_sentence_count := cache_sentence_count cache;
     ca_opening_type := cache_opening_type cache;
     ca_emotion_stats := default [] (cache_emotion_stats cache) |}.

(** The row written for a chapter just analysed: the row found is updated
    in place (its project id stays), a missing one is created. *)
Definition updated_cache (existing : option ChapterPatternCache) (chapter : Chapter)
  (hash : pystr) (analysis : ChapterAnalysis) : ChapterPatternCache :=
  {| cache_project_id :=
       match existing with
       | Some c => cache_project_id c
       | None => project_id chapter
       end;
     cache_chapter_id :=
       match existing with
       | Some c => cache_chapter_id c
       | None => id chapter
       end;
     cache_chapter_number := chapter_number_of chapter;
     content_hash := hash;
     cache_templates := ca_templates analysis;
     cache_sentence_count := ca_sentence_count analysis;
     cache_opening_type := ca_opening_type analysis;
     cache_emotion_stats := Some (ca_emotion_stats analysis);
     analysis_version := ANALYSIS_VERSION |}.

(** [get_or_create_chapter_cache], on the cache table. *)
Definition get_or_create_chapter_cache (caches : gmap pystr ChapterPatternCache)
  (chapter : Chapter) (force_refresh : bool)
  : option (gmap pystr ChapterPatternCache * ChapterAnalysis) :=
  let text := default [] (content chapter) in
  let hash := compute_content_hash text in
  match (if force_refresh then None else valid_cache (caches !! id chapter) hash) with
  | Some cache => Some (caches, cached_analysis chapter cache)
  | None =>
      analysis ← analyze_single_chapter (id chapter) (chapter_number_of chapter) text (title chapter);
      let cache := caches !! id chapter in
      Some (<[id chapter := updated_cache cache chapter hash analysis]> caches, analysis)
  end.

(** The state of the loop over the chapters of the incremental run. *)
Record LoopState := {
  ls_caches : gmap pystr ChapterPatternCache;
  ls_analyses : list ChapterAnalysis;
  ls_cached_count : nat;
  ls_refreshed_count : nat
}.

(** One iteration of that loop. *)
Definition incremental_step (force_refresh : bool) (st : LoopState) (chapter : Chapter)
  : option LoopState :=
  match content chapter with
  | Some ((_ :: _) as text) =>
      let hash := compute_content_hash text in
      match (if force_refresh then None
             else valid_cache (ls_caches st !! id chapter) hash) with
      | Some cache =>
          Some {| ls_caches := ls_caches st;
                  ls_analyses := ls_analyses st ++ [cached_analysis chapter cache];
                  ls_cached_count := S (ls_cached_count st);
                  ls_refreshed_count := ls_refreshed_count st |}
      | None =>
          '(caches, analysis) ← get_or_create_chapter_cache (ls_caches st) chapter true;
          Some {| ls_caches := caches;
                  ls_analyses := ls_analyses st ++ [analysis];
                  ls_cached_count := ls_cached_count st;
                  ls_refreshed_count := S (ls_refreshed_count st) |}
      end
  | _ => Some st
  end.

(** The templates and the sentences gathered from the analyses (step 3 of
    the incremental run). *)
Definition gather_templates (chapter_analyses : list ChapterAnalysis) : list Template :=
  flat_map
    (fun ca =>
       map (fun t =>
              {| text := ct_text t;
                 template := ct_template t;
                 chapter_id := ca_chapter_id ca;
                 chapter_number := ca_chapter_number ca;
                 chapter_title := default [] (ca_chapter_title ca);
                 position := ct_position t;
                 is_opening := ct_is_opening t;
                 is_ending := ct_is_ending t |})
         (ca_templates ca))
    chapter_analyses.

Definition gather_sentences (chapter_analyses : list ChapterAnalysis) : list Sentence :=
  flat_map
    (fun ca =>
       map (fun t =>
              {| s_text := ct_text t;
                 s_chapter_id := ca_chapter_id ca;
                 s_chapter_number := ca_chapter_number ca;
                 s_chapter_title := None;
                 s_position := ct_position t;
                 s_is_opening := ct_is_opening t;
                 s_is_ending := ct_is_ending t |})
         (ca_templates ca))
    chapter_analyses.

(** [analyze_project_patterns_incremental]. [None] stands for an exception
    that leaves the run: the session, rows written to the cache included,
    is committed by the last statement only. *)
Definition analyze_project_patterns_incremental (db : DB) (pid : pystr)
  (min_chapters : nat) (force_refresh : bool) : option (DB * Outcome) :=
  let chapters := select_chapters db pid in
  if (length chapters <? min_chapters)%nat then
    Some (db, insufficient_data (insufficient_message min_chapters) (length chapters))
  else
    st ← for_each chapters (incremental_step force_refresh)
           {| ls_caches := chapter_pattern_cache db;
              ls_analyses := [];
              ls_cached_count := 0;
              ls_refreshed_count := 0 |};
    match ls_analyses st with
    | [] => Some (db, no_content (py "章节内容为空"))
    | _ :: _ =>
        let chapter_analyses := ls_analyses st in
        analysis_result ←
          build_result (gather_templates chapter_analyses)
            (gather_sentences chapter_analyses)
            (aggregate_emotion_stats chapter_analyses) (length chapters);
        let db' :=
          {| chapters_table := chapters_table db;
             chapter_pattern_cache := ls_caches st;
             project_pattern_analysis := project_pattern_analysis db |} in
        Some (save_pattern_analysis db' pid analysis_result,
              success analysis_result
                (Some {| cached_chapters := ls_cached_count st;
                         refreshed_chapters := ls_refreshed_count st |}))
    end.

End Engine.

(* ================================================================== *)
(** ** Tokenizer, expression finder and table helpers *)
(* ================================================================== *)

(** [simple_tokenize]: every character with a coarse part-of-speech flag. *)
Definition simple_tokenize (sentence : pystr) : list (pystr * pystr) :=
  let pronouns := py "我你他她它们您咱俺" in
  map (fun char =>
         if PyStr.char_in char pronouns then ([char], py "r")
         else if is_cjk char then ([char], py "n")
         else ([char], py "x"))
    sentence.

(** [found[emotion].append(expr)] unless it is there; reading
    [found[emotion]] creates the key. *)
Fixpoint found_append (found : list (emotion * list pystr)) (emo : emotion) (expr : pystr)
  : list (emotion * list pystr) :=
  match found with
  | [] => [(emo, [expr])]
  | (e, l) :: rest =>
      if decide (emo = e)
      then (e, if PyStr.mem expr l then l else l ++ [expr]) :: rest
      else (e, l) :: found_append rest emo expr
  end.

(** [analyze_emotion_in_text] *)
Definition analyze_emotion_in_text (text : pystr) : list (emotion * list pystr) :=
  fold_left
    (fun found '(emo, config) =>
       fold_left
         (fun found expr =>
            if PyStr.contains text expr then found_append found emo expr else found)
         (expressions config) found)
    EMOTION_VOCABULARY [].

(** [get_pattern_analysis]: the row saved for the project, if any. Its
    [to_dict] copies the columns; the fallbacks [or []] and [or {}] change
    nothing on what a run stores. *)
Definition get_pattern_analysis (db : DB) (pid : pystr) : option ProjectPatternAnalysis :=
  project_pattern_analysis db !! pid.

(** [clear_project_pattern_cache]: the cache rows of the project are
    deleted. *)
Definition clear_project_pattern_cache (db : DB) (pid : pystr) : DB :=
  {| chapters_table := chapters_table db;
     chapter_pattern_cache :=
       filter (fun kv => cache_project_id (snd kv) <> pid) (chapter_pattern_cache db);
     project_pattern_analysis := project_pattern_analysis db |}.

(* ================================================================== *)
(** * Properties *)
(* ================================================================== *)

(** ** Strings, sums and counters *)

Lemma contains_app s sub :
  PyStr.contains s sub = true <-> exists pre post, s = pre ++ sub ++ post.
Proof.
  induction s as [|c s IH].
  - simpl. rewrite orb_false_r, PyStr.startswith_app. split.
    + intros [t Ht]. exists [], t. exact Ht.
    + intros (pre & post & H). destruct pre; [|discriminate].
      exists post. exact H.
  - cbn [PyStr.contains]. rewrite orb_true_iff, IH, PyStr.startswith_app. split.
    + intros [[t Ht]|(pre & post & H)].
      * exists [], t. exact Ht.
      * exists (c :: pre), post. simpl. now rewrite H.
    + intros (pre & post & H). destruct pre as [|c' pre].
      * left. exists post. exact H.
      * right. injection H as _ H. now exists pre, post.
Qed.

Lemma contains_trans s b a :
  PyStr.contains s b = true -> PyStr.contains b a = true -> PyStr.contains s a = true.
Proof.
  rewrite !contains_app. intros (p1 & q1 & ->) (p2 & q2 & ->).
  exists (p1 ++ p2), (q2 ++ q1). now rewrite <- !app_assoc.
Qed.

(** A non-empty expression is counted at least once exactly when it occurs. *)
Lemma count_positive s sub :
  sub <> [] -> ((1 <= PyStr.count s sub)%nat <-> PyStr.contains s sub = true).
Proof.
  intros Hsub. unfold PyStr.count. destruct sub as [|x sub]; [congruence|]. clear Hsub.
  induction s as [|c s IH].
  - simpl. split; [lia | discriminate].
  - cbn [PyStr.count_from PyStr.contains].
    destruct (PyStr.startswith (c :: s) (x :: sub)) eqn:E.
    + simpl. split; [reflexivity | lia].
    + simpl. exact IH.
Qed.

(** The sum of a list of ints. *)
Definition sumZ (l : list Z) : Z := fold_right Z.add 0 l.

Lemma sumZ_app l1 l2 : sumZ (l1 ++ l2) = sumZ l1 + sumZ l2.
Proof. unfold sumZ. induction l1 as [|x l1 IH]; simpl; [reflexivity | rewrite IH; lia]. Qed.

Lemma counter_set_fresh {K} `{EqDecision K} (c : Counter K) k v :
  ~ In k (map fst c) -> counter_set c k v = c ++ [(k, v)].
Proof.
  induction c as [|[k' v'] c IH]; simpl; [reflexivity|].
  intros Hk. destruct (decide (k = k')) as [->|Hne]; [tauto|].
  rewrite IH; [reflexivity | tauto].
Qed.

(** ** Emotion counts *)

(** The expressions of a list that occur in a text. *)
Definition found_expressions_of (full_text : pystr) (exprs : list pystr) : list pystr :=
  List.filter (fun e => 0 <? occurrences full_text e) exprs.

Lemma occurrences_nonneg t e : 0 <= occurrences t e.
Proof. unfold occurrences. lia. Qed.

Lemma found_counter_acc t exprs acc :
  NoDup exprs ->
  (forall e, In e exprs -> ~ In e (map fst acc)) ->
  fold_left
    (fun counter expr =>
       let count := occurrences t expr in
       if 0 <? count then counter_set counter expr count else counter)
    exprs acc
  = acc ++ map (fun e => (e, occurrences t e)) (found_expressions_of t exprs).
Proof.
  revert acc. induction exprs as [|e exprs IH]; intros acc Hnd Hfresh; simpl.
  - now rewrite app_nil_r.
  - apply NoDup_cons in Hnd as [He Hnd].
    destruct (0 <? occurrences t e) eqn:E.
    + rewrite counter_set_fresh by (apply Hfresh; now left).
      rewrite IH; [simpl; now rewrite <- app_assoc | exact Hnd |].
      intros e' He' Hin. rewrite List.map_app, in_app_iff in Hin.
      destruct Hin as [Hin|[<-|[]]].
      * apply (Hfresh e'); [now right | exact Hin].
      * apply He. now apply list_elem_of_In.
    + apply IH; [exact Hnd|]. intros e' He'. apply Hfresh. now right.
Qed.

(** The counter of a category holds the expressions that occur, in catalog
    order, each with its number of occurrences. *)
Lemma found_counter_closed t exprs :
  NoDup exprs ->
  found_counter t exprs = map (fun e => (e, occurrences t e)) (found_expressions_of t exprs).
Proof.
  intros Hnd. unfold found_counter. rewrite found_counter_acc; [reflexivity | exact Hnd |].
  intros e _ [].
Qed.

Lemma found_in_chapter_acc t exprs n found :
  fold_left
    (fun '(count, found_expressions) expr =>
       let expr_count := occurrences t expr in
       if 0 <? expr_count
       then (count + expr_count,
             found_expressions ++ [{| expr := expr; count := expr_count |}])
       else (count, found_expressions))
    exprs (n, found)
  = (n + sumZ (map (occurrences t) (found_expressions_of t exprs)),
     found ++ map (fun e => {| expr := e; count := occurrences t e |})
                (found_expressions_of t exprs)).
Proof.
  revert n found. induction exprs as [|e exprs IH]; intros n found; simpl.
  - now rewrite Z.add_0_r, app_nil_r.
  - destruct (0 <? occurrences t e) eqn:E.
    + rewrite IH. simpl. f_equal; [lia | now rewrite <- app_assoc].
    + apply IH.
Qed.

Lemma found_in_chapter_closed t exprs :
  found_in_chapter t exprs
  = (sumZ (map (occurrences t) (found_expressions_of t exprs)),
     map (fun e => {| expr := e; count := occurrences t e |}) (found_expressions_of t exprs)).
Proof. unfold found_in_chapter. now rewrite found_in_chapter_acc. Qed.

Lemma sumZ_found t exprs :
  sumZ (map (occurrences t) (found_expressions_of t exprs)) = sumZ (map (occurrences t) exprs).
Proof.
  induction exprs as [|e exprs IH]; simpl; [reflexivity|].
  destruct (0 <? occurrences t e) eqn:E; simpl; rewrite IH; [reflexivity|].
  apply Z.ltb_ge in E. pose proof (occurrences_nonneg t e). lia.
Qed.

Lemma sumZ_nonneg_occurrences t exprs : 0 <= sumZ (map (occurrences t) exprs).
Proof.
  induction exprs as [|e exprs IH]; simpl; [lia|].
  pose proof (occurrences_nonneg t e). lia.
Qed.

(** Two different expressions of a list contribute both to its sum. *)
Lemma sumZ_two_members t exprs a b :
  In a exprs -> In b exprs -> a <> b ->
  occurrences t a + occurrences t b <= sumZ (map (occurrences t) exprs).
Proof.
  induction exprs as [|e exprs IH]; simpl; [tauto|].
  intros [->|Ha] [->|Hb] Hne; try congruence.
  - assert (occurrences t b <= sumZ (map (occurrences t) exprs)); [|lia].
    clear IH Hne. induction exprs as [|e exprs IH]; simpl; [destruct Hb|].
    pose proof (occurrences_nonneg t e). pose proof (sumZ_nonneg_occurrences t exprs).
    destruct Hb as [->|Hb]; [lia | specialize (IH Hb); lia].
  - assert (occurrences t a <= sumZ (map (occurrences t) exprs)); [|lia].
    clear IH Hne. induction exprs as [|e exprs IH]; simpl; [destruct Ha|].
    pose proof (occurrences_nonneg t e). pose proof (sumZ_nonneg_occurrences t exprs).
    destruct Ha as [->|Ha]; [lia | specialize (IH Ha); lia].
  - pose proof (occurrences_nonneg t e). specialize (IH Ha Hb Hne). lia.
Qed.

Lemma emotion_totals_acc (l : list (emotion * Counter pystr))
  (result : list (emotion * EmotionData)) te tu :
  fold_left
    (fun '(result, total_expressions, total_unique) '(emo, counter) =>
       match counter with
       | [] => (result, total_expressions, total_unique)
       | _ :: _ =>
           let data := emotion_category_data counter in
           (result ++ [(emo, data)],
            total_expressions + total_count data,
            total_unique + unique_count data)
       end)
    l (result, te, tu)
  = (result ++ flat_map (fun '(emo, counter) =>
                           match counter with
                           | [] => []
                           | _ :: _ => [(emo, emotion_category_data counter)]
                           end) l,
     te + sumZ (map (fun p => counter_total (snd p)) l),
     tu + sumZ (map (fun p => Z.of_nat (length (snd p))) l)).
Proof.
  revert result te tu. induction l as [|[emo counter] l IH]; intros result te tu; simpl.
  - now rewrite app_nil_r, !Z.add_0_r.
  - destruct counter as [|kv counter]; rewrite IH; repeat apply pair_equal_spec, conj;
      try (unfold counter_total; simpl; lia); now rewrite <- ?app_assoc.
Qed.

(** The running totals of the loop over the categories: the sum of all
    counters and the number of their keys. *)
Lemma emotion_totals_closed (l : list (emotion * Counter pystr)) :
  emotion_totals l
  = (flat_map (fun '(emo, counter) =>
                 match counter with
                 | [] => []
                 | _ :: _ => [(emo, emotion_category_data counter)]
                 end) l,
     sumZ (map (fun p => counter_total (snd p)) l),
     sumZ (map (fun p => Z.of_nat (length (snd p))) l)).
Proof. unfold emotion_totals. now rewrite emotion_totals_acc. Qed.

(** The expressions of the whole catalog, category after category. *)
Definition catalog_of (voc : list (emotion * EmotionConfig)) : list pystr :=
  flat_map (fun '(_, config) => expressions config) voc.

Definition catalog_expressions : list pystr := catalog_of EMOTION_VOCABULARY.

Lemma vocabulary_NoDup : Forall (fun p => NoDup (expressions (snd p))) EMOTION_VOCABULARY.
Proof. apply (bool_decide_unpack _). vm_compute. exact I. Qed.

Lemma found_expressions_app t l1 l2 :
  found_expressions_of t (l1 ++ l2) = found_expressions_of t l1 ++ found_expressions_of t l2.
Proof. apply List.filter_app. Qed.

Lemma category_counters_total t (voc : list (emotion * EmotionConfig)) :
  Forall (fun p => NoDup (expressions (snd p))) voc ->
  sumZ (map (fun p => counter_total (snd p))
          (map (fun '(emo, config) => (emo, found_counter t (expressions config))) voc))
  = sumZ (map (occurrences t) (catalog_of voc)).
Proof.
  induction 1 as [|[emo config] voc Hnd _ IH]; simpl; [reflexivity|].
  rewrite IH, List.map_app, sumZ_app. f_equal.
  rewrite found_counter_closed by exact Hnd.
  unfold counter_total. rewrite List.map_map. simpl. fold (sumZ (map (occurrences t) (found_expressions_of t (expressions config)))).
  apply sumZ_found.
Qed.

Lemma category_counters_unique t (voc : list (emotion * EmotionConfig)) :
  Forall (fun p => NoDup (expressions (snd p))) voc ->
  sumZ (map (fun p => Z.of_nat (length (snd p)))
          (map (fun '(emo, config) => (emo, found_counter t (expressions config))) voc))
  = Z.of_nat (length (found_expressions_of t (catalog_of voc))).
Proof.
  induction 1 as [|[emo config] voc Hnd _ IH]; simpl; [reflexivity|].
  rewrite IH, found_expressions_app, length_app, Nat2Z.inj_add. f_equal.
  rewrite found_counter_closed by exact Hnd. now rewrite length_map.
Qed.

(** The text [count_emotion_expressions] scans, and the two totals of a
    corpus: all occurrences of catalog expressions, and the catalog
    expressions that occur. *)
Definition corpus_text (chapters_content : list pystr) : pystr :=
  PyStr.join [10%N] chapters_content.

Definition corpus_total (chapters_content : list pystr) : Z :=
  sumZ (map (occurrences (corpus_text chapters_content)) catalog_expressions).

Definition corpus_unique (chapters_content : list pystr) : Z :=
  Z.of_nat (length (found_expressions_of (corpus_text chapters_content) catalog_expressions)).

Lemma analyze_emotion_diversity_totals chapters_content :
  total_expressions (analyze_emotion_diversity chapters_content) = corpus_total chapters_content
  /\ total_unique (analyze_emotion_diversity chapters_content) = corpus_unique chapters_content.
Proof.
  unfold analyze_emotion_diversity. rewrite emotion_totals_closed.
  destruct (most_concentrated _) as [mc maxc]. cbn [total_expressions total_unique].
  unfold count_emotion_expressions. split.
  - apply (category_counters_total _ _ vocabulary_NoDup).
  - apply (category_counters_unique _ _ vocabulary_NoDup).
Qed.

(** *** Counters filled by addition *)

Lemma counter_add_total {K} `{EqDecision K} (c : Counter K) k v :
  counter_total (counter_add c k v) = counter_total c + v.
Proof.
  unfold counter_total. induction c as [|[k' v'] c IH]; simpl; [lia|].
  destruct (decide (k = k')); simpl; lia.
Qed.

Lemma counter_add_keys {K} `{EqDecision K} (c : Counter K) k v :
  map fst (counter_add c k v)
  = if decide (k ∈ map fst c) then map fst c else map fst c ++ [k].
Proof.
  induction c as [|[k' v'] c IH]; simpl.
  - reflexivity.
  - destruct (decide (k = k')) as [->|Hne]; simpl.
    + destruct (decide (k' ∈ k' :: map fst c)) as [_|Hn];
        [reflexivity | exfalso; apply Hn; left].
    + rewrite IH.
      destruct (decide (k ∈ map fst c)) as [Hin|Hnin],
               (decide (k ∈ k' :: map fst c)) as [Hin'|Hnin']; try reflexivity.
      * exfalso. apply Hnin'. now right.
      * exfalso. apply elem_of_cons in Hin' as [E|Hin']; [congruence | contradiction].
Qed.

Lemma counter_add_keys_NoDup {K} `{EqDecision K} (c : Counter K) k v :
  NoDup (map fst c) -> NoDup (map fst (counter_add c k v)).
Proof.
  intros Hnd. rewrite counter_add_keys. case_decide as Hnin; [exact Hnd|].
  apply NoDup_app. split; [exact Hnd|]. split.
  - intros x Hx Hk. apply list_elem_of_singleton in Hk as ->. contradiction.
  - apply NoDup_singleton.
Qed.

Lemma counter_add_keys_elem {K} `{EqDecision K} (c : Counter K) k v x :
  x ∈ map fst (counter_add c k v) <-> x ∈ map fst c \/ x = k.
Proof.
  rewrite counter_add_keys. case_decide as Hin.
  - split; [now left | intros [H| ->]; assumption].
  - rewrite elem_of_app, list_elem_of_singleton. tauto.
Qed.

(** The keys of a counter filled by addition: the distinct keys added. *)
Lemma counter_adds_length {K V} `{EqDecision K} (key : V -> K) (val : V -> Z) (rs : list V) :
  length (fold_left (fun c r => counter_add c (key r) (val r)) rs [])
  = length (remove_dups (map key rs)).
Proof.
  assert (Hgen : forall c : Counter K,
    NoDup (map fst c) ->
    NoDup (map fst (fold_left (fun c r => counter_add c (key r) (val r)) rs c))
    /\ forall x, x ∈ map fst (fold_left (fun c r => counter_add c (key r) (val r)) rs c)
                 <-> x ∈ map fst c \/ x ∈ map key rs).
  { induction rs as [|r rs IH]; intros c Hnd; simpl.
    - split; [exact Hnd|]. intros x. split; [now left|]. intros [H|H]; [exact H | inversion H].
    - destruct (IH (counter_add c (key r) (val r))) as [H1 H2].
      + now apply counter_add_keys_NoDup.
      + split; [exact H1|]. intros x. rewrite H2, counter_add_keys_elem, elem_of_cons.
        tauto. }
  destruct (Hgen []) as [Hnd Hel]; [constructor|].
  rewrite <- (length_map fst).
  apply Permutation_length, NoDup_Permutation.
  - exact Hnd.
  - apply NoDup_remove_dups.
  - intros x. rewrite elem_of_remove_dups, Hel. simpl. split; [intros [H|H]; [inversion H | exact H] | now right].
Qed.

Lemma counter_adds_total {K V} `{EqDecision K} (key : V -> K) (val : V -> Z) (rs : list V) c :
  counter_total (fold_left (fun c r => counter_add c (key r) (val r)) rs c)
  = counter_total c + sumZ (map val rs).
Proof.
  revert c. induction rs as [|r rs IH]; intros c; simpl; [lia|].
  rewrite IH, counter_add_total. lia.
Qed.

Lemma counter_of_length {K} `{EqDecision K} (keys : list K) :
  length (counter_of keys) = length (remove_dups keys).
Proof.
  unfold counter_of.
  rewrite (counter_adds_length (fun k => k) (fun _ => 1) keys). now rewrite List.map_id.
Qed.

(** *** The statistics aggregated from the chapters' caches *)

(** The expression records of all cached statistics, each with its
    category, in the order the aggregation reads them. *)
Definition cached_records (chapter_analyses : list ChapterAnalysis)
  : list (emotion * ExprCount) :=
  flat_map
    (fun ca =>
       flat_map (fun '(emo, stats) => map (pair emo) (es_expressions stats))
         (ca_emotion_stats ca))
    chapter_analyses.

Definition records_of (emo : emotion) (records : list (emotion * ExprCount)) : list ExprCount :=
  map snd (List.filter (fun r => bool_decide (fst r = emo)) records).

(** The sum of all cached counts, and the number of distinct expressions
    cached, category by category. *)
Definition cached_total (chapter_analyses : list ChapterAnalysis) : Z :=
  sumZ (map (fun r => count (snd r)) (cached_records chapter_analyses)).

Definition cached_unique (chapter_analyses : list ChapterAnalysis) : Z :=
  sumZ (map (fun emo =>
               Z.of_nat (length (remove_dups
                 (map expr (records_of emo (cached_records chapter_analyses))))))
          [happy; sad; angry; fear; surprise]).

Lemma fold_left_flat_map {A B C} (f : C -> B -> C) (g : A -> list B) l c :
  fold_left f (flat_map g l) c = fold_left (fun c x => fold_left f (g x) c) l c.
Proof.
  revert c. induction l as [|x l IH]; intros c; simpl; [reflexivity|].
  now rewrite fold_left_app, IH.
Qed.

Lemma fold_left_map {A B C} (f : C -> B -> C) (h : A -> B) l c :
  fold_left f (map h l) c = fold_left (fun c x => f c (h x)) l c.
Proof. revert c. induction l as [|x l IH]; intros c; simpl; [reflexivity | apply IH]. Qed.

Lemma aggregate_counts_records chapter_analyses init :
  fold_left
    (fun emotion_counts ca =>
       fold_left
         (fun emotion_counts '(emo, stats) =>
            fold_left
              (fun emotion_counts expr_data =>
                 emotion_counts_add emotion_counts emo expr_data)
              (es_expressions stats) emotion_counts)
         (ca_emotion_stats ca) emotion_counts)
    chapter_analyses init
  = fold_left (fun ec r => emotion_counts_add ec (fst r) (snd r))
      (cached_records chapter_analyses) init.
Proof.
  unfold cached_records. rewrite fold_left_flat_map.
  revert init. induction chapter_analyses as [|ca cas IH]; intros init; simpl; [reflexivity|].
  rewrite <- IH. f_equal. rewrite fold_left_flat_map.
  generalize (ca_emotion_stats ca). intros stats. revert init.
  induction stats as [|[emo st] stats IHs]; intros init; simpl; [reflexivity|].
  rewrite <- IHs. f_equal. now rewrite fold_left_map.
Qed.

Lemma emotion_counts_records records (ec : list (emotion * Counter pystr)) :
  fold_left (fun ec r => emotion_counts_add ec (fst r) (snd r)) records ec
  = map (fun '(e, c0) =>
           (e, fold_left (fun c r => counter_add c (expr r) (count r))
                 (records_of e records) c0))
      ec.
Proof.
  revert ec. induction records as [|[emo r] records IH]; intros ec; simpl.
  - induction ec as [|[e c0] ec IHec]; simpl; [reflexivity | now rewrite <- IHec].
  - rewrite IH. unfold emotion_counts_add. rewrite List.map_map.
    apply List.map_ext. intros [e c0]. unfold records_of. simpl.
    destruct (decide (e = emo)) as [->|Hne].
    + rewrite bool_decide_eq_true_2 by reflexivity. reflexivity.
    + rewrite bool_decide_eq_false_2 by congruence. reflexivity.
Qed.

Lemma sum_by_emotion (f : ExprCount -> Z) records :
  sumZ (map (fun emo => sumZ (map f (records_of emo records)))
          [happy; sad; angry; fear; surprise])
  = sumZ (map (fun r => f (snd r)) records).
Proof.
  induction records as [|[emo r] records IH]; [reflexivity|].
  unfold sumZ, records_of in *. destruct emo; simpl in *; lia.
Qed.

Lemma aggregate_emotion_stats_totals chapter_analyses :
  total_expressions (aggregate_emotion_stats chapter_analyses) = cached_total chapter_analyses
  /\ total_unique (aggregate_emotion_stats chapter_analyses) = cached_unique chapter_analyses.
Proof.
  unfold aggregate_emotion_stats.
  rewrite aggregate_counts_records, emotion_counts_records, emotion_totals_closed.
  destruct (most_concentrated _) as [mc maxc]. cbn [total_expressions total_unique].
  change (map (fun '(emo, _) => (emo, [])) EMOTION_VOCABULARY)
    with [(happy, @nil (pystr * Z)); (sad, []); (angry, []); (fear, []); (surprise, [])].
  cbn [map snd]. split.
  - rewrite !counter_adds_total. unfold cached_total.
    rewrite <- (sum_by_emotion count). cbn [map]. unfold counter_total. simpl.
    unfold sumZ. simpl. lia.
  - rewrite !counter_adds_length. reflexivity.
Qed.

(** *** Looking a category up *)

Lemma lookup_emotion_app {V} e (l1 l2 : list (emotion * V)) :
  lookup_emotion e (l1 ++ l2)
  = match lookup_emotion e l1 with
    | Some v => Some v
    | None => lookup_emotion e l2
    end.
Proof.
  unfold lookup_emotion. induction l1 as [|p l1 IH]; simpl; [reflexivity|].
  destruct (bool_decide (fst p = e)); [reflexivity | exact IH].
Qed.

Lemma lookup_emotion_absent {V} e (l : list (emotion * V)) :
  Forall (fun q => fst q <> e) l -> lookup_emotion e l = None.
Proof.
  unfold lookup_emotion. induction 1 as [|p l Hp _ IH]; simpl; [reflexivity|].
  rewrite bool_decide_eq_false_2 by exact Hp. exact IH.
Qed.

Lemma lookup_emotion_flat_map {V W} (g : emotion * V -> list (emotion * W)) l e v :
  (forall p q, In q (g p) -> fst q = fst p) ->
  NoDup (map fst l) -> In (e, v) l ->
  lookup_emotion e (flat_map g l) = lookup_emotion e (g (e, v)).
Proof.
  intros Hg. induction l as [|p l IH]; intros Hnd Hin; [destruct Hin|].
  simpl in Hnd. apply NoDup_cons in Hnd as [Hp Hnd]. simpl.
  rewrite lookup_emotion_app. destruct Hin as [->|Hin].
  - destruct (lookup_emotion e (g (e, v))); [reflexivity|].
    apply lookup_emotion_absent, List.Forall_forall. intros q Hq.
    apply in_flat_map in Hq as (p & Hp' & Hq).
    apply Hg in Hq. intros E. apply Hp. simpl.
    apply list_elem_of_In, in_map_iff. exists p. split; [congruence | exact Hp'].
  - rewrite lookup_emotion_absent; [now apply IH|].
    apply List.Forall_forall. intros q Hq E. apply Hg in Hq.
    apply Hp. apply list_elem_of_In, in_map_iff.
    exists (e, v). split; [simpl; congruence | exact Hin].
Qed.

Lemma vocabulary_keys_NoDup : NoDup (map fst EMOTION_VOCABULARY).
Proof. apply (bool_decide_unpack _). vm_compute. exact I. Qed.

Lemma chapter_emotion_stats_acc content (l : list (emotion * EmotionConfig))
  (acc : EmotionStats) :
  fold_left
    (fun emotion_stats '(emo, config) =>
       match category_stat content config with
       | Some stat => emotion_stats ++ [(emo, stat)]
       | None => emotion_stats
       end)
    l acc
  = acc ++ flat_map (fun p => match category_stat content (snd p) with
                              | Some stat => [(fst p, stat)]
                              | None => []
                              end) l.
Proof.
  revert acc. induction l as [|[emo config] l IH]; intros acc; simpl.
  - now rewrite app_nil_r.
  - rewrite IH. destruct (category_stat content config); simpl;
      [now rewrite <- app_assoc | reflexivity].
Qed.

Lemma chapter_emotion_stats_closed content :
  chapter_emotion_stats content
  = flat_map (fun p => match category_stat content (snd p) with
                       | Some stat => [(fst p, stat)]
                       | None => []
                       end) EMOTION_VOCABULARY.
Proof. unfold chapter_emotion_stats. now rewrite chapter_emotion_stats_acc. Qed.

(** ** C10: an expression nested in another one is counted with it *)

Definition ANGER : pystr := py "大怒".
Definition RAGE : pystr := py "勃然大怒".

Lemma anger_in_rage text :
  (1 <= PyStr.count text RAGE)%nat ->
  1 <= occurrences text ANGER /\ 1 <= occurrences text RAGE.
Proof.
  intros H. unfold occurrences. split; [|lia].
  assert (1 <= PyStr.count text ANGER)%nat; [|lia].
  apply count_positive; [discriminate|].
  apply contains_trans with RAGE.
  - apply count_positive; [discriminate | exact H].
  - reflexivity.
Qed.

Lemma angry_config :
  exists config, In (angry, config) EMOTION_VOCABULARY
    /\ In ANGER (expressions config) /\ In RAGE (expressions config)
    /\ NoDup (expressions config).
Proof.
  eexists. split; [right; right; left; reflexivity|]. cbn [expressions].
  split; [|split].
  - apply list_elem_of_In, (bool_decide_unpack _). vm_compute. exact I.
  - apply list_elem_of_In, (bool_decide_unpack _). vm_compute. exact I.
  - apply (bool_decide_unpack _). vm_compute. exact I.
Qed.

Lemma found_member t exprs e :
  In e exprs -> 1 <= occurrences t e -> In e (found_expressions_of t exprs).
Proof.
  intros He Hpos. apply filter_In. split; [exact He|]. apply Z.ltb_lt. lia.
Qed.

Lemma lookup_emotion_singleton {V} e (v : V) : lookup_emotion e [(e, v)] = Some v.
Proof. unfold lookup_emotion. simpl. now rewrite bool_decide_eq_true_2. Qed.

Lemma lookup_emotion_map {V W} (g : V -> W) (l : list (emotion * V)) e v :
  NoDup (map fst l) -> In (e, v) l ->
  lookup_emotion e (map (fun '(emo, x) => (emo, g x)) l) = Some (g v).
Proof.
  intros Hnd Hin.
  assert (E : map (fun '(emo, x) => (emo, g x)) l
              = flat_map (fun p => [(fst p, g (snd p))]) l).
  { clear. induction l as [|[emo x] l IH]; simpl; [reflexivity | now rewrite IH]. }
  rewrite E, (lookup_emotion_flat_map _ l e v); [apply lookup_emotion_singleton | | exact Hnd | exact Hin].
  intros p q [<-|[]]. reflexivity.
Qed.

Lemma counter_total_found t exprs :
  counter_total (map (fun e => (e, occurrences t e)) (found_expressions_of t exprs))
  = sumZ (map (occurrences t) exprs).
Proof.
  unfold counter_total. rewrite List.map_map. simpl.
  fold (sumZ (map (occurrences t) (found_expressions_of t exprs))). apply sumZ_found.
Qed.

(** C10: the occurrences are counted expression by expression, so a text
    in which "勃然大怒" occurs has both it and "大怒" counted, and a total of
    at least 2 for the angry category: in the counters of the whole corpus,
    in the report made from them, and in the statistics of the chapter that
    are cached. *)
Theorem nested_expression_counted_twice (text : pystr) :
  (1 <= PyStr.count text RAGE)%nat ->
  (exists counter,
      lookup_emotion angry (count_emotion_expressions [text]) = Some counter
      /\ In (ANGER, occurrences text ANGER) counter
      /\ In (RAGE, occurrences text RAGE) counter
      /\ 1 <= occurrences text ANGER /\ 1 <= occurrences text RAGE
      /\ 2 <= counter_total counter)
  /\ (exists data,
      lookup_emotion angry (emotions (analyze_emotion_diversity [text])) = Some data
      /\ 2 <= total_count data)
  /\ (exists stat,
      lookup_emotion angry (chapter_emotion_stats text) = Some stat
      /\ In {| expr := ANGER; count := occurrences text ANGER |} (es_expressions stat)
      /\ In {| expr := RAGE; count := occurrences text RAGE |} (es_expressions stat)
      /\ 2 <= es_total stat)
  /\ (forall JIEBA_AVAILABLE pseg_cut cid number title a,
      analyze_single_chapter JIEBA_AVAILABLE pseg_cut cid number text title = Some a ->
      ca_emotion_stats a = chapter_emotion_stats text).
Proof.
  intros Hrage. destruct (anger_in_rage text Hrage) as [Ha Hr].
  destruct angry_config as (config & Hcfg & HinA & HinR & Hnd).
  assert (Hne : ANGER <> RAGE) by discriminate.
  pose proof (sumZ_two_members text _ _ _ HinA HinR Hne) as Hsum.
  assert (Hcounter : lookup_emotion angry (count_emotion_expressions [text])
                     = Some (found_counter text (expressions config))).
  { unfold count_emotion_expressions. cbn [PyStr.join].
    apply (lookup_emotion_map (fun config => found_counter text (expressions config)));
      [apply vocabulary_keys_NoDup | exact Hcfg]. }
  assert (Htotal : 2 <= counter_total (found_counter text (expressions config))).
  { rewrite found_counter_closed by exact Hnd. rewrite counter_total_found. lia. }
  split; [|split; [|split]].
  - exists (found_counter text (expressions config)). split; [exact Hcounter|].
    rewrite found_counter_closed by exact Hnd.
    repeat split; try assumption.
    + apply in_map_iff. exists ANGER. split; [reflexivity | now apply found_member].
    + apply in_map_iff. exists RAGE. split; [reflexivity | now apply found_member].
    + rewrite counter_total_found. lia.
  - unfold analyze_emotion_diversity. rewrite emotion_totals_closed.
    destruct (most_concentrated _) as [mc maxc]. cbn [emotions].
    rewrite (lookup_emotion_flat_map _ _ angry (found_counter text (expressions config))).
    + destruct (found_counter text (expressions config)) as [|kv counter] eqn:E.
      * unfold counter_total in Htotal. simpl in Htotal. lia.
      * rewrite lookup_emotion_singleton. eexists. split; [reflexivity|]. exact Htotal.
    + intros [emo [|kv counter]] q; simpl; [tauto|]. intros [<-|[]]. reflexivity.
    + unfold count_emotion_expressions. rewrite List.map_map.
      erewrite List.map_ext; [apply vocabulary_keys_NoDup|]. now intros [emo cfg].
    + unfold count_emotion_expressions. cbn [PyStr.join].
      apply in_map_iff. exists (angry, config). split; [reflexivity | exact Hcfg].
  - rewrite chapter_emotion_stats_closed.
    rewrite (lookup_emotion_flat_map _ _ angry config);
      [| intros p q; simpl; destruct (category_stat text (snd p)); simpl; [intros [<-|[]]; reflexivity | tauto]
       | apply vocabulary_keys_NoDup | exact Hcfg].
    cbn [fst snd]. unfold category_stat. rewrite found_in_chapter_closed, sumZ_found.
    assert (Hpos : (0 <? sumZ (map (occurrences text) (expressions config))) = true)
      by (apply Z.ltb_lt; lia).
    rewrite Hpos, lookup_emotion_singleton. eexists. split; [reflexivity|].
    cbn [es_expressions es_total]. split; [|split; [|lia]].
    + apply in_map_iff. exists ANGER. split; [reflexivity | now apply found_member].
    + apply in_map_iff. exists RAGE. split; [reflexivity | now apply found_member].
  - intros J cut cid number title a Hrun. unfold analyze_single_chapter in Hrun.
    destruct text as [|c text']; [simpl in Hrage; lia|].
    destruct (extract_templates_batch J cut _); [|discriminate].
    simpl in Hrun. injection Hrun as <-. reflexivity.
Qed.

Lemma nested_expression_counted_twice_witness :
  PyStr.count (py "他勃然大怒。") RAGE = 1%nat
  /\ exists stat,
      lookup_emotion angry (chapter_emotion_stats (py "他勃然大怒。")) = Some stat
      /\ In {| expr := ANGER; count := occurrences (py "他勃然大怒。") ANGER |} (es_expressions stat)
      /\ In {| expr := RAGE; count := occurrences (py "他勃然大怒。") RAGE |} (es_expressions stat)
      /\ 2 <= es_total stat.
Proof.
  split; [vm_compute; reflexivity|].
  refine (proj1 (proj2 (proj2 (nested_expression_counted_twice (py "他勃然大怒。") _)))).
  vm_compute. lia.
Defined.

(** ** C1: the emotion diversity score *)

(** [int(unique / total * 200)]: the quotient and the product are
    floating-point operations and the result is cut toward zero. *)
Definition truncated_ratio_score (unique total : Z) : Z :=
  PyNum.int (PrimFloat.mul (PyNum.truediv unique total) 200).

(** The score the code computes from the two totals. *)
Definition emotion_score_formula (unique total : Z) : Z :=
  if total =? 0 then 50
  else if total <? 10 then 60
  else Z.min 100 (truncated_ratio_score unique total + Z.min 30 (3 * unique)).

(** The score as the design document words it: the ratio term is rounded
    and capped at 70. *)
Definition spec_emotion_score (unique total : Z) : Z :=
  if total =? 0 then 50
  else if total <? 10 then 60
  else Z.min 100 (Z.min 70 (PyNum.round_div (200 * unique) total) + Z.min 30 (3 * unique)).

(** The same with the ratio term truncated as the code truncates it. The
    comments of the code give that term the range 0 to 70. *)
Definition truncated_emotion_score (unique total : Z) : Z :=
  if total =? 0 then 50
  else if total <? 10 then 60
  else Z.min 100 (Z.min 70 (truncated_ratio_score unique total) + Z.min 30 (3 * unique)).

(** Where the cap has nothing to cut. *)
Definition within_cap (unique total : Z) : Prop :=
  total < 10 \/ truncated_ratio_score unique total <= 70.

Lemma truncated_emotion_score_within_cap unique total :
  within_cap unique total ->
  emotion_score_formula unique total = truncated_emotion_score unique total.
Proof.
  unfold within_cap, emotion_score_formula, truncated_emotion_score.
  intros [H|H].
  - destruct (total =? 0); [reflexivity|].
    destruct (total <? 10) eqn:E; [reflexivity | apply Z.ltb_ge in E; lia].
  - now rewrite (Z.min_r 70) by exact H.
Qed.

Lemma analyze_emotion_diversity_score chapters_content :
  diversity_score (analyze_emotion_diversity chapters_content)
  = emotion_score_formula
      (total_unique (analyze_emotion_diversity chapters_content))
      (total_expressions (analyze_emotion_diversity chapters_content)).
Proof.
  unfold analyze_emotion_diversity.
  destruct (emotion_totals _) as [[result te] tu].
  destruct (most_concentrated _) as [mc maxc].
  cbn [diversity_score total_unique total_expressions].
  unfold emotion_score_formula, truncated_ratio_score. now rewrite (Z.mul_comm tu 3).
Qed.

Lemma aggregate_emotion_stats_score chapter_analyses :
  diversity_score (aggregate_emotion_stats chapter_analyses)
  = emotion_score_formula
      (total_unique (aggregate_emotion_stats chapter_analyses))
      (total_expressions (aggregate_emotion_stats chapter_analyses)).
Proof.
  unfold aggregate_emotion_stats.
  destruct (emotion_totals _) as [[result te] tu].
  destruct (most_concentrated _) as [mc maxc].
  cbn [diversity_score total_unique total_expressions].
  unfold emotion_score_formula, truncated_ratio_score. now rewrite (Z.mul_comm tu 3).
Qed.

(** C1, with the ratio term truncated: [total] is the sum of all
    occurrence counts and [unique] the number of distinct expressions
    found; the score is 50 for no occurrence, 60 for fewer than 10, and
    otherwise, as long as the ratio term [int(unique / total * 200)] does
    not exceed 70,
    [min(100, min(70, int(unique / total * 200)) + min(30, 3 * unique))].
    The same holds for the score aggregated from the chapters' cached
    statistics. *)
Theorem emotion_diversity_score_formula :
  (forall chapters_content,
      total_expressions (analyze_emotion_diversity chapters_content)
      = corpus_total chapters_content
      /\ total_unique (analyze_emotion_diversity chapters_content)
         = corpus_unique chapters_content
      /\ (within_cap (corpus_unique chapters_content) (corpus_total chapters_content) ->
          diversity_score (analyze_emotion_diversity chapters_content)
          = truncated_emotion_score (corpus_unique chapters_content)
              (corpus_total chapters_content)))
  /\ (forall chapter_analyses,
      total_expressions (aggregate_emotion_stats chapter_analyses)
      = cached_total chapter_analyses
      /\ total_unique (aggregate_emotion_stats chapter_analyses)
         = cached_unique chapter_analyses
      /\ (within_cap (cached_unique chapter_analyses) (cached_total chapter_analyses) ->
          diversity_score (aggregate_emotion_stats chapter_analyses)
          = truncated_emotion_score (cached_unique chapter_analyses)
              (cached_total chapter_analyses))).
Proof.
  split.
  - intros cc. destruct (analyze_emotion_diversity_totals cc) as [Ht Hu].
    rewrite analyze_emotion_diversity_score, Ht, Hu.
    repeat split. apply truncated_emotion_score_within_cap.
  - intros cas. destruct (aggregate_emotion_stats_totals cas) as [Ht Hu].
    rewrite aggregate_emotion_stats_score, Ht, Hu.
    repeat split. apply truncated_emotion_score_within_cap.
Qed.

(** Three expressions of the fear category, eleven occurrences in all; and
    five of them, each twice. *)
Definition skewed_corpus : list pystr :=
  [py "害怕害怕害怕害怕害怕害怕害怕害怕害怕"; py "恐惧"; py "惊恐"].

Definition even_corpus : list pystr :=
  [py "害怕害怕恐惧恐惧惊恐惊恐惊慌惊慌慌张慌张"].

Lemma emotion_diversity_score_formula_witness :
  within_cap (corpus_unique skewed_corpus) (corpus_total skewed_corpus)
  /\ diversity_score (analyze_emotion_diversity skewed_corpus)
     = truncated_emotion_score (corpus_unique skewed_corpus) (corpus_total skewed_corpus).
Proof.
  assert (H : within_cap (corpus_unique skewed_corpus) (corpus_total skewed_corpus))
    by (right; vm_compute; discriminate).
  split; [exact H|].
  exact (proj2 (proj2 (proj1 emotion_diversity_score_formula skewed_corpus)) H).
Defined.

(** C1 as the design document states it fails: with 3 expressions in 11
    occurrences the ratio term is 54.5..., the code scores 63 and the
    rounded formula gives 64. *)
Lemma emotion_score_spec_counterexample :
  ~ (diversity_score (analyze_emotion_diversity skewed_corpus)
     = spec_emotion_score (corpus_unique skewed_corpus) (corpus_total skewed_corpus)).
Proof. vm_compute. intros H; discriminate H. Qed.

(** The ratio term is not capped at 70, whatever the comments say: with 5
    expressions in 10 occurrences it is 100, and so is the score, where
    the capped term gives 85. *)
Lemma emotion_score_cap_missing :
  truncated_ratio_score (corpus_unique even_corpus) (corpus_total even_corpus) = 100
  /\ diversity_score (analyze_emotion_diversity even_corpus) = 100
  /\ truncated_emotion_score (corpus_unique even_corpus) (corpus_total even_corpus) = 85.
Proof. repeat split; vm_compute; reflexivity. Qed.

(** ** C2: the narrative diversity score *)

(** The score as the design document words it. *)
Definition spec_ngram_score (unique total : Z) : Z :=
  if 0 <? total then Z.min 100 (PyNum.round_div (200 * unique) total) else 100.

(** The number of bigrams of a template list and the number of distinct
    patterns among them. *)
Definition bigram_total (templates : list Template) : Z :=
  Z.of_nat (length (extract_ngrams templates 2)).

Definition bigram_unique (templates : list Template) : Z :=
  Z.of_nat (length (remove_dups (map pattern (extract_ngrams templates 2)))).

(** C2, as the code has it: with [total] the number of bigrams and
    [unique] the number of distinct bigram patterns, the score is
    [min(100, int(unique / total * 200))] (truncated, not rounded) when
    there is a bigram, and 100 when there is none. *)
Theorem ngram_diversity_score_formula (templates : list Template) :
  total_bigrams (analyze_ngram_patterns templates) = bigram_total templates
  /\ unique_bigrams (analyze_ngram_patterns templates) = bigram_unique templates
  /\ ngram_diversity_score (analyze_ngram_patterns templates)
     = (if 0 <? bigram_total templates
        then Z.min 100 (truncated_ratio_score (bigram_unique templates) (bigram_total templates))
        else 100).
Proof.
  unfold analyze_ngram_patterns, bigram_total, bigram_unique.
  cbn [total_bigrams unique_bigrams ngram_diversity_score].
  rewrite counter_of_length. repeat split.
Qed.

(** Four narrative sentences of one chapter: three bigrams, one pattern. *)
Definition plain_templates : list Template :=
  map (fun i =>
         {| text := py "天色渐渐暗了下来"; template := py "[名词]了[名词]";
            chapter_id := py "c1"; chapter_number := 1; chapter_title := py "一";
            position := i; is_opening := (i <? 3)%nat; is_ending := (1 <=? i)%nat |})
    [0; 1; 2; 3]%nat.

(** C2 as the design document states it fails: one pattern among three
    bigrams scores 66, not the rounded 67. *)
Lemma ngram_score_spec_counterexample :
  ~ (ngram_diversity_score (analyze_ngram_patterns plain_templates)
     = spec_ngram_score (bigram_unique plain_templates) (bigram_total plain_templates)).
Proof. vm_compute. intros H; discriminate H. Qed.

(** ** Sorting and grouping *)

Lemma insert_sorted_perm {A} (before : A -> A -> bool) x l :
  insert_sorted before x l ≡ₚ x :: l.
Proof.
  induction l as [|y l IH]; simpl; [reflexivity|].
  destruct (before y x); [|reflexivity].
  rewrite IH. apply Permutation_swap.
Qed.

Lemma stable_sort_perm {A} (before : A -> A -> bool) l :
  stable_sort before l ≡ₚ l.
Proof.
  unfold stable_sort. induction l as [|x l IH]; simpl; [reflexivity|].
  now rewrite insert_sorted_perm, IH.
Qed.

Lemma stable_sort_length {A} (before : A -> A -> bool) l :
  length (stable_sort before l) = length l.
Proof. apply Permutation_length, stable_sort_perm. Qed.

Lemma stable_sort_In {A} (before : A -> A -> bool) l x :
  In x (stable_sort before l) <-> In x l.
Proof. rewrite <- !list_elem_of_In. now rewrite stable_sort_perm. Qed.

(** An order by decreasing key. *)
Definition decreasing {A} (key : A -> Z) (l : list A) : Prop :=
  StronglySorted (fun a b => key b <= key a) l.

Lemma insert_sorted_decreasing {A} (key : A -> Z) x l :
  decreasing key l -> decreasing key (insert_sorted (fun y x => key x <? key y) x l).
Proof.
  unfold decreasing. induction 1 as [|y l Hsorted IH Hy]; simpl.
  - repeat constructor.
  - destruct (key x <? key y) eqn:E.
    + apply Z.ltb_lt in E. constructor; [exact IH|].
      apply List.Forall_forall. intros z Hz.
      apply list_elem_of_In in Hz. rewrite insert_sorted_perm in Hz.
      apply elem_of_cons in Hz as [->|Hz]; [lia|].
      rewrite List.Forall_forall in Hy. apply Hy. now apply list_elem_of_In.
    + apply Z.ltb_ge in E. constructor; [now constructor|].
      constructor; [exact E|].
      eapply List.Forall_impl; [|exact Hy]. simpl. intros z Hz. lia.
Qed.

Lemma sort_by_key_reverse_decreasing {A} (key : A -> Z) l :
  decreasing key (sort_by_key_reverse key l).
Proof.
  unfold sort_by_key_reverse, stable_sort. induction l as [|x l IH]; simpl.
  - constructor.
  - now apply insert_sorted_decreasing.
Qed.

(** In a list in decreasing order an element is at least as large as
    every later one. *)
Lemma decreasing_lookup {A} (key : A -> Z) (l : list A) i j a b :
  decreasing key l -> (i <= j)%nat -> l !! i = Some a -> l !! j = Some b ->
  key b <= key a.
Proof.
  unfold decreasing. intros Hs. revert i j.
  induction Hs as [|x l Hs IH Hx]; intros i j Hij Hi Hj; [discriminate|].
  destruct i as [|i], j as [|j]; simpl in *; try lia.
  - injection Hi as <-. injection Hj as <-. lia.
  - injection Hi as <-. rewrite List.Forall_forall in Hx. apply Hx.
    apply list_elem_of_In. eapply list_elem_of_lookup_2. exact Hj.
  - apply (IH i j); [lia | assumption | assumption].
Qed.

Section GroupByFacts.
Context {A K : Type} `{EqDecision K}.

(** The elements filed under a key. *)
Fixpoint lookup_group (k : K) (groups : list (K * list A)) : list A :=
  match groups with
  | [] => []
  | (k', xs) :: groups' => if decide (k = k') then xs else lookup_group k groups'
  end.

Lemma group_add_keys (groups : list (K * list A)) k x :
  map fst (group_add groups k x)
  = if decide (k ∈ map fst groups) then map fst groups else map fst groups ++ [k].
Proof.
  induction groups as [|[k' xs] groups IH]; simpl; [reflexivity|].
  destruct (decide (k = k')) as [->|Hne]; simpl.
  - destruct (decide (k' ∈ k' :: map fst groups)) as [_|Hn];
      [reflexivity | exfalso; apply Hn; left].
  - rewrite IH.
    destruct (decide (k ∈ map fst groups)) as [Hin|Hnin],
             (decide (k ∈ k' :: map fst groups)) as [Hin'|Hnin']; try reflexivity.
    + exfalso. apply Hnin'. now right.
    + exfalso. apply elem_of_cons in Hin' as [E|Hin']; [congruence | contradiction].
Qed.

Lemma group_add_keys_NoDup (groups : list (K * list A)) k x :
  NoDup (map fst groups) -> NoDup (map fst (group_add groups k x)).
Proof.
  intros Hnd. rewrite group_add_keys. case_decide as Hnin; [exact Hnd|].
  apply NoDup_app. split; [exact Hnd|]. split.
  - intros y Hy Hk. apply list_elem_of_singleton in Hk as ->. contradiction.
  - apply NoDup_singleton.
Qed.

Lemma group_add_lookup (groups : list (K * list A)) k0 x k :
  lookup_group k (group_add groups k0 x)
  = lookup_group k groups ++ (if decide (k = k0) then [x] else []).
Proof.
  induction groups as [|[k' xs] groups IH]; simpl.
  - destruct (decide (k = k0)); reflexivity.
  - destruct (decide (k0 = k')) as [->|Hne]; simpl.
    + destruct (decide (k = k')); [reflexivity | now rewrite app_nil_r].
    + destruct (decide (k = k')) as [->|Hne'].
      * destruct (decide (k' = k0)); [congruence | now rewrite app_nil_r].
      * exact IH.
Qed.

Lemma group_by_acc (key : A -> K) l groups :
  NoDup (map fst groups) ->
  let result := fold_left (fun groups x => group_add groups (key x) x) l groups in
  NoDup (map fst result)
  /\ forall k, lookup_group k result
               = lookup_group k groups ++ List.filter (fun x => bool_decide (key x = k)) l.
Proof.
  revert groups. induction l as [|x l IH]; intros groups Hnd; simpl.
  - split; [exact Hnd|]. intros k. now rewrite app_nil_r.
  - destruct (IH (group_add groups (key x) x)) as [H1 H2];
      [now apply group_add_keys_NoDup|].
    split; [exact H1|]. intros k. rewrite H2, group_add_lookup, <- app_assoc. f_equal.
    destruct (decide (k = key x)) as [->|Hne].
    + now rewrite bool_decide_eq_true_2.
    + rewrite bool_decide_eq_false_2 by congruence. reflexivity.
Qed.

(** A grouping has one group per key, and the group of a key holds the
    elements with that key in their order. *)
Lemma group_by_NoDup (key : A -> K) l : NoDup (map fst (group_by key l)).
Proof. apply (group_by_acc key l []). constructor. Qed.

Lemma group_by_lookup (key : A -> K) l k :
  lookup_group k (group_by key l) = List.filter (fun x => bool_decide (key x = k)) l.
Proof. apply (group_by_acc key l []). constructor. Qed.

Lemma lookup_group_In (groups : list (K * list A)) k xs :
  NoDup (map fst groups) -> In (k, xs) groups -> lookup_group k groups = xs.
Proof.
  induction groups as [|[k' ys] groups IH]; intros Hnd Hin; [destruct Hin|].
  simpl in Hnd. apply NoDup_cons in Hnd as [Hk Hnd]. simpl.
  destruct Hin as [[= -> ->]|Hin].
  - now rewrite decide_True.
  - rewrite decide_False; [now apply IH|]. intros ->. apply Hk.
    apply list_elem_of_In, in_map_iff. now exists (k', xs).
Qed.

Lemma lookup_group_absent (groups : list (K * list A)) k :
  k ∉ map fst groups -> lookup_group k groups = [].
Proof.
  induction groups as [|[k' ys] groups IH]; intros Hk; simpl; [reflexivity|].
  simpl in Hk. apply not_elem_of_cons in Hk as [Hne Hk].
  rewrite decide_False by exact Hne. now apply IH.
Qed.

End GroupByFacts.

(** ** C3: n-grams stay within their chapter *)

(** The number of templates of a chapter, and the n-grams tied to it. *)
Definition chapter_size (templates : list Template) (cid : pystr) : nat :=
  length (List.filter (fun t => bool_decide (chapter_id t = cid)) templates).

Definition ngrams_of_chapter (ngrams : list NGram) (cid : pystr) : list NGram :=
  List.filter (fun ng => bool_decide (ng_chapter_id ng = cid)) ngrams.

Lemma chapter_ngrams_length n cid cts :
  (1 <= n)%nat -> length (chapter_ngrams n cid cts) = (length cts + 1 - n)%nat.
Proof.
  intros Hn. unfold chapter_ngrams. destruct (length cts <? n)%nat eqn:E.
  - apply Nat.ltb_lt in E. simpl. lia.
  - now rewrite !length_map, length_seq.
Qed.

Lemma slice_length {A} (l : list A) i n :
  (i + n <= length l)%nat -> length (slice l i n) = n.
Proof. intros H. unfold slice. rewrite length_take, length_drop. lia. Qed.

Lemma slice_In {A} (l : list A) i n x : In x (slice l i n) -> In x l.
Proof.
  unfold slice. rewrite <- !list_elem_of_In. intros H.
  now apply subseteq_take, subseteq_drop in H.
Qed.

Lemma chapter_ngrams_members n cid cts ng members :
  In (ng, members) (chapter_ngrams n cid cts) ->
  ng_chapter_id ng = cid /\ sentences ng = map text members
  /\ length members = n /\ forall m, In m members -> In m cts.
Proof.
  unfold chapter_ngrams. destruct (length cts <? n)%nat eqn:E; [intros []|].
  apply Nat.ltb_ge in E. intros H. apply in_map_iff in H as (i & [= <- <-] & Hi).
  apply in_seq in Hi. rewrite length_map in Hi. cbn [ng_chapter_id sentences].
  repeat split.
  - apply slice_length. lia.
  - intros m. apply slice_In.
Qed.

Lemma ngrams_of_chapter_app l1 l2 cid :
  ngrams_of_chapter (l1 ++ l2) cid = ngrams_of_chapter l1 cid ++ ngrams_of_chapter l2 cid.
Proof. apply List.filter_app. Qed.

Lemma ngrams_of_own_chapter n cid cts cid' :
  ngrams_of_chapter (map fst (chapter_ngrams n cid cts)) cid'
  = if decide (cid = cid') then map fst (chapter_ngrams n cid cts) else [].
Proof.
  unfold ngrams_of_chapter.
  assert (H : forall ng, In ng (map fst (chapter_ngrams n cid cts)) -> ng_chapter_id ng = cid).
  { intros ng Hng. apply in_map_iff in Hng as ([ng' ms] & <- & Hin).
    now apply chapter_ngrams_members in Hin as [? _]. }
  induction (map fst (chapter_ngrams n cid cts)) as [|ng l IH]; simpl.
  - now destruct (decide (cid = cid')).
  - rewrite IH by (intros; apply H; now right).
    rewrite (H ng) by now left.
    destruct (decide (cid = cid')) as [->|Hne].
    + now rewrite bool_decide_eq_true_2.
    + now rewrite bool_decide_eq_false_2.
Qed.

Lemma grouped_ngrams_count n (groups : list (pystr * list Template)) cid :
  (1 <= n)%nat -> NoDup (map fst groups) ->
  length (ngrams_of_chapter
            (map fst (flat_map (fun '(c, cts) => chapter_ngrams n c cts) groups)) cid)
  = (length (lookup_group cid groups) + 1 - n)%nat.
Proof.
  intros Hn. induction groups as [|[c cts] groups IH]; intros Hnd; simpl; [lia|].
  simpl in Hnd. apply NoDup_cons in Hnd as [Hc Hnd].
  rewrite List.map_app, ngrams_of_chapter_app, length_app, ngrams_of_own_chapter.
  destruct (decide (c = cid)) as [->|Hne].
  - rewrite decide_True by reflexivity. rewrite IH by exact Hnd.
    rewrite (lookup_group_absent groups cid Hc), length_map, chapter_ngrams_length by exact Hn.
    simpl. lia.
  - rewrite decide_False by congruence. now rewrite IH.
Qed.

Lemma chapters_by_position_keys templates :
  map fst (chapters_by_position templates) = map fst (group_by chapter_id templates).
Proof.
  unfold chapters_by_position. rewrite List.map_map. apply List.map_ext. now intros [c cts].
Qed.

Lemma chapters_by_position_lookup templates cid :
  lookup_group cid (chapters_by_position templates)
  = sort_by_key (fun x => Z.of_nat (position x))
      (List.filter (fun t => bool_decide (chapter_id t = cid)) templates).
Proof.
  unfold chapters_by_position. rewrite <- group_by_lookup.
  induction (group_by chapter_id templates) as [|[c cts] groups IH]; simpl; [reflexivity|].
  destruct (decide (cid = c)); [reflexivity | exact IH].
Qed.

(** The count for every size of n-gram. *)
Lemma extract_ngrams_count templates n cid :
  (1 <= n)%nat ->
  length (ngrams_of_chapter (extract_ngrams templates n) cid)
  = (chapter_size templates cid + 1 - n)%nat.
Proof.
  intros Hn. unfold extract_ngrams, extract_ngrams_with_members, chapter_size.
  destruct (length templates <? n)%nat eqn:E.
  - apply Nat.ltb_lt in E. simpl.
    pose proof (List.filter_length_le (fun t => bool_decide (chapter_id t = cid)) templates).
    lia.
  - rewrite grouped_ngrams_count; [| exact Hn |].
    + rewrite chapters_by_position_lookup. unfold sort_by_key.
      now rewrite stable_sort_length.
    + rewrite chapters_by_position_keys. apply group_by_NoDup.
Qed.

Lemma extract_ngrams_members templates n ng members :
  In (ng, members) (extract_ngrams_with_members templates n) ->
  sentences ng = map text members /\ length members = n
  /\ forall m, In m members -> In m templates /\ chapter_id m = ng_chapter_id ng.
Proof.
  unfold extract_ngrams_with_members.
  destruct (length templates <? n)%nat; [intros []|].
  intros H. apply in_flat_map in H as ([c cts] & Hg & H).
  apply chapter_ngrams_members in H as (Hid & Hs & Hlen & Hm).
  split; [exact Hs|]. split; [exact Hlen|]. intros m Hin. apply Hm in Hin.
  assert (Hl : lookup_group c (chapters_by_position templates) = cts).
  { apply lookup_group_In; [|exact Hg].
    rewrite chapters_by_position_keys. apply group_by_NoDup. }
  rewrite chapters_by_position_lookup in Hl. subst cts.
  unfold sort_by_key in Hin. apply stable_sort_In, filter_In in Hin as [Hin Hc].
  apply bool_decide_eq_true_1 in Hc. split; [exact Hin | congruence].
Qed.

(** C3: a chapter with k templates yields max(0, k-1) bigrams and
    max(0, k-2) trigrams, and the sentences of every bigram and trigram are
    those of 2, respectively 3, templates of the list that all belong to
    the chapter the n-gram is tied to. *)
Theorem ngrams_per_chapter (templates : list Template) :
  (forall cid,
      Z.of_nat (length (ngrams_of_chapter (extract_ngrams templates 2) cid))
      = Z.max 0 (Z.of_nat (chapter_size templates cid) - 1)
      /\ Z.of_nat (length (ngrams_of_chapter (extract_ngrams templates 3) cid))
         = Z.max 0 (Z.of_nat (chapter_size templates cid) - 2))
  /\ (forall ng, In ng (extract_ngrams templates 2) ->
       exists members, In (ng, members) (extract_ngrams_with_members templates 2)
         /\ sentences ng = map text members /\ length members = 2%nat
         /\ forall m, In m members -> In m templates /\ chapter_id m = ng_chapter_id ng)
  /\ (forall ng, In ng (extract_ngrams templates 3) ->
       exists members, In (ng, members) (extract_ngrams_with_members templates 3)
         /\ sentences ng = map text members /\ length members = 3%nat
         /\ forall m, In m members -> In m templates /\ chapter_id m = ng_chapter_id ng).
Proof.
  split; [|split].
  - intros cid. rewrite !extract_ngrams_count by lia. lia.
  - intros ng Hng. apply in_map_iff in Hng as ([ng' members] & <- & Hin).
    exists members. split; [exact Hin|]. now apply extract_ngrams_members.
  - intros ng Hng. apply in_map_iff in Hng as ([ng' members] & <- & Hin).
    exists members. split; [exact Hin|]. now apply extract_ngrams_members.
Qed.

(** ** C4: adjacent placeholders in a template *)

(** An item of a template that stands for a class of words. *)
Definition is_placeholder (item : pystr) : bool := PyStr.startswith item (py "[").

(** No item of the list is a placeholder equal to the item after it. *)
Fixpoint no_repeated_placeholder (items : list pystr) : Prop :=
  match items with
  | a :: (b :: _) as rest =>
      ~ (is_placeholder a = true /\ a = b) /\ no_repeated_placeholder rest
  | _ => True
  end.

Lemma merge_placeholders_no_repeat prev result :
  no_repeated_placeholder (merge_placeholders prev result)
  /\ match merge_placeholders prev result with
     | first :: _ => ~ (is_placeholder first = true /\ Some first = prev)
     | [] => True
     end.
Proof.
  revert prev. induction result as [|item rest IH]; intros prev;
    cbn [merge_placeholders]; [split; exact I|].
  fold (is_placeholder item).
  destruct (is_placeholder item && bool_decide (Some item = prev)) eqn:E.
  - apply IH.
  - destruct (IH (Some item)) as [H1 H2]. split.
    + cbn [no_repeated_placeholder].
      destruct (merge_placeholders (Some item) rest) as [|b l] eqn:El; [exact I|].
      split; [|exact H1]. intros [Hp ->]. apply H2. split; [exact Hp | reflexivity].
    + intros [Hp Hprev].
      rewrite Hp, bool_decide_eq_true_2 in E by exact Hprev. discriminate.
Qed.

(** The tagger-backed strategy keeps no placeholder twice in a row,
    whatever the tagger returns. *)
Lemma jieba_items_no_repeat pseg_cut sentence items :
  jieba_items pseg_cut sentence = Some items -> no_repeated_placeholder items.
Proof.
  unfold jieba_items. destruct (pseg_cut sentence) as [words|]; [|discriminate].
  simpl. intros [= <-]. apply merge_placeholders_no_repeat.
Qed.

(** C4 fails for the fallback strategy, which merges the noun placeholder
    only: two pronouns in a row ("他她") give the pronoun placeholder
    twice in a row, as items and in the template. *)
Theorem fallback_repeats_pronoun_placeholder :
  simple_scan (py "他她") false [] = [PRONOUN; PRONOUN]
  /\ ~ no_repeated_placeholder (simple_scan (py "他她") false [])
  /\ _extract_template_simple_impl (py "他她") = py "[代词][代词]"
  /\ forall pseg_cut,
       extract_template_cached false pseg_cut (py "他她") = Some (py "[代词][代词]").
Proof.
  split; [vm_compute; reflexivity|]. split; [|split].
  - assert (E : simple_scan (py "他她") false [] = [PRONOUN; PRONOUN])
      by (vm_compute; reflexivity).
    rewrite E. cbn [no_repeated_placeholder]. intros [H _]. apply H.
    split; reflexivity.
  - vm_compute. reflexivity.
  - intros cut. vm_compute. reflexivity.
Qed.

(** ** The union-find of the clusterer *)

(** The parent links form a forest over the indices below [n]: every link
    stays below [n] and leads to a cell of larger height [h], and no
    height exceeds [k]. *)
Definition forest (n : nat) (h : nat -> nat) (k : nat) (m : list nat) : Prop :=
  length m = n
  /\ (forall x p, m !! x = Some p -> p < n /\ (p <> x -> h x < h p))%nat
  /\ (forall x, x < n -> h x <= k)%nat.

Lemma forest_weaken n h k k' m : (k <= k')%nat -> forest n h k m -> forest n h k' m.
Proof.
  intros Hk (Hlen & Hlink & Hh). split; [exact Hlen|]. split; [exact Hlink|].
  intros x Hx. specialize (Hh x Hx). lia.
Qed.

(** With more fuel than the heights leave room for, [find] returns a root
    and keeps the forest. *)
Lemma find_forest n h k fuel m x :
  forest n h k m -> (x < n)%nat -> (k - h x < fuel)%nat ->
  exists m' r, find fuel m x = Some (m', r)
    /\ forest n h k m' /\ (r < n)%nat /\ m' !! r = Some r /\ (h x <= h r)%nat
    /\ forall z, m !! z = Some z -> m' !! z = Some z.
Proof.
  revert m x. induction fuel as [|fuel IH]; intros m x Hf Hx Hfuel; [lia|].
  destruct Hf as (Hlen & Hlink & Hh).
  destruct (lookup_lt_is_Some_2 m x) as [p Hp]; [lia|].
  cbn [find]. rewrite Hp. cbn [mbind option_bind].
  destruct (p =? x)%nat eqn:E.
  - apply Nat.eqb_eq in E. subst p. exists m, x.
    split; [reflexivity|]. split; [exact (conj Hlen (conj Hlink Hh))|].
    split; [exact Hx|]. split; [exact Hp|]. split; [lia | auto].
  - apply Nat.eqb_neq in E. destruct (Hlink x p Hp) as [Hpn Hhp]. specialize (Hhp E).
    pose proof (Hh p Hpn) as Hpk.
    destruct (IH m p) as (m' & r & Hfind & (Hlen' & Hlink' & Hh') & Hr & Hroot & Hhr & Hkeep);
      [exact (conj Hlen (conj Hlink Hh)) | exact Hpn | lia |].
    rewrite Hfind. cbn [mbind option_bind]. exists (<[x := r]> m'), r.
    split; [reflexivity|]. split; [|split; [exact Hr|split; [|split; [lia|]]]].
    + split; [now rewrite length_insert|]. split; [|exact Hh'].
      intros z q Hq. destruct (decide (x = z)) as [->|Hne].
      * rewrite list_lookup_insert_eq in Hq by lia. injection Hq as <-.
        split; [exact Hr | lia].
      * rewrite list_lookup_insert_ne in Hq by exact Hne. now apply Hlink'.
    + destruct (decide (x = r)) as [->|Hne].
      * apply list_lookup_insert_eq. lia.
      * now rewrite list_lookup_insert_ne.
    + intros z Hz. rewrite list_lookup_insert_ne; [now apply Hkeep|].
      intros ->. rewrite Hp in Hz. congruence.
Qed.

(** A union keeps the forest; the heights grow by one at most. *)
Lemma union_forest n h k fuel m x y :
  forest n h k m -> (x < n)%nat -> (y < n)%nat -> (k < fuel)%nat ->
  exists h' m', union fuel m x y = Some m' /\ forest n h' (S k) m'.
Proof.
  intros Hf Hx Hy Hfuel. unfold union.
  destruct (find_forest n h k fuel m x Hf Hx) as (m1 & rx & -> & Hf1 & Hrx & Hroot1 & _ & _);
    [lia|].
  cbn [mbind option_bind].
  destruct (find_forest n h k fuel m1 y Hf1 Hy) as (m2 & ry & -> & Hf2 & Hry & Hroot2 & _ & Hkeep);
    [lia|].
  cbn [mbind option_bind]. apply Hkeep in Hroot1.
  destruct (rx =? ry)%nat eqn:E.
  - exists h, m2. split; [reflexivity|]. apply forest_weaken with k; [lia | exact Hf2].
  - apply Nat.eqb_neq in E. destruct Hf2 as (Hlen & Hlink & Hh).
    exists (fun z => if decide (z = ry) then Nat.max (h ry) (S (h rx)) else h z),
           (<[rx := ry]> m2).
    split; [reflexivity|]. split; [now rewrite length_insert|]. split.
    + intros z q Hq. destruct (decide (rx = z)) as [<-|Hne].
      * rewrite list_lookup_insert_eq in Hq by lia. injection Hq as <-.
        split; [exact Hry|]. intros _.
        rewrite decide_False by exact E. rewrite decide_True by reflexivity. lia.
      * rewrite list_lookup_insert_ne in Hq by exact Hne.
        destruct (Hlink z q Hq) as [Hqn Hhq]. split; [exact Hqn|]. intros Hqz.
        specialize (Hhq Hqz).
        destruct (decide (z = ry)) as [->|Hz]; [rewrite Hroot2 in Hq; congruence|].
        destruct (decide (q = ry)) as [->|?]; lia.
    + intros z Hz. pose proof (Hh z Hz). pose proof (Hh ry Hry). pose proof (Hh rx Hrx).
      destruct (decide (z = ry)) as [->|?]; lia.
Qed.

(** A loop whose body keeps an invariant indexed by the number of
    iterations made runs to its end. *)
Lemma for_each_invariant {S X} (Inv : nat -> S -> Prop) (l : list X)
  (body : S -> X -> option S) (s : S) :
  Inv 0%nat s ->
  (forall t s x, l !! t = Some x -> Inv t s -> exists s', body s x = Some s' /\ Inv (Datatypes.S t) s') ->
  exists s', for_each l body s = Some s' /\ Inv (length l) s'.
Proof.
  revert Inv s. induction l as [|x l IH]; intros Inv s H0 Hstep; simpl.
  - now exists s.
  - destruct (Hstep 0%nat s x eq_refl H0) as (s1 & -> & H1). cbn [mbind option_bind].
    apply (IH (fun t => Inv (Datatypes.S t))); [exact H1|].
    intros t s' y Hy. now apply (Hstep (Datatypes.S t)).
Qed.

Lemma forest_initial n : forest n (fun _ => 0%nat) 0 (seq 0 n).
Proof.
  split; [apply length_seq|]. split; [|intros; lia].
  intros x p Hp. apply lookup_seq in Hp as [-> Hx]. simpl. split; [exact Hx | congruence].
Qed.

(** All items of the clusters, cluster after cluster. *)
Definition all_items (clusters : list Cluster) : list Template :=
  concat (map items clusters).

Lemma merged_add_items merged_clusters root cluster :
  all_items (map snd (merged_add merged_clusters root cluster))
  ≡ₚ all_items (map snd merged_clusters) ++ items cluster.
Proof.
  unfold all_items. induction merged_clusters as [|[k c] rest IH]; simpl.
  - now rewrite app_nil_r.
  - destruct (root =? k)%nat; simpl.
    + rewrite <- !app_assoc. apply Permutation_app_head, Permutation_app_comm.
    + rewrite IH. now rewrite app_assoc.
Qed.

(** The merge of the exact clusters runs to its end, and it moves whole
    clusters: the merged clusters hold the items of the clusters given. *)
Lemma merge_similar_clusters_items clusters threshold :
  exists merged, _merge_similar_clusters clusters threshold = Some merged
    /\ all_items merged ≡ₚ all_items clusters.
Proof.
  unfold _merge_similar_clusters. set (n := length clusters).
  destruct (n <=? 1)%nat eqn:En; [now exists clusters|].
  apply Nat.leb_gt in En. unfold find_fuel.
  match goal with
  | |- context [for_each (seq 0 n) ?body (seq 0 n)] =>
      destruct (for_each_invariant
                  (fun i m => exists h k, forest n h k m /\ (k <= i * (n - 1))%nat)
                  (seq 0 n) body (seq 0 n)) as (m & -> & (h & k & Hf & Hk))
  end.
  { exists (fun _ => 0%nat), 0%nat. split; [apply forest_initial | lia]. }
  { intros i m0 x Hx (h & k & Hf & Hk). apply lookup_seq in Hx as [-> Hi]. simpl.
    match goal with
    | |- context [for_each ?l ?body m0] =>
        destruct (for_each_invariant
                    (fun t m => exists h k, forest n h k m /\ (k <= i * (n - 1) + t)%nat)
                    l body m0) as (m1 & -> & (h1 & k1 & Hf1 & Hk1))
    end.
    - exists h, k. split; [exact Hf | lia].
    - intros t m1 j Hj (h1 & k1 & Hf1 & Hk1). apply lookup_seq in Hj as [-> Ht].
      destruct (lookup_lt_is_Some_2 clusters i) as [ci ->]; [fold n; lia|].
      destruct (lookup_lt_is_Some_2 clusters (i + 1 + t)) as [cj ->]; [fold n; lia|].
      cbn [mbind option_bind].
      destruct (similar_pair threshold (representative ci) (representative cj)).
      + destruct (union_forest n h1 k1 (n * n) m1 i (i + 1 + t) Hf1) as (h2 & m2 & -> & Hf2);
          [lia | lia | nia |].
        exists m2. split; [reflexivity|]. exists h2, (S k1). split; [exact Hf2 | lia].
      + exists m1. split; [reflexivity|]. exists h1, k1. split; [exact Hf1 | lia].
    - exists m1. split; [reflexivity|]. exists h1, k1. split; [exact Hf1|].
      rewrite length_seq in Hk1. nia. }
  rewrite length_seq in Hk. cbn [mbind option_bind].
  match goal with
  | |- context [for_each ?l ?body (m, [])] =>
      destruct (for_each_invariant
                  (fun t (st : list nat * list (nat * Cluster)) =>
                     (exists h k, forest n h k (fst st) /\ (k < n * n)%nat)
                     /\ all_items (map snd (snd st)) ≡ₚ all_items (take t clusters))
                  l body (m, [])) as ([m' mc] & -> & (_ & Hperm))
  end.
  { split; [|reflexivity]. exists h, k. split; [exact Hf | nia]. }
  { intros t [m0 mc] [i c] Hic [(h0 & k0 & Hf0 & Hk0) Hperm].
    rewrite list_lookup_imap in Hic.
    destruct (clusters !! t) as [c'|] eqn:Hc; [|discriminate]. injection Hic as <- <-.
    pose proof (lookup_lt_Some _ _ _ Hc) as Ht. fold n in Ht.
    destruct (find_forest n h0 k0 (n * n) m0 t Hf0 Ht) as (m1 & r & -> & Hf1 & _);
      [lia|].
    cbn [mbind option_bind]. eexists. split; [reflexivity|]. cbn [fst snd]. split.
    - exists h0, k0. split; [exact Hf1 | exact Hk0].
    - rewrite merged_add_items, Hperm, (take_S_r _ _ _ Hc).
      unfold all_items. now rewrite List.map_app, concat_app; simpl; rewrite app_nil_r. }
  cbn [mbind option_bind]. exists (map snd mc). split; [reflexivity|].
  cbn [snd] in Hperm. rewrite length_imap, firstn_all in Hperm. exact Hperm.
Qed.

(** ** C5: the clusters form a partition *)

Lemma concat_sublist {A} (l1 l2 : list (list A)) :
  l1 `sublist_of` l2 -> concat l1 `sublist_of` concat l2.
Proof.
  induction 1 as [|x l1 l2 _ IH|x l1 l2 _ IH]; simpl.
  - constructor.
  - now apply sublist_app.
  - now apply sublist_inserts_l.
Qed.

Lemma concat_perm {A} (l1 l2 : list (list A)) :
  l1 ≡ₚ l2 -> concat l1 ≡ₚ concat l2.
Proof.
  induction 1 as [|x l1 l2 _ IH|x y l|l1 l2 l3 _ IH1 _ IH2]; simpl.
  - reflexivity.
  - now rewrite IH.
  - rewrite !app_assoc. apply Permutation_app_tail, Permutation_app_comm.
  - now rewrite IH1.
Qed.

Lemma map_sublist {A B} (f : A -> B) (l1 l2 : list A) :
  l1 `sublist_of` l2 -> map f l1 `sublist_of` map f l2.
Proof. induction 1; simpl; now constructor. Qed.

Lemma group_add_concat {A K} `{EqDecision K} (groups : list (K * list A)) k x :
  concat (map snd (group_add groups k x)) ≡ₚ concat (map snd groups) ++ [x].
Proof.
  induction groups as [|[k' xs] groups IH]; simpl; [reflexivity|].
  destruct (decide (k = k')); simpl.
  - rewrite <- !app_assoc. apply Permutation_app_head, Permutation_app_comm.
  - rewrite IH. now rewrite app_assoc.
Qed.

(** The groups of a grouping hold the elements grouped. *)
Lemma group_by_concat {A K} `{EqDecision K} (key : A -> K) (l : list A) :
  concat (map snd (group_by key l)) ≡ₚ l.
Proof.
  unfold group_by.
  assert (H : forall groups,
    concat (map snd (fold_left (fun groups x => group_add groups (key x) x) l groups))
    ≡ₚ concat (map snd groups) ++ l).
  { induction l as [|x l IH]; intros groups; simpl; [now rewrite app_nil_r|].
    rewrite IH, group_add_concat, <- app_assoc. reflexivity. }
  apply (H []).
Qed.

(** In a list of lists without a repeated element, lists at different
    places share no element. *)
Lemma NoDup_concat_disjoint {A} (r : list (list A)) i j ci cj x :
  NoDup (concat r) -> r !! i = Some ci -> r !! j = Some cj -> i <> j ->
  In x ci -> ~ In x cj.
Proof.
  assert (Hin : forall (r : list (list A)) j cj, r !! j = Some cj -> In x cj -> x ∈ concat r).
  { intros r' j' c Hc Hx. apply list_elem_of_In, in_concat. exists c.
    split; [|exact Hx]. apply list_elem_of_In. eapply list_elem_of_lookup_2. exact Hc. }
  revert i j. induction r as [|c r IH]; intros i j Hnd Hi Hj Hij Hxi Hxj; [discriminate|].
  simpl in Hnd. apply NoDup_app in Hnd as (_ & Hdis & Hnd).
  destruct i as [|i], j as [|j]; simpl in *; try congruence.
  - injection Hi as <-. apply (Hdis x); [now apply list_elem_of_In | now apply (Hin r j cj)].
  - injection Hj as <-. apply (Hdis x); [now apply list_elem_of_In | now apply (Hin r i ci)].
  - apply (IH i j); auto.
Qed.

(** What the theorem says of the clusters returned. *)
Record partition_of (templates : list Template) (result : list (list Template)) : Prop := {
  at_least_two : forall cluster, In cluster result -> (2 <= length cluster)%nat;
  no_shared_item : forall i j ci cj x,
    result !! i = Some ci -> result !! j = Some cj -> i <> j -> In x ci -> ~ In x cj;
  by_decreasing_size : forall i j ci cj,
    (i <= j)%nat -> result !! i = Some ci -> result !! j = Some cj ->
    (length cj <= length ci)%nat;
  from_the_input : forall cluster x, In cluster result -> In x cluster -> In x templates
}.

Lemma sorted_clusters_partition templates (result : list (list Template)) :
  Forall (fun c => 2 <= length c)%nat result ->
  NoDup (concat result) ->
  (forall x, x ∈ concat result -> x ∈ templates) ->
  partition_of templates (sort_by_key_reverse (fun x => Z.of_nat (length x)) result).
Proof.
  intros Htwo Hnd Hsub.
  pose proof (stable_sort_perm (fun y x : list Template => Z.of_nat (length x) <? Z.of_nat (length y)) result) as Hperm.
  fold (sort_by_key_reverse (fun x : list Template => Z.of_nat (length x)) result) in Hperm.
  split.
  - intros c Hc. apply list_elem_of_In in Hc. rewrite Hperm in Hc.
    rewrite Forall_forall in Htwo. now apply Htwo.
  - intros i j ci cj x. apply NoDup_concat_disjoint.
    now rewrite (concat_perm _ _ Hperm).
  - intros i j ci cj Hij Hi Hj.
    pose proof (decreasing_lookup _ _ i j ci cj
                  (sort_by_key_reverse_decreasing (fun x : list Template => Z.of_nat (length x)) result)
                  Hij Hi Hj) as Hle. cbv beta in Hle. lia.
  - intros c x Hc Hx. apply list_elem_of_In, Hsub.
    rewrite <- (concat_perm _ _ Hperm). apply list_elem_of_In, in_concat. now exists c.
Qed.

Lemma exact_clusters_facts (valid : list Template) :
  NoDup valid ->
  let cluster_list :=
    map (fun '(tpl, its) => {| representative := tpl; items := its |})
      (filter (fun '(_, its) => (2 <=? length its)%nat) (group_by template valid)) in
  NoDup (all_items cluster_list)
  /\ (forall x, x ∈ all_items cluster_list -> x ∈ valid)
  /\ Forall (fun c => 2 <= length (items c))%nat cluster_list.
Proof.
  intros Hnd cluster_list.
  set (kept := filter (fun '(_, its) => (2 <=? length its)%nat) (group_by template valid)) in *.
  assert (Hitems : map items cluster_list = map snd kept).
  { unfold cluster_list. rewrite List.map_map. apply List.map_ext. now intros [tpl its]. }
  assert (Hsub : all_items cluster_list `sublist_of` concat (map snd (group_by template valid))).
  { unfold all_items. rewrite Hitems. apply concat_sublist, map_sublist, sublist_filter. }
  split; [|split].
  - eapply sublist_NoDup; [|exact Hsub]. now rewrite group_by_concat.
  - intros x Hx. rewrite <- (group_by_concat template valid).
    eapply sublist_subseteq; [exact Hsub | exact Hx].
  - apply Forall_forall. intros c Hc. unfold cluster_list in Hc.
    apply list_elem_of_In, in_map_iff in Hc as ([tpl its] & <- & Hin).
    apply list_elem_of_In, list_elem_of_filter in Hin as [Hlen _]. simpl.
    apply Is_true_true, Nat.leb_le in Hlen. exact Hlen.
Qed.

Lemma cluster_result_partition templates (cluster_list : list Cluster) threshold :
  NoDup (all_items cluster_list) ->
  (forall x, x ∈ all_items cluster_list -> x ∈ templates) ->
  Forall (fun c => 2 <= length (items c))%nat cluster_list ->
  exists result,
    (if (length cluster_list <=? 50)%nat then
       merged ← _merge_similar_clusters cluster_list threshold;
       let result := map items (filter (fun c => (2 <=? length (items c))%nat) merged) in
       Some (sort_by_key_reverse (fun x => Z.of_nat (length x)) result)
     else
       let result := map items cluster_list in
       Some (sort_by_key_reverse (fun x => Z.of_nat (length x)) result)) = Some result
    /\ partition_of templates result.
Proof.
  intros Hnd Hsub Htwo. destruct (length cluster_list <=? 50)%nat.
  - destruct (merge_similar_clusters_items cluster_list threshold) as (merged & -> & Hperm).
    cbn [mbind option_bind]. eexists. split; [reflexivity|].
    assert (Hs : concat (map items (filter (fun c => (2 <=? length (items c))%nat) merged))
                 `sublist_of` all_items merged)
      by apply concat_sublist, map_sublist, sublist_filter.
    apply sorted_clusters_partition.
    + apply Forall_forall. intros c Hc.
      apply list_elem_of_In, in_map_iff in Hc as (cl & <- & Hin).
      apply list_elem_of_In, list_elem_of_filter in Hin as [Hlen _].
      apply Is_true_true, Nat.leb_le in Hlen. exact Hlen.
    + eapply sublist_NoDup; [|exact Hs]. now rewrite Hperm.
    + intros x Hx. apply Hsub. rewrite <- Hperm.
      eapply sublist_subseteq; [exact Hs | exact Hx].
  - eexists. split; [reflexivity|]. apply sorted_clusters_partition.
    + apply Forall_forall. intros c Hc.
      apply list_elem_of_In, in_map_iff in Hc as (cl & <- & Hin).
      rewrite Forall_forall in Htwo. now apply Htwo, list_elem_of_In.
    + exact Hnd.
    + exact Hsub.
Qed.

(** C5: on a list of distinct items, the clustering returns a list of
    clusters (with and without the merge of similar clusters) in which
    every cluster has at least 2 members, no item is in two clusters, the
    clusters come by decreasing size and every member is an item given. *)
Theorem clusters_form_a_partition (templates : list Template) (threshold : float) :
  NoDup templates ->
  exists result,
    cluster_templates_similar templates threshold = Some result
    /\ partition_of templates result.
Proof.
  intros Hnd. unfold cluster_templates_similar.
  assert (Hempty : partition_of templates []).
  { split.
    - intros c [].
    - intros i j ci cj x Hi. rewrite lookup_nil in Hi. discriminate.
    - intros i j ci cj _ Hi. rewrite lookup_nil in Hi. discriminate.
    - intros c x []. }
  destruct templates as [|t0 templates']; [now exists []|].
  set (templates := t0 :: templates') in *.
  pose proof (NoDup_filter (fun t => (5 <? length (template t))%nat) templates Hnd) as Hvalid.
  assert (Hvsub : forall x, x ∈ filter (fun t => (5 <? length (template t))%nat) templates
                            -> x ∈ templates).
  { intros x Hx. now apply list_elem_of_filter in Hx as [_ ?]. }
  destruct (filter (fun t => (5 <? length (template t))%nat) templates) as [|v valid'];
    [now exists []|].
  destruct (exact_clusters_facts (v :: valid') Hvalid) as (H1 & H2 & H3).
  apply cluster_result_partition; [exact H1 | | exact H3].
  intros x Hx. apply Hvsub, H2, Hx.
Qed.

Definition partition_example : list Template :=
  [ {| text := py "他走进了房间"; template := py "[代词]走[名词]了[名词]";
       chapter_id := py "c1"; chapter_number := 1; chapter_title := py "一";
       position := 0; is_opening := true; is_ending := false |};
    {| text := py "她走出了院子"; template := py "[代词]走[名词]了[名词]";
       chapter_id := py "c2"; chapter_number := 2; chapter_title := py "二";
       position := 0; is_opening := true; is_ending := false |};
    {| text := py "他笑了"; template := py "[代词]笑了";
       chapter_id := py "c2"; chapter_number := 2; chapter_title := py "二";
       position := 1; is_opening := true; is_ending := false |} ].

Lemma clusters_form_a_partition_witness :
  NoDup partition_example
  /\ exists result,
       cluster_templates_similar partition_example 0.7 = Some result
       /\ partition_of partition_example result.
Proof.
  assert (H : NoDup partition_example)
    by (apply (bool_decide_unpack _); vm_compute; exact I).
  split; [exact H|].
  exact (clusters_form_a_partition partition_example 0.7 H).
Defined.

(** ** The incremental cache manager *)

Section CacheManager.

Variable JIEBA_AVAILABLE : bool.
Variable pseg_cut : pystr -> option (list (pystr * pystr)).
Variable compute_content_hash : pystr -> pystr.

Abbreviation analyze := (analyze_single_chapter JIEBA_AVAILABLE pseg_cut).
Abbreviation step := (incremental_step JIEBA_AVAILABLE pseg_cut compute_content_hash).
Abbreviation run := (analyze_project_patterns_incremental JIEBA_AVAILABLE pseg_cut compute_content_hash).





(** What one iteration of the loop does, by the three cases of a chapter:
    no text, a trusted row, anything else. *)
Lemma step_empty force_refresh st chapter :
  is_empty (content chapter) = true -> step force_refresh st chapter = Some st.
Proof.
  unfold incremental_step. destruct (content chapter) as [[|c0 text]|]; try discriminate; reflexivity.
Qed.

Lemma step_trusted st chapter text c :
  content chapter = Some text -> text <> [] ->
  valid_cache (ls_caches st !! id chapter) (compute_content_hash text) = Some c ->
  step false st chapter
  = Some {| ls_caches := ls_caches st;
            ls_analyses := ls_analyses st ++ [cached_analysis chapter c];
            ls_cached_count := S (ls_cached_count st);
            ls_refreshed_count := ls_refreshed_count st |}.
Proof.
  intros Hc Hne Hv. unfold incremental_step. rewrite Hc.
  destruct text as [|c0 text]; [congruence|]. now rewrite Hv.
Qed.

Lemma step_stale (force_refresh : bool) st chapter text :
  content chapter = Some text -> text <> [] ->
  (if force_refresh then @None ChapterPatternCache
   else valid_cache (ls_caches st !! id chapter) (compute_content_hash text)) = None ->
  step force_refresh st chapter
  = (a ← analyze (id chapter) (chapter_number_of chapter) text (title chapter);
     Some {| ls_caches :=
               <[id chapter :=
                   updated_cache (ls_caches st !! id chapter) chapter
                     (compute_content_hash text) a]> (ls_caches st);
             ls_analyses := ls_analyses st ++ [a];
             ls_cached_count := ls_cached_count st;
             ls_refreshed_count := S (ls_refreshed_count st) |}).
Proof.
  intros Hc Hne Hv. unfold incremental_step. rewrite Hc.
  destruct text as [|c0 text]; [congruence|]. rewrite Hv.
  unfold get_or_create_chapter_cache. rewrite Hc. cbn [default].
  destruct (analyze_single_chapter _ _ _ _ _ _); reflexivity.
Qed.

(** A chapter with text that the run has to analyse: the refresh is
    forced or its row is not trusted. *)
Definition needs_analysis (force_refresh : bool)
  (caches : gmap pystr ChapterPatternCache) (chapter : Chapter) : bool :=
  match content chapter with
  | Some ((_ :: _) as text) =>
      match (if force_refresh then None
             else valid_cache (caches !! id chapter) (compute_content_hash text)) with
      | Some _ => false
      | None => true
      end
  | _ => false
  end.

(** A chapter with text whose row the run reads instead. *)
Definition reused (force_refresh : bool)
  (caches : gmap pystr ChapterPatternCache) (chapter : Chapter) : bool :=
  negb (is_empty (content chapter)) && negb (needs_analysis force_refresh caches chapter).

Lemma needs_analysis_ext force_refresh caches1 caches2 chapter :
  caches1 !! id chapter = caches2 !! id chapter ->
  needs_analysis force_refresh caches1 chapter = needs_analysis force_refresh caches2 chapter.
Proof. intros H. unfold needs_analysis. now rewrite H. Qed.

Lemma reused_ext force_refresh caches1 caches2 chapter :
  caches1 !! id chapter = caches2 !! id chapter ->
  reused force_refresh caches1 chapter = reused force_refresh caches2 chapter.
Proof. intros H. unfold reused. now rewrite (needs_analysis_ext _ _ _ _ H). Qed.

(** One iteration, by what it does to the state. *)
Lemma step_spec force_refresh st chapter st' :
  step force_refresh st chapter = Some st' ->
  (forall cid, cid <> id chapter -> ls_caches st' !! cid = ls_caches st !! cid)
  /\ (needs_analysis force_refresh (ls_caches st) chapter = false ->
      ls_caches st' = ls_caches st)
  /\ (forall text, content chapter = Some text ->
      needs_analysis force_refresh (ls_caches st) chapter = true ->
      exists a, analyze (id chapter) (chapter_number_of chapter) text (title chapter) = Some a
        /\ ls_caches st' !! id chapter
           = Some (updated_cache (ls_caches st !! id chapter) chapter
                     (compute_content_hash text) a))
  /\ ls_cached_count st'
     = (ls_cached_count st + if reused force_refresh (ls_caches st) chapter then 1 else 0)%nat
  /\ ls_refreshed_count st'
     = (ls_refreshed_count st
        + if needs_analysis force_refresh (ls_caches st) chapter then 1 else 0)%nat
  /\ length (ls_analyses st')
     = (length (ls_analyses st) + if is_empty (content chapter) then 0 else 1)%nat.
Proof.
  intros Hstep. unfold reused, needs_analysis.
  destruct (content chapter) as [[|c0 text]|] eqn:Hc.
  - rewrite step_empty in Hstep by now rewrite Hc. injection Hstep as <-.
    simpl. repeat split; try lia; try discriminate; auto.
  - set (full := c0 :: text) in *.
    destruct (if force_refresh then None
              else valid_cache (ls_caches st !! id chapter) (compute_content_hash full))
      as [c|] eqn:Hv.
    + destruct force_refresh; [discriminate|].
      rewrite (step_trusted st chapter full c Hc) in Hstep by (try exact Hv; discriminate).
      injection Hstep as <-. simpl. rewrite length_app. simpl.
      repeat split; try lia; try discriminate; auto.
    + rewrite (step_stale force_refresh st chapter full Hc) in Hstep
        by (try exact Hv; discriminate).
      destruct (analyze_single_chapter _ _ _ _ _ _) as [a|] eqn:Ha; [|discriminate].
      cbn [mbind option_bind] in Hstep. injection Hstep as <-. simpl.
      rewrite length_app. simpl.
      split; [intros cid Hcid; now rewrite lookup_insert_ne|].
      split; [discriminate|]. split; [|repeat split; lia].
      intros text' [= <-] _. exists a. split; [exact Ha | apply lookup_insert_eq].
  - rewrite step_empty in Hstep by now rewrite Hc. injection Hstep as <-.
    simpl. repeat split; try lia; try discriminate; auto.
Qed.

(** The loop leaves alone the rows of the chapters it does not visit. *)
Lemma loop_untouched force_refresh chapters st st' cid :
  for_each chapters (step force_refresh) st = Some st' ->
  cid ∉ map id chapters ->
  ls_caches st' !! cid = ls_caches st !! cid.
Proof.
  revert st. induction chapters as [|chapter chapters IH]; intros st Hloop Hcid; simpl in *.
  - now injection Hloop as <-.
  - destruct (step force_refresh st chapter) as [st1|] eqn:Hstep; [|discriminate].
    cbn [mbind option_bind] in Hloop. apply not_elem_of_cons in Hcid as [Hne Hcid].
    rewrite (IH st1 Hloop Hcid).
    now apply (step_spec _ _ _ _ Hstep).
Qed.

(** The loop, chapter by chapter, in terms of the rows it starts from. *)
Lemma loop_spec force_refresh chapters st st' :
  NoDup (map id chapters) ->
  for_each chapters (step force_refresh) st = Some st' ->
  (forall chapter, In chapter chapters ->
      needs_analysis force_refresh (ls_caches st) chapter = false ->
      ls_caches st' !! id chapter = ls_caches st !! id chapter)
  /\ (forall chapter text, In chapter chapters -> content chapter = Some text ->
      needs_analysis force_refresh (ls_caches st) chapter = true ->
      exists a, analyze (id chapter) (chapter_number_of chapter) text (title chapter) = Some a
        /\ ls_caches st' !! id chapter
           = Some (updated_cache (ls_caches st !! id chapter) chapter
                     (compute_content_hash text) a))
  /\ ls_cached_count st'
     = (ls_cached_count st
        + length (List.filter (reused force_refresh (ls_caches st)) chapters))%nat
  /\ ls_refreshed_count st'
     = (ls_refreshed_count st
        + length (List.filter (needs_analysis force_refresh (ls_caches st)) chapters))%nat
  /\ length (ls_analyses st')
     = (length (ls_analyses st)
        + length (List.filter (fun c => negb (is_empty (content c))) chapters))%nat.
Proof.
  revert st. induction chapters as [|chapter chapters IH]; intros st Hnd Hloop; simpl in *.
  - injection Hloop as <-. repeat split; try lia; intros ? [].
  - apply NoDup_cons in Hnd as [Hid Hnd].
    destruct (step force_refresh st chapter) as [st1|] eqn:Hstep; [|discriminate].
    cbn [mbind option_bind] in Hloop.
    destruct (step_spec _ _ _ _ Hstep) as (Hframe & Hsame & Hfresh & Hc1 & Hr1 & Ha1).
    destruct (IH st1 Hnd Hloop) as (Hsame' & Hfresh' & Hc' & Hr' & Ha').
    pose proof (loop_untouched _ _ _ _ _ Hloop Hid) as Hkeep.
    assert (Hother : forall ch, In ch chapters ->
              ls_caches st1 !! id ch = ls_caches st !! id ch).
    { intros ch Hch. apply Hframe. intros E. apply Hid. rewrite <- E.
      apply list_elem_of_In, in_map. exact Hch. }
    assert (Hfilter : forall f : gmap pystr ChapterPatternCache -> Chapter -> bool,
              (forall ch, In ch chapters -> f (ls_caches st1) ch = f (ls_caches st) ch) ->
              List.filter (f (ls_caches st1)) chapters = List.filter (f (ls_caches st)) chapters).
    { intros f Hf. apply filter_ext_in. exact Hf. }
    split; [|split; [|split; [|split]]].
    + intros ch [<-|Hch] Hn.
      * rewrite Hkeep. now rewrite Hsame.
      * rewrite Hsame', Hother; auto.
        now rewrite (needs_analysis_ext _ _ _ _ (Hother ch Hch)).
    + intros ch text [<-|Hch] Hc Hn.
      * rewrite Hkeep. now apply Hfresh.
      * rewrite <- (Hother ch Hch). apply Hfresh'; auto.
        now rewrite (needs_analysis_ext _ _ _ _ (Hother ch Hch)).
    + rewrite Hc', Hc1, (Hfilter (reused force_refresh))
        by (intros; apply reused_ext; auto).
      destruct (reused force_refresh (ls_caches st) chapter); simpl; lia.
    + rewrite Hr', Hr1, (Hfilter (needs_analysis force_refresh))
        by (intros; apply needs_analysis_ext; auto).
      destruct (needs_analysis force_refresh (ls_caches st) chapter); simpl; lia.
    + rewrite Ha', Ha1. destruct (is_empty (content chapter)); simpl; lia.
Qed.

(** *** A second run on unchanged chapters *)



(** The chapters with text. *)
Definition with_text (chapters : list Chapter) : list Chapter :=
  List.filter (fun c => negb (is_empty (content c))) chapters.




Lemma select_chapters_NoDup db pid :
  NoDup (map id (chapters_table db)) -> NoDup (map id (select_chapters db pid)).
Proof.
  intros Hnd. unfold select_chapters, sort_by_key.
  rewrite (Permutation_map id (stable_sort_perm _ _)).
  eapply sublist_NoDup; [exact Hnd|]. apply map_sublist, sublist_filter.
Qed.



(** *** Which rows a run rewrites *)


Lemma needs_analysis_empty force_refresh caches chapter :
  is_empty (content chapter) = true -> needs_analysis force_refresh caches chapter = false.
Proof.
  unfold needs_analysis. destruct (content chapter) as [[|c0 text]|]; try discriminate; reflexivity.
Qed.


(** The loop of a run that returned a result. *)
Lemma run_success_loop db pid min_chapters force_refresh db' result stats :
  run db pid min_chapters force_refresh = Some (db', success result stats) ->
  exists st,
    for_each (select_chapters db pid) (step force_refresh)
      {| ls_caches := chapter_pattern_cache db; ls_analyses := [];
         ls_cached_count := 0; ls_refreshed_count := 0 |} = Some st
    /\ chapter_pattern_cache db' = ls_caches st
    /\ chapters_analyzed result = length (select_chapters db pid)
    /\ stats = Some {| cached_chapters := ls_cached_count st;
                       refreshed_chapters := ls_refreshed_count st |}
    /\ (min_chapters <= length (select_chapters db pid))%nat.
Proof.
  unfold analyze_project_patterns_incremental.
  destruct (length (select_chapters db pid) <? min_chapters)%nat eqn:Emin; [discriminate|].
  apply Nat.ltb_ge in Emin.
  destruct (for_each _ _ _) as [st|]; [|discriminate]. cbn [mbind option_bind].
  destruct (ls_analyses st) as [|a l]; [discriminate|].
  unfold build_result. destruct (cluster_templates _) as [clusters|]; [|discriminate].
  cbn [mbind option_bind]. intros [= <- <- <-]. exists st. repeat split. exact Emin.
Qed.


(** *** A chapter whose analysis fails *)

Lemma reused_or_analysed force_refresh caches chapters :
  (0 + length (List.filter (reused force_refresh caches) chapters)
   + (0 + length (List.filter (needs_analysis force_refresh caches) chapters))
   = length (with_text chapters))%nat.
Proof.
  unfold with_text, reused. induction chapters as [|ch l IH]; simpl; [reflexivity|].
  pose proof (needs_analysis_empty force_refresh caches ch) as He.
  destruct (is_empty (content ch)); simpl.
  - rewrite He by reflexivity. exact IH.
  - destruct (needs_analysis force_refresh caches ch); simpl in *; lia.
Qed.

(** The score of a run that returned a result is computed with the number
    of all chapters of the project. *)
Lemma calculate_pattern_score_top patterns oa ed chapter_count ng :
  calculate_pattern_score (firstn 10 patterns) oa ed chapter_count ng
  = calculate_pattern_score patterns oa ed chapter_count ng.
Proof.
  unfold calculate_pattern_score. rewrite firstn_firstn.
  change (Nat.min 10 10) with 10%nat. reflexivity.
Qed.

Lemma run_success_score db pid min_chapters force_refresh db' result stats :
  run db pid min_chapters force_refresh = Some (db', success result stats) ->
  score result
  = calculate_pattern_score (top_patterns result) (opening_analysis result)
      (emotion_diversity result) (Z.of_nat (length (select_chapters db pid)))
      (Some (ngram_analysis result))
  /\ level result = get_pattern_level (score result).
Proof.
  unfold analyze_project_patterns_incremental.
  destruct (length (select_chapters db pid) <? min_chapters)%nat; [discriminate|].
  destruct (for_each _ _ _) as [st|]; [|discriminate]. cbn [mbind option_bind].
  destruct (ls_analyses st) as [|a l]; [discriminate|].
  unfold build_result. destruct (cluster_templates _) as [clusters|]; [|discriminate].
  cbn [mbind option_bind]. intros [= <- <- <-].
  cbn [score level top_patterns opening_analysis emotion_diversity ngram_analysis].
  rewrite calculate_pattern_score_top. split; reflexivity.
Qed.

(** C7, as the code has it: nothing catches the failure of a chapter. When
    the analysis of a chapter that has to be analysed raises, the run
    raises; it returns no result and commits nothing. A run that returns a
    result has analysed or read from the cache every chapter with text,
    and it reports the number of all chapters of the project, those
    without text included, as the chapters analysed; its score is
    [calculate_pattern_score] of its patterns and reports with that same
    number of all chapters as the chapter count, and its level is the
    level of that score. *)
Theorem failed_chapter_aborts_run db pid min_chapters force_refresh :
  NoDup (map id (chapters_table db)) ->
  (forall chapter text,
      In chapter (select_chapters db pid) -> content chapter = Some text ->
      needs_analysis force_refresh (chapter_pattern_cache db) chapter = true ->
      analyze (id chapter) (chapter_number_of chapter) text (title chapter) = None ->
      (min_chapters <= length (select_chapters db pid))%nat ->
      run db pid min_chapters force_refresh = None)
  /\ (forall db' result stats,
      run db pid min_chapters force_refresh = Some (db', success result stats) ->
      chapters_analyzed result = length (select_chapters db pid)
      /\ score result
         = calculate_pattern_score (top_patterns result) (opening_analysis result)
             (emotion_diversity result) (Z.of_nat (length (select_chapters db pid)))
             (Some (ngram_analysis result))
      /\ level result = get_pattern_level (score result)
      /\ exists s, stats = Some s
           /\ (cached_chapters s + refreshed_chapters s
               = length (with_text (select_chapters db pid)))%nat
           /\ forall chapter text,
                In chapter (select_chapters db pid) -> content chapter = Some text ->
                needs_analysis force_refresh (chapter_pattern_cache db) chapter = true ->
                exists a, analyze (id chapter) (chapter_number_of chapter) text
                            (title chapter) = Some a).
Proof.
  intros Hnd. pose proof (select_chapters_NoDup db pid Hnd) as Hsel. split.
  - intros ch text Hin Hct Hneed Hfail Hmin.
    destruct (run db pid min_chapters force_refresh) as [[db' o]|] eqn:Hrun; [|reflexivity].
    exfalso. unfold analyze_project_patterns_incremental in Hrun.
    destruct (length (select_chapters db pid) <? min_chapters)%nat eqn:Emin;
      [apply Nat.ltb_lt in Emin; lia|].
    destruct (for_each _ _ _) as [st|] eqn:Hloop; [|discriminate].
    destruct (loop_spec _ _ _ _ Hsel Hloop) as (_ & Hfresh & _).
    destruct (Hfresh ch text Hin Hct Hneed) as (a & Ha & _). congruence.
  - intros db' result stats Hrun.
    destruct (run_success_score _ _ _ _ _ _ _ Hrun) as [Hscore Hlevel].
    destruct (run_success_loop _ _ _ _ _ _ _ Hrun) as (st & Hloop & _ & Hn & -> & _).
    split; [exact Hn|]. split; [exact Hscore|]. split; [exact Hlevel|].
    eexists. split; [reflexivity|].
    destruct (loop_spec _ _ _ _ Hsel Hloop) as (_ & Hfresh & Hc & Hr & _).
    cbn [cached_chapters refreshed_chapters ls_cached_count ls_refreshed_count ls_caches] in *.
    split.
    + rewrite Hc, Hr. apply reused_or_analysed.
    + intros ch text Hin Hct Hneed.
      destruct (Hfresh ch text Hin Hct Hneed) as (a & Ha & _). now exists a.
Qed.

End CacheManager.

(** *** The cache manager on a small project *)

(** A stand-in for the digest: the text itself. *)
Definition example_hash (text : pystr) : pystr := text.

(** No tagger at all, and a tagger that raises on one sentence. *)
Definition absent_tagger (sentence : pystr) : option (list (pystr * pystr)) := None.

Definition failing_tagger (sentence : pystr) : option (list (pystr * pystr)) :=
  if PyStr.eqb sentence (py "她打开了门") then None else Some [(sentence, py "x")].

Definition example_chapter (cid : string) (number : Z) (text : string) : Chapter :=
  {| id := py cid; project_id := py "p"; chapter_number_of := number;
     title := py cid; content := Some (py text) |}.

Definition example_db : DB :=
  {| chapters_table :=
       [example_chapter "c1" 1 "他走进了房间。"; example_chapter "c2" 2 "她打开了门。"];
     chapter_pattern_cache := ∅;
     project_pattern_analysis := ∅ |}.

Lemma example_db_ids : NoDup (map id (chapters_table example_db)).
Proof. apply (bool_decide_unpack _). vm_compute. exact I. Qed.


(** A second project, of one chapter, beside the first, which has three. *)
Definition other_chapter : Chapter :=
  {| id := py "d1"; project_id := py "q"; chapter_number_of := 1;
     title := py "d1"; content := Some (py "雨下了整整一夜。") |}.

Definition two_projects_db : DB :=
  {| chapters_table :=
       [example_chapter "c1" 1 "他走进了房间。"; example_chapter "c2" 2 "她打开了门。";
        example_chapter "c3" 3 "他们坐了下来。"; other_chapter];
     chapter_pattern_cache := ∅;
     project_pattern_analysis := ∅ |}.

(** The two projects after a run of each. *)
Definition two_projects_after_runs : DB :=
  match analyze_project_patterns_incremental false absent_tagger example_hash
          two_projects_db (py "q") 1 false with
  | Some (db1, _) =>
      match analyze_project_patterns_incremental false absent_tagger example_hash
              db1 (py "p") 2 false with
      | Some (db2, _) => db2
      | None => db1
      end
  | None => two_projects_db
  end.

(** Then the second chapter of the first project is rewritten and the text
    of its third chapter is deleted: of the four rows of the table, that of
    the first chapter is trusted, those of the second and the third are
    not, and the fourth is of the other project. *)
Definition edited_db : DB :=
  {| chapters_table :=
       [example_chapter "c1" 1 "他走进了房间。"; example_chapter "c2" 2 "她关上了窗户。";
        example_chapter "c3" 3 ""; other_chapter];
     chapter_pattern_cache := chapter_pattern_cache two_projects_after_runs;
     project_pattern_analysis := project_pattern_analysis two_projects_after_runs |}.

Lemma edited_db_ids : NoDup (map id (chapters_table edited_db)).
Proof. apply (bool_decide_unpack _). vm_compute. exact I. Qed.


Lemma failed_chapter_aborts_run_witness :
  analyze_project_patterns_incremental true failing_tagger example_hash
    example_db (py "p") 2 false = None
  /\ exists db' result s,
       analyze_project_patterns_incremental false absent_tagger example_hash
         edited_db (py "p") 2 false = Some (db', success result (Some s))
       /\ length (select_chapters edited_db (py "p")) = 3%nat
       /\ length (with_text (select_chapters edited_db (py "p"))) = 2%nat
       /\ chapters_analyzed result = 3%nat
       /\ score result
          = calculate_pattern_score (top_patterns result) (opening_analysis result)
              (emotion_diversity result) 3 (Some (ngram_analysis result))
       /\ level result = get_pattern_level (score result)
       /\ (cached_chapters s + refreshed_chapters s = 2)%nat.
Proof.
  split.
  - refine (proj1 (failed_chapter_aborts_run true failing_tagger example_hash
                     example_db (py "p") 2 false example_db_ids)
              (example_chapter "c2" 2 "她打开了门。") (py "她打开了门。") _ _ _ _ _).
    + vm_compute. right. left. reflexivity.
    + reflexivity.
    + vm_compute. reflexivity.
    + vm_compute. reflexivity.
    + vm_compute. lia.
  - destruct (analyze_project_patterns_incremental false absent_tagger example_hash
                edited_db (py "p") 2 false) as [[db' [m n|m|result stats]]|] eqn:E;
      try (vm_compute in E; discriminate E).
    assert (Hall : length (select_chapters edited_db (py "p")) = 3%nat)
      by (vm_compute; reflexivity).
    assert (Htext : length (with_text (select_chapters edited_db (py "p"))) = 2%nat)
      by (vm_compute; reflexivity).
    destruct (proj2 (failed_chapter_aborts_run false absent_tagger example_hash
                       edited_db (py "p") 2 false edited_db_ids) db' result stats E)
      as (Hn & Hscore & Hlevel & s & -> & Hsum & _).
    exists db', result, s. split; [reflexivity|].
    split; [exact Hall|]. split; [exact Htext|].
    rewrite Hall in Hn, Hscore. rewrite Htext in Hsum.
    split; [exact Hn|]. split; [exact Hscore|]. split; [exact Hlevel | exact Hsum].
Defined.

(** C7 as the design document states it fails: when the tagger raises on
    the only sentence of the second chapter, the run raises too, although
    the first chapter can be analysed; no result is returned for it. *)
Lemma failing_chapter_counterexample :
  analyze_single_chapter true failing_tagger (py "c2") 2 (py "她打开了门。") (py "c2") = None
  /\ (exists a, analyze_single_chapter true failing_tagger
                  (py "c1") 1 (py "他走进了房间。") (py "c1") = Some a)
  /\ ~ exists db' result stats,
        analyze_project_patterns_incremental true failing_tagger example_hash
          example_db (py "p") 2 false = Some (db', success result stats).
Proof.
  split; [vm_compute; reflexivity|]. split.
  - vm_compute. eexists. reflexivity.
  - intros (db' & result & stats & H). vm_compute in H. discriminate H.
Qed.

(** The project after a first run, and then with the text of its first
    chapter deleted. *)
Definition example_db_after_run : DB :=
  match analyze_project_patterns_incremental false absent_tagger example_hash
          example_db (py "p") 2 false with
  | Some (db', _) => db'
  | None => example_db
  end.



(** ** Opening and ending flags of short chapters *)

Lemma ending_flag_short i len : (len <= 3)%nat -> ending_flag i len = false.
Proof.
  intros Hlen. unfold ending_flag.
  destruct (3 <? len)%nat eqn:E; [|reflexivity].
  apply Nat.ltb_lt in E. lia.
Qed.

Lemma opening_flag_short i len : (i < len)%nat -> (len <= 3)%nat -> opening_flag i = true.
Proof. intros Hi Hlen. unfold opening_flag. apply Nat.ltb_lt. lia. Qed.

(** C9: in a chapter of at most 3 extracted sentences no sentence record
    is flagged as an ending and every one is flagged as an opening, in the
    records of the full analysis and in the templates of the per-chapter
    analysis that is cached (which has one record per sentence). *)
Theorem short_chapter_flags (chapter : Chapter) (text : pystr) :
  (length (split_sentences text) <= 3)%nat ->
  (length (chapter_sentences chapter text) = length (split_sentences text)
   /\ forall s, s ∈ chapter_sentences chapter text ->
        s_is_ending s = false /\ s_is_opening s = true)
  /\ (forall JIEBA_AVAILABLE pseg_cut cid number title a,
        analyze_single_chapter JIEBA_AVAILABLE pseg_cut cid number text title = Some a ->
        length (ca_templates a) = length (split_sentences text)
        /\ forall t, t ∈ ca_templates a ->
             ct_is_ending t = false /\ ct_is_opening t = true).
Proof.
  intros Hk. split.
  - unfold chapter_sentences. split; [apply length_imap|].
    intros s Hs. apply elem_of_lookup_imap in Hs as (i & sent & -> & Hi). simpl.
    apply lookup_lt_Some in Hi.
    split; [now apply ending_flag_short | now apply opening_flag_short with (len := length (split_sentences text))].
  - intros J cut cid number title a Ha. unfold analyze_single_chapter in Ha.
    destruct text as [|c text'].
    + injection Ha as <-. simpl. split; [reflexivity|]. intros t Ht. inversion Ht.
    + set (sentences := split_sentences (c :: text')) in *.
      destruct (extract_templates_batch J cut sentences) as [strs|] eqn:E; [|discriminate].
      simpl in Ha. injection Ha as <-. simpl.
      apply length_mapM in E.
      split.
      * rewrite length_imap, length_zip. lia.
      * intros t Ht. apply elem_of_lookup_imap in Ht as (i & [sent tpl] & -> & Hi). simpl.
        apply lookup_lt_Some in Hi. rewrite length_zip in Hi.
        split; [now apply ending_flag_short | apply opening_flag_short with (len := length sentences); lia].
Qed.

Definition short_chapter_example : Chapter :=
  {| id := py "c1"; project_id := py "p"; chapter_number_of := 1;
     title := py "一"; content := Some (py "他走进了房间。她笑了笑。") |}.

Lemma short_chapter_flags_witness :
  map (fun s => (s_is_opening s, s_is_ending s))
    (chapter_sentences short_chapter_example (py "他走进了房间。她笑了笑。"))
  = [(true, false); (true, false)]
  /\ forall s, s ∈ chapter_sentences short_chapter_example (py "他走进了房间。她笑了笑。") ->
       s_is_ending s = false /\ s_is_opening s = true.
Proof.
  split; [vm_compute; reflexivity|].
  refine (proj2 (proj1 (short_chapter_flags short_chapter_example
                          (py "他走进了房间。她笑了笑。") _))).
  vm_compute. lia.
Defined.

(* ================================================================== *)
(** * Properties of the rest of the analyzer *)
(* ================================================================== *)

Fixpoint lev (a : pystr) : pystr -> Z :=
  fix lev_a (b : pystr) : Z :=
    match a, b with
    | [], _ => Z.of_nat (length b)
    | _, [] => Z.of_nat (length a)
    | x :: a', y :: b' =>
        Z.min (Z.min (lev a' b + 1) (lev_a b' + 1))
          (lev a' b' + if (x =? y)%N then 0 else 1)
    end.

Lemma lev_nil_r a : lev a [] = Z.of_nat (length a).
Proof. destruct a; reflexivity. Qed.

Lemma lev_cons x a y b :
  lev (x :: a) (y :: b)
  = Z.min (Z.min (lev a (y :: b) + 1) (lev (x :: a) b + 1))
      (lev a b + if (x =? y)%N then 0 else 1).
Proof. reflexivity. Qed.

Fixpoint rprefixes (rp s : pystr) : list pystr :=
  rp :: match s with
        | [] => []
        | c :: s' => rprefixes (c :: rp) s'
        end.

Lemma rprefixes_lengths rp s :
  map (fun q => Z.of_nat (length q)) (rprefixes rp s)
  = map Z.of_nat (seq (length rp) (S (length s))).
Proof.
  revert rp. induction s as [|c s IH]; intros rp; [reflexivity|].
  cbn [rprefixes map length seq]. f_equal. apply (IH (c :: rp)).
Qed.

Lemma rprefixes_last rp s : last (rprefixes rp s) = Some (rev s ++ rp).
Proof.
  revert rp. induction s as [|c s IH]; intros rp; [reflexivity|].
  cbn [rprefixes rev]. rewrite <- app_assoc. simpl.
  rewrite <- (IH (c :: rp)). now destruct s.
Qed.

Lemma distance_row_lev c1 ra s rp :
  distance_row c1 s (map (lev ra) (rprefixes rp s)) (lev (c1 :: ra) rp)
  = map (lev (c1 :: ra)) (tail (rprefixes rp s)).
Proof.
  revert rp. induction s as [|c2 s IH]; intros rp; [reflexivity|].
  cbn [rprefixes map tail distance_row].
  destruct s as [|c3 s']; cbn [rprefixes map]; cbn [rprefixes map tail] in IH;
    rewrite <- lev_cons; f_equal.
  apply (IH (c2 :: rp)).
Qed.

Lemma edit_distance_rows t2 t1 ra :
  fold_left
    (fun '(i, prev_row) c1 =>
       (i + 1, (i + 1) :: distance_row c1 t2 prev_row (i + 1)))
    t1 (Z.of_nat (length ra), map (lev ra) (rprefixes [] t2))
  = (Z.of_nat (length ra + length t1), map (lev (rev t1 ++ ra)) (rprefixes [] t2)).
Proof.
  revert ra. induction t1 as [|c1 t1 IH]; intros ra.
  - simpl. now rewrite Nat.add_0_r.
  - cbn [fold_left rev]. rewrite <- app_assoc. cbn [app].
    replace (Z.of_nat (length ra) + 1) with (Z.of_nat (length (c1 :: ra)))
      by (simpl; lia).
    rewrite <- (lev_nil_r (c1 :: ra)) at 2 3.
    rewrite distance_row_lev.
    replace (lev (c1 :: ra) [] :: map (lev (c1 :: ra)) (tail (rprefixes [] t2)))
      with (map (lev (c1 :: ra)) (rprefixes [] t2)) by now destruct t2.
    rewrite IH. f_equal. simpl. lia.
Qed.

Lemma edit_distance_lev t1 t2 : edit_distance t1 t2 = lev (rev t1) (rev t2).
Proof.
  unfold edit_distance.
  pose proof (edit_distance_rows t2 t1 []) as H. rewrite app_nil_r in H.
  rewrite (List.map_ext (lev []) (fun q => Z.of_nat (length q))) in H
    by (now intros [|? ?]).
  rewrite rprefixes_lengths in H. cbn [length] in H. change (Z.of_nat 0) with 0 in H. rewrite H.
  cbn [snd]. change (map (lev (rev t1)) (rprefixes [] t2))
    with (lev (rev t1) <$> rprefixes [] t2).
  rewrite fmap_last, rprefixes_last, app_nil_r. reflexivity.
Qed.

Lemma lev_sym a b : lev a b = lev b a.
Proof.
  revert b. induction a as [|x a IHa]; intros b.
  - rewrite lev_nil_r. now destruct b.
  - induction b as [|y b IHb]; [reflexivity|].
    rewrite !lev_cons, IHb, (IHa (y :: b)), (IHa b), (N.eqb_sym x y). lia.
Qed.

Lemma lev_bounds a b :
  Z.abs (Z.of_nat (length a) - Z.of_nat (length b)) <= lev a b
  <= Z.max (Z.of_nat (length a)) (Z.of_nat (length b)).
Proof.
  revert b. induction a as [|x a IHa]; intros b.
  - simpl. destruct b; simpl; lia.
  - induction b as [|y b IHb]; [simpl; lia|].
    rewrite lev_cons. pose proof (IHa (y :: b)). pose proof (IHa b).
    cbn [length] in *. destruct (x =? y)%N; lia.
Qed.

Lemma lev_zero a b : lev a b = 0 <-> a = b.
Proof.
  revert b. induction a as [|x a IHa]; intros b.
  - destruct b; simpl; split; try lia; congruence.
  - induction b as [|y b IHb]; [simpl; split; [lia | congruence]|].
    rewrite lev_cons. pose proof (lev_bounds a (y :: b)). pose proof (lev_bounds (x :: a) b).
    pose proof (lev_bounds a b). pose proof (IHa b) as Hab. cbn [length] in *.
    destruct (x =? y)%N eqn:E.
    + apply N.eqb_eq in E. subst y. split.
      * intros Hz. f_equal. apply Hab. lia.
      * intros [= ->]. assert (lev b b = 0) by now apply IHa. lia.
    + apply N.eqb_neq in E. split; [lia | congruence].
Qed.

Lemma edit_distance_sym t1 t2 : edit_distance t1 t2 = edit_distance t2 t1.
Proof. rewrite !edit_distance_lev. apply lev_sym. Qed.

Lemma eqb_sym (a b : pystr) : PyStr.eqb a b = PyStr.eqb b a.
Proof.
  destruct (PyStr.eqb a b) eqn:E1, (PyStr.eqb b a) eqn:E2; try reflexivity.
  - apply PyStr.eqb_eq in E1. apply PyStr.eqb_neq in E2. congruence.
  - apply PyStr.eqb_eq in E2. apply PyStr.eqb_neq in E1. congruence.
Qed.

(** X1: [edit_distance] is a distance between templates: it is at least
    the difference of the two lengths and at most the longer length, it is
    0 exactly when the two templates are equal, and it does not depend on
    the order of its arguments. *)
Theorem edit_distance_is_a_distance (t1 t2 : pystr) :
  Z.abs (Z.of_nat (length t1) - Z.of_nat (length t2)) <= edit_distance t1 t2
  /\ edit_distance t1 t2 <= Z.max (Z.of_nat (length t1)) (Z.of_nat (length t2))
  /\ (edit_distance t1 t2 = 0 <-> t1 = t2)
  /\ edit_distance t1 t2 = edit_distance t2 t1.
Proof.
  rewrite !edit_distance_lev.
  pose proof (lev_bounds (rev t1) (rev t2)) as H. rewrite !length_rev in H.
  split; [lia|]. split; [lia|]. split; [|apply lev_sym].
  rewrite lev_zero. split.
  - intros E. apply (f_equal (@rev N)) in E. rewrite !rev_involutive in E. congruence.
  - now intros ->.
Qed.

(** X2: [template_similarity] is symmetric: the two templates can be
    given in either order, also when one is more than twice as long as the
    other or empty. *)
Theorem template_similarity_symmetric (t1 t2 : pystr) :
  template_similarity t1 t2 = template_similarity t2 t1.
Proof.
  unfold template_similarity. rewrite (eqb_sym t2 t1).
  destruct (PyStr.eqb t1 t2); [reflexivity|].
  set (len1 := Z.of_nat (length t1)). set (len2 := Z.of_nat (length t2)).
  rewrite (orb_comm (len2 =? 0)), (Z.max_comm len2 len1).
  replace (Z.abs (len2 - len1)) with (Z.abs (len1 - len2)) by lia.
  destruct ((len1 =? 0) || (len2 =? 0)); [reflexivity|].
  destruct (PrimFloat.ltb _ _); [reflexivity|].
  destruct (len2 <? len1) eqn:E1, (len1 <? len2) eqn:E2;
    rewrite ?(Z.max_comm len2 len1); try reflexivity.
  - apply Z.ltb_lt in E1, E2. lia.
  - now rewrite edit_distance_sym.
Qed.

(** ** The segmenter *)

Lemma lstrip_suffix s : exists pre, s = pre ++ PyStr.lstrip s.
Proof.
  induction s as [|c s [pre IH]]; [now exists []|]. simpl.
  destruct (PyStr.isspace c).
  - exists (c :: pre). simpl. now rewrite <- IH.
  - now exists [].
Qed.

Lemma lstrip_head s : PyStr.lstrip s = match s with
                                       | c :: s' => if PyStr.isspace c then PyStr.lstrip s' else s
                                       | [] => []
                                       end.
Proof. now destruct s. Qed.

(** What [lstrip] returns starts with a character that is not a space. *)
Lemma lstrip_starts s c r : PyStr.lstrip s = c :: r -> PyStr.isspace c = false.
Proof.
  induction s as [|c0 s IH]; [discriminate|]. simpl.
  destruct (PyStr.isspace c0) eqn:E; [exact IH|]. now intros [= <- <-].
Qed.

Lemma lstrip_fixed s :
  match s with c :: _ => PyStr.isspace c = false | [] => True end -> PyStr.lstrip s = s.
Proof. destruct s as [|c s]; [reflexivity|]. simpl. now intros ->. Qed.

Lemma strip_infix s : exists pre post, s = pre ++ PyStr.strip s ++ post.
Proof.
  unfold PyStr.strip. destruct (lstrip_suffix s) as [pre Hpre].
  destruct (lstrip_suffix (rev (PyStr.lstrip s))) as [post Hpost].
  exists pre, (rev post). rewrite Hpre at 1. f_equal.
  rewrite <- rev_app_distr, <- Hpost. now rewrite rev_involutive.
Qed.

(** A stripped string neither starts nor ends with a space: stripping it
    again changes nothing. *)
Lemma strip_strip s : PyStr.strip (PyStr.strip s) = PyStr.strip s.
Proof.
  unfold PyStr.strip.
  set (u := PyStr.lstrip s). set (v := PyStr.lstrip (rev u)).
  assert (Hv : PyStr.lstrip v = v).
  { apply lstrip_fixed. destruct v as [|c r] eqn:Ev; [exact I|].
    now apply (lstrip_starts (rev u) c r). }
  assert (Hu : PyStr.lstrip (rev v) = rev v).
  { apply lstrip_fixed. destruct (rev v) as [|c r] eqn:Er; [exact I|].
    destruct (lstrip_suffix (rev u)) as [pre Hpre]. fold v in Hpre.
    apply (f_equal (@rev N)) in Hpre. rewrite rev_involutive, rev_app_distr, Er in Hpre.
    simpl in Hpre. now apply (lstrip_starts s c (r ++ rev pre)). }
  now rewrite Hu, rev_involutive, Hv.
Qed.

(** The pieces [re.split] returns are parts of the text read so far and hold
    no terminator. *)
Lemma re_split_pieces s in_match cur p :
  In p (re_split s in_match cur) ->
  (exists pre post, cur ++ s = pre ++ p ++ post)
  /\ (Forall (fun c => is_terminator c = false) cur ->
      Forall (fun c => is_terminator c = false) p).
Proof.
  revert in_match cur. induction s as [|c s IH]; intros in_match cur; cbn [re_split].
  - intros [<-|[]]. split; [|auto]. exists [], []. now rewrite !app_nil_r.
  - destruct (is_terminator c) eqn:Et.
    + assert (Hrest : In p (re_split s true []) ->
                (exists pre post, cur ++ c :: s = pre ++ p ++ post)
                /\ (Forall (fun c => is_terminator c = false) cur ->
                    Forall (fun c => is_terminator c = false) p)).
      { intros Hp. destruct (IH true [] Hp) as [(pre & post & E) Hf].
        split; [|intros _; apply Hf; constructor].
        exists (cur ++ c :: pre), post. simpl in E. rewrite E. now rewrite <- app_assoc. }
      destruct in_match; [exact Hrest|]. intros [<-|Hp]; [|now apply Hrest].
      split; [|auto]. now exists [], (c :: s).
    + destruct (in_match && (c =? quote_char)%N).
      * intros Hp. destruct (IH false [] Hp) as [(pre & post & E) Hf].
        split; [|intros _; apply Hf; constructor].
        exists (cur ++ c :: pre), post. simpl in E. rewrite E. now rewrite <- app_assoc.
      * intros Hp. destruct (IH false (cur ++ [c]) Hp) as [(pre & post & E) Hf].
        split.
        -- exists pre, post. rewrite <- E, <- app_assoc. reflexivity.
        -- intros Hcur. apply Hf. apply Forall_app. split; [exact Hcur|].
           constructor; [exact Et | constructor].
Qed.

(** X3: every sentence [split_sentences] returns is longer than 3
    characters, has no white space at either end, is a piece of the text
    as it stands there, and holds none of the terminators [。！？!?]. *)
Theorem split_sentences_sound (text sentence : pystr) :
  In sentence (split_sentences text) ->
  (3 < length sentence)%nat
  /\ PyStr.strip sentence = sentence
  /\ PyStr.contains text sentence = true
  /\ (forall c, In c sentence -> is_terminator c = false).
Proof.
  unfold split_sentences. intros H. apply in_map_iff in H as (p & <- & Hp).
  apply list_elem_of_In, list_elem_of_filter in Hp as [Hlen Hp].
  apply Is_true_true, andb_true_iff in Hlen as [_ Hlen]. apply Nat.ltb_lt in Hlen.
  apply list_elem_of_In, re_split_pieces in Hp as [(pre & post & E) Hf].
  destruct (strip_infix p) as (pre' & post' & Ep).
  split; [exact Hlen|]. split; [apply strip_strip|]. split.
  - apply contains_app. exists (pre ++ pre'), (post' ++ post).
    simpl in E. rewrite E, Ep at 1. now rewrite <- !app_assoc.
  - specialize (Hf (List.Forall_nil _)). rewrite Ep in Hf.
    apply Forall_app in Hf as [_ Hf]. apply Forall_app in Hf as [Hf _].
    rewrite Forall_forall in Hf. intros c Hc. now apply Hf, list_elem_of_In.
Qed.

Lemma split_sentences_sound_witness :
  In (py "他走进了房间") (split_sentences (py "他走进了房间。她笑了。"))
  /\ (3 < length (py "他走进了房间"))%nat
  /\ PyStr.strip (py "他走进了房间") = py "他走进了房间"
  /\ PyStr.contains (py "他走进了房间。她笑了。") (py "他走进了房间") = true
  /\ (forall c, In c (py "他走进了房间") -> is_terminator c = false).
Proof.
  assert (H : In (py "他走进了房间") (split_sentences (py "他走进了房间。她笑了。")))
    by (vm_compute; left; reflexivity).
  split; [exact H|].
  exact (split_sentences_sound (py "他走进了房间。她笑了。") (py "他走进了房间") H).
Defined.

(** ** The fallback abstractor *)

Lemma mem_In x xs : PyStr.mem x xs = true <-> In x xs.
Proof.
  unfold PyStr.mem. rewrite existsb_exists. split.
  - intros (y & Hy & E). apply PyStr.eqb_eq in E. now subst.
  - intros H. exists x. split; [exact H | apply PyStr.eqb_refl].
Qed.

(** The words the fallback strategy knows are written in Chinese
    characters only. *)
Lemma known_words_cjk :
  Forall (fun w => forallb is_cjk w = true) (common_verbs ++ keep_words ++ pronouns).
Proof. apply (bool_decide_unpack _). vm_compute. exact I. Qed.

Lemma known_word_cjk w :
  PyStr.mem w common_verbs || PyStr.mem w keep_words || PyStr.mem w pronouns = true ->
  forallb is_cjk w = true.
Proof.
  intros H. pose proof known_words_cjk as Hall. rewrite List.Forall_forall in Hall.
  apply Hall. rewrite !in_app_iff.
  apply orb_true_iff in H as [H|H]; [apply orb_true_iff in H as [H|H]|];
    apply mem_In in H; auto.
Qed.

(** One step of the scan on a character that is not Chinese: it is kept
    as it is. *)
Lemma simple_scan_other char rest result :
  is_cjk char = false ->
  simple_scan (char :: rest) false result = simple_scan rest false (result ++ [[char]]).
Proof.
  intros Hc. cbn [simple_scan].
  assert (H1 : forall w, hd_error w = Some char ->
             PyStr.mem w common_verbs || PyStr.mem w keep_words || PyStr.mem w pronouns = false).
  { intros w Hw. destruct (_ || _ || _) eqn:E; [|reflexivity].
    apply known_word_cjk in E. destruct w as [|c w]; [discriminate|].
    injection Hw as ->. simpl in E. rewrite Hc in E. discriminate. }
  pose proof (H1 [char] eq_refl) as Hs.
  apply orb_false_iff in Hs as [Hs Hs3]. apply orb_false_iff in Hs as [Hs1 Hs2].
  rewrite Hs1, Hs2, Hs3, Hc. cbn [orb].
  assert (Hsingle : (if PyStr.char_in char kept_punctuation
                     then result ++ [[char]] else result ++ [[char]]) = result ++ [[char]])
    by now destruct (PyStr.char_in char kept_punctuation).
  rewrite Hsingle. destruct rest as [|next rest']; [reflexivity|].
  pose proof (H1 [char; next] eq_refl) as Ht.
  apply orb_false_iff in Ht as [Ht Ht3]. apply orb_false_iff in Ht as [Ht1 Ht2].
  now rewrite Ht1, Ht2, Ht3.
Qed.

Lemma simple_scan_plain text result :
  Forall (fun c => is_cjk c = false) text ->
  simple_scan text false result = result ++ map (fun c => [c]) text.
Proof.
  intros H. revert result. induction H as [|c text Hc _ IH]; intros result.
  - simpl. now rewrite app_nil_r.
  - rewrite simple_scan_other by exact Hc. rewrite IH, <- app_assoc. reflexivity.
Qed.

(** X4: a sentence without a Chinese character (U+4E00 to U+9FFF)
    comes out of the fallback abstraction unchanged, and so out of
    [extract_template] when jieba is not available, whatever the tagger. *)
Theorem fallback_keeps_foreign_text (sentence : pystr) :
  (forall c, In c sentence -> is_cjk c = false) ->
  _extract_template_simple_impl sentence = sentence
  /\ forall pseg_cut, extract_template false pseg_cut sentence = Some sentence.
Proof.
  intros H.
  assert (E : _extract_template_simple_impl sentence = sentence).
  { unfold _extract_template_simple_impl, concat_str.
    rewrite simple_scan_plain by now apply List.Forall_forall.
    cbn [app]. clear H. induction sentence as [|c s IH]; [reflexivity|].
    simpl. now rewrite IH. }
  split; [exact E|]. intros cut. unfold extract_template, extract_template_cached.
  now rewrite E.
Qed.

(** The scan appends to [result]: single characters of the text, words of
    two characters of the text, and the two placeholders, the noun
    placeholder only behind another item. *)
Lemma simple_scan_invariant (P : N -> Prop) (Inv : list pystr -> Prop) :
  (forall result c, P c -> Inv result -> Inv (result ++ [[c]])) ->
  (forall result c d, P c -> P d -> Inv result -> Inv (result ++ [[c; d]])) ->
  (forall result, Inv result -> Inv (result ++ [PRONOUN])) ->
  (forall result, Inv result -> last result <> Some NOUN -> Inv (result ++ [NOUN])) ->
  forall text skip result,
    Forall P text -> Inv result -> Inv (simple_scan text skip result).
Proof.
  intros Hchar Hword Hpro Hnoun text.
  induction text as [|char rest IH]; intros skip result HP Hinv; [exact Hinv|].
  apply Forall_cons in HP as [Hc HP]. cbn [simple_scan].
  destruct skip; [now apply IH|].
  assert (Hsingle : Inv
    (if PyStr.mem [char] common_verbs || PyStr.mem [char] keep_words
     then result ++ [[char]]
     else if PyStr.mem [char] pronouns then result ++ [PRONOUN]
     else if PyStr.char_in char kept_punctuation then result ++ [[char]]
     else if is_cjk char then
       if bool_decide (last result = Some NOUN) then result else result ++ [NOUN]
     else result ++ [[char]])).
  { destruct (_ || _); [now apply Hchar|].
    destruct (PyStr.mem [char] pronouns); [now apply Hpro|].
    destruct (PyStr.char_in char kept_punctuation); [now apply Hchar|].
    destruct (is_cjk char); [|now apply Hchar].
    case_bool_decide as Hl; [exact Hinv | now apply Hnoun]. }
  match type of Hsingle with Inv ?s => set (single := s) in * end.
  clearbody single.
  destruct rest as [|next rest']; [now apply IH|].
  pose proof HP as HP'. apply Forall_cons in HP' as [Hn _].
  destruct (_ || _); [apply IH; [exact HP | now apply Hword]|].
  destruct (PyStr.mem [char; next] pronouns); [apply IH; [exact HP | now apply Hpro]|].
  now apply IH.
Qed.

(** No item of the list is the noun placeholder followed by itself. *)
Fixpoint no_adjacent_nouns (items : list pystr) : Prop :=
  match items with
  | a :: (b :: _) as rest => ~ (a = NOUN /\ b = NOUN) /\ no_adjacent_nouns rest
  | _ => True
  end.

Lemma no_adjacent_nouns_snoc items x :
  no_adjacent_nouns items -> ~ (last items = Some NOUN /\ x = NOUN) ->
  no_adjacent_nouns (items ++ [x]).
Proof.
  induction items as [|a items IH]; intros Hn Hx; [exact I|].
  destruct items as [|b items'].
  - simpl. split; [|exact I]. intros [-> ->]. apply Hx. now split.
  - cbn [app no_adjacent_nouns] in *. destruct Hn as [Hab Hn].
    split; [exact Hab|]. apply IH; [exact Hn|]. exact Hx.
Qed.

(** X5: the fallback abstraction never appends the placeholder [[名词]]
    right after itself: in the list of pieces it builds no two neighbours
    are both [[名词]], and the template is the pieces joined. *)
Theorem fallback_merges_nouns (sentence : pystr) :
  no_adjacent_nouns (simple_scan sentence false [])
  /\ _extract_template_simple_impl sentence = concat (simple_scan sentence false []).
Proof.
  split; [|reflexivity].
  apply (simple_scan_invariant (fun _ => True) no_adjacent_nouns).
  - intros result c _ H. apply no_adjacent_nouns_snoc; [exact H|]. intros [_ E]. discriminate E.
  - intros result c d _ _ H. apply no_adjacent_nouns_snoc; [exact H|]. intros [_ E]. discriminate E.
  - intros result H. apply no_adjacent_nouns_snoc; [exact H|]. intros [_ E]. discriminate E.
  - intros result H Hl. apply no_adjacent_nouns_snoc; [exact H|]. now intros [E _].
  - apply List.Forall_forall. auto.
  - exact I.
Qed.

Lemma fallback_keeps_foreign_text_witness :
  _extract_template_simple_impl (py "Hello, world") = py "Hello, world"
  /\ forall pseg_cut, extract_template false pseg_cut (py "Hello, world")
                      = Some (py "Hello, world").
Proof.
  apply (fallback_keeps_foreign_text (py "Hello, world")).
  intros c Hc.
  assert (Hall : forallb (fun c => negb (is_cjk c)) (py "Hello, world") = true)
    by (vm_compute; reflexivity).
  rewrite forallb_forall in Hall. apply negb_true_iff. now apply Hall.
Defined.

(** ** Sentence types without the tagger *)

Definition LEFT_BRACKET : N := 91%N.

(** Every opening bracket of the string is followed by the first character
    of the noun or of the pronoun placeholder. *)
Fixpoint brackets_open_placeholders (s : pystr) : bool :=
  match s with
  | [] => true
  | c :: s' =>
      (if (c =? LEFT_BRACKET)%N then
         match s' with
         | d :: _ => PyStr.startswith NOUN [c; d] || PyStr.startswith PRONOUN [c; d]
         | [] => false
         end
       else true)
      && brackets_open_placeholders s'
  end.

Lemma brackets_app a b :
  brackets_open_placeholders a = true -> brackets_open_placeholders b = true ->
  brackets_open_placeholders (a ++ b) = true.
Proof.
  intros Ha Hb. induction a as [|c a IH]; [exact Hb|].
  cbn [app brackets_open_placeholders] in *.
  apply andb_true_iff in Ha as [Hc Ha]. rewrite (IH Ha), andb_true_r.
  destruct (c =? LEFT_BRACKET)%N; [|reflexivity].
  destruct a as [|d a]; [discriminate | exact Hc].
Qed.

Lemma brackets_none s :
  ~ In LEFT_BRACKET s -> brackets_open_placeholders s = true.
Proof.
  induction s as [|c s IH]; [reflexivity|]. intros H. cbn [brackets_open_placeholders].
  rewrite IH by (intros Hin; apply H; now right).
  destruct (c =? LEFT_BRACKET)%N eqn:E; [|reflexivity].
  apply N.eqb_eq in E. exfalso. apply H. now left.
Qed.

(** A tag that starts as neither placeholder does is not in such a string. *)
Lemma brackets_exclude_tag s d rest :
  brackets_open_placeholders s = true ->
  PyStr.startswith NOUN [LEFT_BRACKET; d] || PyStr.startswith PRONOUN [LEFT_BRACKET; d] = false ->
  PyStr.contains s (LEFT_BRACKET :: d :: rest) = false.
Proof.
  intros Hs Hd. induction s as [|c s IH]; [reflexivity|].
  cbn [brackets_open_placeholders] in Hs. apply andb_true_iff in Hs as [Hc Hs].
  cbn [PyStr.contains]. rewrite (IH Hs), orb_false_r.
  cbn [PyStr.startswith].
  destruct (LEFT_BRACKET =? c)%N eqn:E; [|reflexivity]. apply N.eqb_eq in E. subst c.
  rewrite N.eqb_refl in Hc. destruct s as [|d' s]; [reflexivity|].
  cbn [andb]. destruct (d =? d')%N eqn:E; [|reflexivity].
  apply N.eqb_eq in E. subst d'. rewrite Hd in Hc. discriminate.
Qed.

(** The characters [extract_sentence_type] reads as marks of dialogue. *)
Definition dialogue_marks : list N := [12300; 34; 39; 65306]%N.

Lemma contains_char s c : PyStr.contains s [c] = true <-> In c s.
Proof.
  rewrite contains_app. split.
  - intros (pre & post & ->). apply in_app_iff. right. now left.
  - intros H. apply in_split in H as (pre & post & ->). now exists pre, post.
Qed.

Lemma char_in_In c s : PyStr.char_in c s = true <-> In c s.
Proof.
  unfold PyStr.char_in. rewrite existsb_exists. split.
  - intros (x & Hx & E). apply N.eqb_eq in E. now subst.
  - intros H. exists c. split; [exact H | apply N.eqb_refl].
Qed.

Lemma contains_char_in s c : PyStr.contains s [c] = PyStr.char_in c s.
Proof.
  destruct (PyStr.contains s [c]) eqn:E1, (PyStr.char_in c s) eqn:E2; try reflexivity.
  - apply contains_char, char_in_In in E1. congruence.
  - apply char_in_In, contains_char in E2. congruence.
Qed.

(** The type of a template in which every bracket opens the noun or the
    pronoun placeholder. *)
Lemma extract_sentence_type_plain template :
  brackets_open_placeholders template = true ->
  extract_sentence_type template
  = if existsb (fun m => PyStr.char_in m template) dialogue_marks
    then Dialogue else Narrative.
Proof.
  intros Hb.
  assert (Htag : forall tag d rest, tag = LEFT_BRACKET :: d :: rest ->
            PyStr.startswith NOUN [LEFT_BRACKET; d]
            || PyStr.startswith PRONOUN [LEFT_BRACKET; d] = false ->
            PyStr.contains template tag = false).
  { intros tag d rest -> Hd. now apply brackets_exclude_tag. }
  assert (Hd : existsb (fun marker => PyStr.contains template marker)
                 [py "「"; [quote_char]; [apostrophe_char]; py "："]
               = existsb (fun m => PyStr.char_in m template) dialogue_marks).
  { change [py "「"; [quote_char]; [apostrophe_char]; py "："]
      with [[12300%N]; [34%N]; [39%N]; [65306%N]].
    unfold dialogue_marks. cbn [existsb]. now rewrite !contains_char_in. }
  unfold extract_sentence_type. rewrite Hd.
  rewrite (Htag (py "[言语]") _ _ eq_refl eq_refl), (Htag (py "[思维]") _ _ eq_refl eq_refl),
    (Htag (py "[情感]") _ _ eq_refl eq_refl).
  cbn [map existsb].
  rewrite (Htag (py "[视觉]") _ _ eq_refl eq_refl), (Htag (py "[移动]") _ _ eq_refl eq_refl),
    (Htag (py "[手动]") _ _ eq_refl eq_refl), (Htag (py "[姿态]") _ _ eq_refl eq_refl),
    (Htag (py "[头动]") _ _ eq_refl eq_refl), (Htag (py "[表情]") _ _ eq_refl eq_refl).
  cbn [orb]. rewrite orb_false_r.
  now destruct (existsb _ dialogue_marks).
Qed.

(** One step of the scan, whatever the character: it appends to [result],
    and it skips the next character only when that one is Chinese. *)
Lemma simple_scan_step char rest result :
  exists skip extra,
    simple_scan (char :: rest) false result = simple_scan rest skip (result ++ extra)
    /\ (skip = true -> match rest with
                       | next :: _ => is_cjk next = true
                       | [] => False
                       end).
Proof.
  cbn [simple_scan].
  assert (Hsingle : exists extra,
    (if PyStr.mem [char] common_verbs || PyStr.mem [char] keep_words
     then result ++ [[char]]
     else if PyStr.mem [char] pronouns then result ++ [PRONOUN]
     else if PyStr.char_in char kept_punctuation then result ++ [[char]]
     else if is_cjk char then
       if bool_decide (last result = Some NOUN) then result else result ++ [NOUN]
     else result ++ [[char]]) = result ++ extra).
  { destruct (_ || _); [now eexists|].
    destruct (PyStr.mem [char] pronouns); [now eexists|].
    destruct (PyStr.char_in char kept_punctuation); [now eexists|].
    destruct (is_cjk char); [|now eexists].
    case_bool_decide; [exists []; now rewrite app_nil_r | now eexists]. }
  destruct Hsingle as [extra ->].
  destruct rest as [|next rest']; [exists false, extra; split; [reflexivity | discriminate]|].
  cbv iota beta.
  assert (Hnext : PyStr.mem [char; next] common_verbs || PyStr.mem [char; next] keep_words
                  || PyStr.mem [char; next] pronouns = true -> is_cjk next = true).
  { intros H. apply known_word_cjk in H. simpl in H.
    apply andb_true_iff in H as [_ H]. now apply andb_true_iff in H as [H _]. }
  destruct (PyStr.mem [char; next] common_verbs || PyStr.mem [char; next] keep_words) eqn:E1.
  - exists true, [[char; next]]. split; [reflexivity|]. intros _. now apply Hnext.
  - destruct (PyStr.mem [char; next] pronouns) eqn:E2.
    + exists true, [PRONOUN]. split; [reflexivity|]. intros _. now apply Hnext.
    + exists false, extra. split; [reflexivity | discriminate].
Qed.

(** A character that is not Chinese is never dropped by the scan. *)
Lemma simple_scan_keeps (c : N) (text : pystr) (skip : bool) (result : list pystr) :
  is_cjk c = false ->
  In c (concat result) \/ In c (if skip then tail text else text) ->
  In c (concat (simple_scan text skip result)).
Proof.
  intros Hc. revert skip result. induction text as [|char rest IH]; intros skip result H.
  - simpl. destruct skip; simpl in H; tauto.
  - destruct skip; [cbn [simple_scan]; apply IH; exact H|].
    cbn [tail] in H.
    destruct (is_cjk char) eqn:Echar.
    + destruct (simple_scan_step char rest result) as (skip' & extra & -> & Hskip).
      apply IH. rewrite concat_app, in_app_iff.
      destruct H as [H|[->|H]]; [tauto | congruence |]. right.
      destruct skip'; [|exact H].
      destruct rest as [|next rest']; [destruct (Hskip eq_refl)|].
      specialize (Hskip eq_refl). destruct H as [->|H]; [congruence | exact H].
    + rewrite simple_scan_other by exact Echar. apply IH.
      rewrite concat_app, in_app_iff. simpl. destruct H as [H|[->|H]]; tauto.
Qed.

(** X6: without jieba only two sentence types occur. The template the
    fallback abstraction makes of a sentence without [[] is typed as
    dialogue when the sentence holds one of the marks [「], [：], the
    double quote or the apostrophe, and as narrative otherwise; never as
    thought, emotion or action. *)
Theorem fallback_types_dialogue_or_narrative (sentence : pystr) :
  ~ In LEFT_BRACKET sentence ->
  extract_sentence_type (_extract_template_simple_impl sentence)
  = if existsb (fun m => PyStr.char_in m sentence) dialogue_marks
    then Dialogue else Narrative.
Proof.
  intros Hno. unfold _extract_template_simple_impl, concat_str.
  rewrite extract_sentence_type_plain.
  - assert (Hsame : forall m, In m dialogue_marks ->
              PyStr.char_in m (concat (simple_scan sentence false []))
              = PyStr.char_in m sentence).
    { intros m Hm.
      assert (Hmark : is_cjk m = false /\ ~ In m NOUN /\ ~ In m PRONOUN).
      { unfold dialogue_marks in Hm. simpl in Hm.
        destruct Hm as [<-|[<-|[<-|[<-|[]]]]]; (split; [reflexivity|]);
          split; intros H; apply char_in_In in H; vm_compute in H; discriminate H. }
      destruct Hmark as (Hcjk & Hn & Hp).
      destruct (PyStr.char_in m sentence) eqn:E.
      - apply char_in_In. apply char_in_In in E. apply simple_scan_keeps; [exact Hcjk | now right].
      - destruct (PyStr.char_in m (concat (simple_scan sentence false []))) eqn:E'; [|reflexivity].
        exfalso. apply char_in_In in E'.
        assert (Hin : In m sentence \/ In m NOUN \/ In m PRONOUN).
        { clear Hm Hcjk Hn Hp E. revert m E'.
          apply (simple_scan_invariant (fun c => In c sentence)
                   (fun result => forall m, In m (concat result) ->
                      In m sentence \/ In m NOUN \/ In m PRONOUN)).
          - intros result c Hcs H m. rewrite concat_app, in_app_iff. simpl.
            intros [Hm|[->|[]]]; auto.
          - intros result c d Hcs Hds H m. rewrite concat_app, in_app_iff. simpl.
            intros [Hm|[->|[->|[]]]]; auto.
          - intros result H m. rewrite concat_app, in_app_iff. cbn [concat].
            rewrite app_nil_r. intros [Hm|Hm]; auto.
          - intros result H _ m. rewrite concat_app, in_app_iff. cbn [concat].
            rewrite app_nil_r. intros [Hm|Hm]; auto.
          - apply List.Forall_forall. auto.
          - intros m []. }
        assert (In m sentence -> False) by (intros Hs; apply char_in_In in Hs; congruence).
        tauto. }
    unfold dialogue_marks in *. cbn [existsb].
    rewrite !Hsame by (simpl; tauto). reflexivity.
  - apply (simple_scan_invariant (fun c => c <> LEFT_BRACKET)
             (fun result => brackets_open_placeholders (concat result) = true)).
    + intros result c Hc H. rewrite concat_app. apply brackets_app; [exact H|].
      apply brackets_none. simpl. intros [E|[]]. congruence.
    + intros result c d Hc Hd H. rewrite concat_app. apply brackets_app; [exact H|].
      apply brackets_none. simpl. intros [E|[E|[]]]; congruence.
    + intros result H. rewrite concat_app. apply brackets_app; [exact H | reflexivity].
    + intros result H _. rewrite concat_app. apply brackets_app; [exact H | reflexivity].
    + apply List.Forall_forall. intros c Hc ->. contradiction.
    + reflexivity.
Qed.

Lemma fallback_types_dialogue_or_narrative_witness :
  extract_sentence_type (_extract_template_simple_impl (py "他心里想着回家"))
  = if existsb (fun m => PyStr.char_in m (py "他心里想着回家")) dialogue_marks
    then Dialogue else Narrative.
Proof.
  apply (fallback_types_dialogue_or_narrative (py "他心里想着回家")).
  intros H. apply char_in_In in H. vm_compute in H. discriminate H.
Defined.

(** ** Occurrences in the chapters and in the text joined from them *)

Definition NEWLINE : N := 10%N.

Lemma startswith_before_separator a b sep sub :
  ~ In sep sub -> PyStr.startswith (a ++ sep :: b) sub = PyStr.startswith a sub.
Proof.
  revert a. induction sub as [|x sub IH]; intros a Hsep; [reflexivity|].
  destruct a as [|c a]; cbn [app PyStr.startswith].
  - destruct (x =? sep)%N eqn:E; [|reflexivity].
    apply N.eqb_eq in E. exfalso. apply Hsep. now left.
  - rewrite IH; [reflexivity|]. intros H. apply Hsep. now right.
Qed.

Lemma startswith_length s p : PyStr.startswith s p = true -> (length p <= length s)%nat.
Proof.
  intros H. apply PyStr.startswith_app in H as [t ->]. rewrite length_app. lia.
Qed.

Lemma count_from_separator sub sep (a b : pystr) k :
  sub <> [] -> ~ In sep sub -> (k <= length a)%nat ->
  PyStr.count_from sub k (a ++ sep :: b)
  = (PyStr.count_from sub k a + PyStr.count_from sub 0 b)%nat.
Proof.
  intros Hne Hsep. revert k. induction a as [|c a IH]; intros k Hk.
  - simpl in Hk. assert (k = 0)%nat as -> by lia. cbn [app PyStr.count_from].
    pose proof (startswith_before_separator [] b sep sub Hsep) as E.
    cbn [app] in E. rewrite E. destruct sub; [congruence | reflexivity].
  - cbn [app PyStr.count_from]. destruct k as [|k].
    + change (c :: a ++ sep :: b) with ((c :: a) ++ sep :: b).
      rewrite startswith_before_separator by exact Hsep.
      destruct (PyStr.startswith (c :: a) sub) eqn:E.
      * rewrite IH; [reflexivity|]. apply startswith_length in E. simpl in E. lia.
      * apply IH. lia.
    + apply IH. simpl in Hk. lia.
Qed.

Lemma count_separator sub sep (a b : pystr) :
  sub <> [] -> ~ In sep sub ->
  PyStr.count (a ++ sep :: b) sub = (PyStr.count a sub + PyStr.count b sub)%nat.
Proof.
  intros Hne Hsep. unfold PyStr.count. destruct sub as [|x sub]; [congruence|].
  apply count_from_separator; [exact Hne | exact Hsep | lia].
Qed.

(** An expression without a line break occurs in the text joined from the
    chapters as often as in the chapters together. *)
Lemma occurrences_join texts e :
  e <> [] -> ~ In NEWLINE e ->
  occurrences (PyStr.join [NEWLINE] texts) e = sumZ (map (fun t => occurrences t e) texts).
Proof.
  intros Hne Hnl. unfold occurrences.
  induction texts as [|t texts IH].
  - simpl. destruct e; [congruence | reflexivity].
  - destruct texts as [|t' texts'].
    + simpl. lia.
    + change (PyStr.join [NEWLINE] (t :: t' :: texts'))
        with (t ++ NEWLINE :: PyStr.join [NEWLINE] (t' :: texts')).
      rewrite count_separator by assumption. rewrite Nat2Z.inj_add, IH. reflexivity.
Qed.

Lemma catalog_plain :
  Forall (fun e => e <> [] /\ ~ In NEWLINE e) catalog_expressions.
Proof.
  apply List.Forall_forall. intros e He. apply list_elem_of_In in He.
  assert (H : forallb (fun e => negb (PyStr.eqb e []) && negb (PyStr.char_in NEWLINE e))
                catalog_expressions = true) by (vm_compute; reflexivity).
  rewrite forallb_forall in H. apply list_elem_of_In in He. specialize (H e He).
  apply andb_true_iff in H as [H1 H2]. apply negb_true_iff in H1, H2. split.
  - now apply PyStr.eqb_neq.
  - intros Hin. apply char_in_In in Hin. congruence.
Qed.

(** ** The cached statistics against the statistics of the whole text *)

(** The expression records cached for a chapter, each with its category. *)
Definition chapter_records (content : pystr) : list (emotion * ExprCount) :=
  flat_map (fun '(emo, stats) => map (pair emo) (es_expressions stats))
    (chapter_emotion_stats content).

Lemma found_none t exprs :
  sumZ (map (occurrences t) exprs) <= 0 -> found_expressions_of t exprs = [].
Proof.
  induction exprs as [|e exprs IH]; [reflexivity|]. simpl. intros H.
  pose proof (occurrences_nonneg t e). pose proof (sumZ_nonneg_occurrences t exprs).
  destruct (0 <? occurrences t e) eqn:E; [apply Z.ltb_lt in E; lia|].
  apply IH. lia.
Qed.

Lemma chapter_records_closed t :
  chapter_records t
  = flat_map (fun p => map (fun e => (fst p, {| expr := e; count := occurrences t e |}))
                         (found_expressions_of t (expressions (snd p))))
      EMOTION_VOCABULARY.
Proof.
  unfold chapter_records. rewrite chapter_emotion_stats_closed.
  induction EMOTION_VOCABULARY as [|[emo config] voc IH]; [reflexivity|].
  cbn [flat_map fst snd]. rewrite flat_map_app, IH. f_equal.
  unfold category_stat. rewrite found_in_chapter_closed, sumZ_found.
  destruct (0 <? sumZ (map (occurrences t) (expressions config))) eqn:E.
  - cbn [flat_map es_expressions]. rewrite app_nil_r, List.map_map. reflexivity.
  - apply Z.ltb_ge in E. now rewrite found_none.
Qed.

Lemma cached_records_chapters texts analyses :
  Forall2 (fun t a => ca_emotion_stats a = chapter_emotion_stats t) texts analyses ->
  cached_records analyses = flat_map chapter_records texts.
Proof.
  induction 1 as [|t a texts analyses Ha _ IH]; [reflexivity|].
  unfold cached_records in *. cbn [flat_map]. rewrite IH, Ha. reflexivity.
Qed.

Lemma sumZ_flat_map {A B} (f : B -> Z) (g : A -> list B) l :
  sumZ (map f (flat_map g l)) = sumZ (map (fun x => sumZ (map f (g x))) l).
Proof.
  induction l as [|x l IH]; [reflexivity|].
  cbn [flat_map map]. rewrite List.map_app, sumZ_app, IH. reflexivity.
Qed.

Lemma sumZ_swap {A B} (f : A -> B -> Z) (l1 : list A) (l2 : list B) :
  sumZ (map (fun x => sumZ (map (f x) l2)) l1)
  = sumZ (map (fun y => sumZ (map (fun x => f x y) l1)) l2).
Proof.
  induction l1 as [|x l1 IH]; simpl.
  - induction l2 as [|y l2 IH2]; [reflexivity | simpl; lia].
  - rewrite IH. clear IH. induction l2 as [|y l2 IH2]; [reflexivity|]. simpl in *. lia.
Qed.

Lemma sumZ_ext_in {A} (f g : A -> Z) l :
  (forall x, In x l -> f x = g x) -> sumZ (map f l) = sumZ (map g l).
Proof. intros H. f_equal. now apply List.map_ext_in. Qed.

Lemma chapter_records_total t :
  sumZ (map (fun r => count (snd r)) (chapter_records t))
  = sumZ (map (occurrences t) catalog_expressions).
Proof.
  rewrite chapter_records_closed. unfold catalog_expressions, catalog_of.
  rewrite !sumZ_flat_map. apply sumZ_ext_in. intros [emo config] _.
  cbn [fst snd]. rewrite List.map_map. cbn [snd count]. apply sumZ_found.
Qed.

(** The sum of the cached counts is the number of occurrences in the
    joined text. *)
Lemma cached_total_corpus texts analyses :
  Forall2 (fun t a => ca_emotion_stats a = chapter_emotion_stats t) texts analyses ->
  cached_total analyses = corpus_total texts.
Proof.
  intros H. unfold cached_total, corpus_total, corpus_text.
  rewrite (cached_records_chapters _ _ H), sumZ_flat_map.
  rewrite (sumZ_ext_in _ _ _ (fun t _ => chapter_records_total t)).
  rewrite (sumZ_swap (fun t e => occurrences t e)).
  apply sumZ_ext_in. intros e He. symmetry.
  pose proof catalog_plain as Hp. rewrite List.Forall_forall in Hp.
  destruct (Hp e He) as [Hne Hnl]. now apply occurrences_join.
Qed.

Lemma records_of_app emo l1 l2 :
  records_of emo (l1 ++ l2) = records_of emo l1 ++ records_of emo l2.
Proof. unfold records_of. now rewrite List.filter_app, List.map_app. Qed.

Lemma records_of_flat_map {A} emo (g : A -> list (emotion * ExprCount)) l :
  records_of emo (flat_map g l) = flat_map (fun x => records_of emo (g x)) l.
Proof.
  induction l as [|x l IH]; [reflexivity|].
  cbn [flat_map]. now rewrite records_of_app, IH.
Qed.

Lemma records_of_category emo k (g : pystr -> ExprCount) l :
  records_of emo (map (fun e => (k, g e)) l) = if decide (k = emo) then map g l else [].
Proof.
  unfold records_of. induction l as [|e l IH]; simpl; [now destruct (decide (k = emo))|].
  destruct (decide (k = emo)) as [->|Hne].
  - rewrite bool_decide_eq_true_2 by reflexivity. simpl. now rewrite IH.
  - rewrite bool_decide_eq_false_2 by exact Hne. exact IH.
Qed.

Lemma records_of_vocabulary (voc : list (emotion * EmotionConfig)) emo config
  (g : pystr -> ExprCount) (h : EmotionConfig -> list pystr) :
  NoDup (map fst voc) -> In (emo, config) voc ->
  records_of emo (flat_map (fun p => map (fun e => (fst p, g e)) (h (snd p))) voc)
  = map g (h config).
Proof.
  induction voc as [|[k cfg] voc IH]; intros Hnd Hin; [destruct Hin|].
  cbn [map fst] in Hnd. apply NoDup_cons in Hnd as [Hk Hnd].
  cbn [flat_map fst snd]. rewrite records_of_app, records_of_category.
  destruct Hin as [[= -> ->]|Hin].
  - rewrite decide_True by reflexivity.
    assert (Hrest : records_of emo
              (flat_map (fun p => map (fun e => (fst p, g e)) (h (snd p))) voc) = []).
    { clear IH Hnd. induction voc as [|[k' cfg'] voc IH']; [reflexivity|].
      cbn [flat_map fst snd]. rewrite records_of_app, records_of_category.
      rewrite decide_False.
      - apply IH'. intros H. apply Hk. simpl. now right.
      - intros ->. apply Hk. simpl. now left. }
    now rewrite Hrest, app_nil_r.
  - rewrite decide_False; [now apply IH|].
    intros ->. apply Hk. apply list_elem_of_In, in_map_iff. now exists (emo, config).
Qed.

Lemma sumZ_positive {A} (f : A -> Z) l :
  (forall x, In x l -> 0 <= f x) ->
  (0 < sumZ (map f l) <-> exists x, In x l /\ 0 < f x).
Proof.
  induction l as [|x l IH]; intros Hpos; simpl.
  - split; [lia | intros (x & [] & _)].
  - pose proof (Hpos x (or_introl eq_refl)) as Hx.
    destruct IH as [IH1 IH2]; [intros y Hy; apply Hpos; now right|].
    assert (0 <= sumZ (map f l)).
    { clear IH1 IH2. induction l as [|y l IHl]; simpl; [lia|].
      pose proof (Hpos y (or_intror (or_introl eq_refl))).
      assert (0 <= sumZ (map f l)); [|lia].
      apply IHl. intros z [->|Hz]; apply Hpos; [now left | now right; right]. }
    split.
    + intros Hs. destruct (Z.lt_ge_cases 0 (f x)) as [Hfx|Hfx].
      * exists x. split; [now left | exact Hfx].
      * destruct IH1 as (y & Hy & Hfy); [lia|]. exists y. split; [now right | exact Hfy].
    + intros (y & [->|Hy] & Hfy); [lia|].
      assert (0 < sumZ (map f l)) by (apply IH2; now exists y). lia.
Qed.

Lemma NoDup_List_filter {A} (f : A -> bool) l : NoDup l -> NoDup (List.filter f l).
Proof.
  induction l as [|x l IH]; intros Hnd; simpl; [constructor|].
  apply NoDup_cons in Hnd as [Hx Hnd]. destruct (f x); [|now apply IH].
  apply NoDup_cons. split; [|now apply IH].
  intros Hin. apply Hx. apply list_elem_of_In. apply list_elem_of_In, filter_In in Hin. tauto.
Qed.

(** The expressions of one category cached for some chapter are those that
    occur in the joined text. *)
Lemma category_unique texts emo config :
  In (emo, config) EMOTION_VOCABULARY ->
  length (remove_dups (map expr (records_of emo (flat_map chapter_records texts))))
  = length (found_expressions_of (PyStr.join [NEWLINE] texts) (expressions config)).
Proof.
  intros Hin.
  assert (Hnd : NoDup (expressions config)).
  { pose proof vocabulary_NoDup as H. rewrite List.Forall_forall in H.
    apply (H (emo, config)), Hin. }
  assert (Hplain : forall e, In e (expressions config) -> e <> [] /\ ~ In NEWLINE e).
  { intros e He. pose proof catalog_plain as Hp. rewrite List.Forall_forall in Hp.
    apply Hp. unfold catalog_expressions, catalog_of. apply in_flat_map.
    exists (emo, config). split; [exact Hin | exact He]. }
  apply Permutation_length, NoDup_Permutation.
  - apply NoDup_remove_dups.
  - unfold found_expressions_of. now apply NoDup_List_filter.
  - intros e. rewrite elem_of_remove_dups, records_of_flat_map.
    rewrite !list_elem_of_In. unfold found_expressions_of at 1. rewrite filter_In.
    rewrite in_map_iff. split.
    + intros (r & <- & Hr). apply in_flat_map in Hr as (t & Ht & Hr).
      rewrite chapter_records_closed in Hr.
      rewrite (records_of_vocabulary EMOTION_VOCABULARY emo config
                 (fun e => {| expr := e; count := occurrences t e |})
                 (fun cfg => found_expressions_of t (expressions cfg))
                 vocabulary_keys_NoDup Hin) in Hr.
      apply in_map_iff in Hr as (e & <- & He). cbn [expr].
      apply filter_In in He as [He Hocc]. split; [exact He|].
      apply Z.ltb_lt. destruct (Hplain e He) as [Hne Hnl].
      rewrite occurrences_join by assumption.
      apply sumZ_positive; [intros; apply occurrences_nonneg|].
      exists t. split; [exact Ht | now apply Z.ltb_lt].
    + intros [He Hocc]. apply Z.ltb_lt in Hocc. destruct (Hplain e He) as [Hne Hnl].
      rewrite occurrences_join in Hocc by assumption.
      apply sumZ_positive in Hocc as (t & Ht & Hocc); [|intros; apply occurrences_nonneg].
      exists {| expr := e; count := occurrences t e |}. split; [reflexivity|].
      apply in_flat_map. exists t. split; [exact Ht|].
      rewrite chapter_records_closed.
      rewrite (records_of_vocabulary EMOTION_VOCABULARY emo config
                 (fun e => {| expr := e; count := occurrences t e |})
                 (fun cfg => found_expressions_of t (expressions cfg))
                 vocabulary_keys_NoDup Hin).
      apply in_map_iff. exists e. split; [reflexivity|].
      apply filter_In. split; [exact He | now apply Z.ltb_lt].
Qed.

Lemma cached_unique_corpus texts analyses :
  Forall2 (fun t a => ca_emotion_stats a = chapter_emotion_stats t) texts analyses ->
  cached_unique analyses = corpus_unique texts.
Proof.
  intros H. unfold cached_unique, corpus_unique, corpus_text.
  rewrite (cached_records_chapters _ _ H).
  change [happy; sad; angry; fear; surprise] with (map fst EMOTION_VOCABULARY).
  rewrite List.map_map.
  rewrite (sumZ_ext_in _
             (fun p => Z.of_nat (length (found_expressions_of (PyStr.join [NEWLINE] texts)
                                           (expressions (snd p)))))).
  - unfold catalog_expressions, catalog_of.
    induction EMOTION_VOCABULARY as [|[emo config] voc IH]; [reflexivity|].
    cbn [flat_map map snd]. rewrite found_expressions_app, length_app, Nat2Z.inj_add.
    unfold sumZ in *. simpl. rewrite IH. reflexivity.
  - intros [emo config] Hin. cbn [fst snd]. f_equal. now apply category_unique.
Qed.

Lemma emotion_totals_agree (texts : list pystr) (analyses : list ChapterAnalysis) :
  Forall2 (fun t a => ca_emotion_stats a = chapter_emotion_stats t) texts analyses ->
  total_expressions (aggregate_emotion_stats analyses)
  = total_expressions (analyze_emotion_diversity texts)
  /\ total_unique (aggregate_emotion_stats analyses)
     = total_unique (analyze_emotion_diversity texts)
  /\ diversity_score (aggregate_emotion_stats analyses)
     = diversity_score (analyze_emotion_diversity texts).
Proof.
  intros H.
  destruct (aggregate_emotion_stats_totals analyses) as [Ht Hu].
  destruct (analyze_emotion_diversity_totals texts) as [Ht' Hu'].
  rewrite aggregate_emotion_stats_score, analyze_emotion_diversity_score.
  rewrite Ht, Hu, Ht', Hu'.
  rewrite (cached_total_corpus _ _ H), (cached_unique_corpus _ _ H). auto.
Qed.

(** X7: when the statistics cached for the chapters are those of their
    texts, the emotion report aggregated from the cache and the report
    computed from the texts joined by newlines give the same number of
    expressions, the same number of distinct expressions and the same
    diversity score. *)
Theorem cached_emotion_totals_agree (texts : list pystr) (analyses : list ChapterAnalysis) :
  Forall2 (fun t a => ca_emotion_stats a = chapter_emotion_stats t) texts analyses ->
  total_expressions (aggregate_emotion_stats analyses)
  = total_expressions (analyze_emotion_diversity texts)
  /\ total_unique (aggregate_emotion_stats analyses)
     = total_unique (analyze_emotion_diversity texts)
  /\ diversity_score (aggregate_emotion_stats analyses)
     = diversity_score (analyze_emotion_diversity texts).
Proof. exact (emotion_totals_agree texts analyses). Qed.

Definition cached_emotion_example : list ChapterAnalysis :=
  match analyze_single_chapter false absent_tagger
          (py "c1") 1 (py "她笑了笑，露出笑容。") (py "c1") with
  | Some a => [a]
  | None => []
  end.

Lemma cached_emotion_totals_agree_witness :
  Forall2 (fun t a => ca_emotion_stats a = chapter_emotion_stats t)
    [py "她笑了笑，露出笑容。"] cached_emotion_example
  /\ total_expressions (aggregate_emotion_stats cached_emotion_example)
     = total_expressions (analyze_emotion_diversity [py "她笑了笑，露出笑容。"])
  /\ total_unique (aggregate_emotion_stats cached_emotion_example)
     = total_unique (analyze_emotion_diversity [py "她笑了笑，露出笑容。"])
  /\ diversity_score (aggregate_emotion_stats cached_emotion_example)
     = diversity_score (analyze_emotion_diversity [py "她笑了笑，露出笑容。"]).
Proof.
  assert (H : Forall2 (fun t a => ca_emotion_stats a = chapter_emotion_stats t)
                [py "她笑了笑，露出笑容。"] cached_emotion_example).
  { vm_compute. constructor; [reflexivity | constructor]. }
  split; [exact H|].
  exact (cached_emotion_totals_agree _ _ H).
Defined.

(** ** The expressions found in a text *)

Lemma found_append_new found emo e :
  ~ In emo (map fst found) -> found_append found emo e = found ++ [(emo, [e])].
Proof.
  induction found as [|[k l] found IH]; simpl; [reflexivity|].
  intros Hk. destruct (decide (emo = k)) as [->|Hne]; [tauto|].
  rewrite IH; [reflexivity | tauto].
Qed.

Lemma found_append_last found emo l e :
  ~ In emo (map fst found) -> ~ In e l ->
  found_append (found ++ [(emo, l)]) emo e = found ++ [(emo, l ++ [e])].
Proof.
  intros Hk He. induction found as [|[k l'] found IH]; simpl.
  - rewrite decide_True by reflexivity.
    destruct (PyStr.mem e l) eqn:E; [|reflexivity].
    apply mem_In in E. contradiction.
  - simpl in Hk. destruct (decide (emo = k)) as [->|Hne]; [tauto|].
    rewrite IH; [reflexivity | tauto].
Qed.

Lemma contains_occurrences t e :
  e <> [] -> PyStr.contains t e = (0 <? occurrences t e).
Proof.
  intros He. pose proof (count_positive t e He) as H. unfold occurrences.
  destruct (PyStr.contains t e); destruct (0 <? Z.of_nat (PyStr.count t e)) eqn:E;
    try reflexivity.
  - apply Z.ltb_ge in E. destruct H as [_ H]. specialize (H eq_refl). lia.
  - apply Z.ltb_lt in E. destruct H as [H _]. now rewrite H by lia.
Qed.

Lemma found_in_text_started t emo exprs found l :
  ~ In emo (map fst found) -> NoDup (l ++ exprs) -> Forall (fun e => e <> []) exprs ->
  fold_left
    (fun found expr =>
       if PyStr.contains t expr then found_append found emo expr else found)
    exprs (found ++ [(emo, l)])
  = found ++ [(emo, l ++ found_expressions_of t exprs)].
Proof.
  intros Hk. revert l. induction exprs as [|e exprs IH]; intros l Hnd Hne; simpl.
  - now rewrite app_nil_r.
  - apply Forall_cons in Hne as [He Hne].
    assert (Hnd' : NoDup ((l ++ [e]) ++ exprs)) by now rewrite <- app_assoc.
    rewrite contains_occurrences by exact He.
    destruct (0 <? occurrences t e).
    + rewrite found_append_last; [| exact Hk |].
      * rewrite IH by assumption. now rewrite <- app_assoc.
      * apply NoDup_app in Hnd as (_ & Hnd & _). intros Hin.
        apply (Hnd e); [now apply list_elem_of_In | left].
    + apply IH; [|exact Hne].
      apply NoDup_app in Hnd as (H1 & H2 & H3). apply NoDup_cons in H3 as [_ H3].
      apply NoDup_app. split; [exact H1 | split; [|exact H3]].
      intros x Hx Hin. apply (H2 x Hx). now right.
Qed.

Lemma found_in_text_category t emo exprs found :
  ~ In emo (map fst found) -> NoDup exprs -> Forall (fun e => e <> []) exprs ->
  fold_left
    (fun found expr =>
       if PyStr.contains t expr then found_append found emo expr else found)
    exprs found
  = found ++ match found_expressions_of t exprs with
             | [] => []
             | l => [(emo, l)]
             end.
Proof.
  intros Hk. induction exprs as [|e exprs IH]; intros Hnd Hne; simpl.
  - now rewrite app_nil_r.
  - apply Forall_cons in Hne as [He Hne].
    rewrite contains_occurrences by exact He.
    destruct (0 <? occurrences t e).
    + rewrite found_append_new by exact Hk.
      apply (found_in_text_started t emo exprs found [e]); [exact Hk | exact Hnd | exact Hne].
    + apply NoDup_cons in Hnd as [_ Hnd]. now apply IH.
Qed.

Lemma analyze_emotion_in_text_acc t (voc : list (emotion * EmotionConfig)) found :
  NoDup (map fst voc ++ map fst found) ->
  Forall (fun p => NoDup (expressions (snd p))) voc ->
  Forall (fun e => e <> []) (catalog_of voc) ->
  fold_left
    (fun found '(emo, config) =>
       fold_left
         (fun found expr =>
            if PyStr.contains t expr then found_append found emo expr else found)
         (expressions config) found)
    voc found
  = found ++ flat_map (fun p => match found_expressions_of t (expressions (snd p)) with
                                | [] => []
                                | l => [(fst p, l)]
                                end) voc.
Proof.
  revert found. induction voc as [|[emo config] voc IH]; intros found Hk Hnd Hne; simpl.
  - now rewrite app_nil_r.
  - apply Forall_cons in Hnd as [Hnd1 Hnd]. simpl in Hnd1, Hne, Hk.
    apply Forall_app in Hne as [Hne1 Hne]. apply NoDup_cons in Hk as [Hemo Hk].
    rewrite found_in_text_category; [| | exact Hnd1 | exact Hne1].
    2:{ intros Hin. apply Hemo. apply list_elem_of_In. apply in_or_app. now right. }
    rewrite IH; [now rewrite <- app_assoc | | exact Hnd | exact Hne].
    destruct (found_expressions_of t (expressions config)) as [|e0 l0].
    + now rewrite app_nil_r.
    + rewrite List.map_app. cbn [map fst].
      apply NoDup_app in Hk as (H1 & H2 & H3).
      apply NoDup_app. split; [exact H1|]. split.
      * intros x Hx Hin. apply list_elem_of_In, in_app_iff in Hin as [Hin|[<-|[]]].
        -- apply (H2 x Hx). now apply list_elem_of_In.
        -- apply Hemo. apply list_elem_of_In, in_or_app. left. now apply list_elem_of_In.
      * apply NoDup_app. split; [exact H3|]. split; [|apply NoDup_singleton].
        intros x Hx Hin. apply list_elem_of_In in Hin as [<-|[]].
        apply Hemo. apply list_elem_of_In, in_or_app. right. now apply list_elem_of_In.
Qed.

(** X19: [analyze_emotion_in_text] finds exactly what the emotion scan
    of a chapter counts: the same categories in the same order, each with
    the same expressions in the same order. Every category counted has an
    expression, every expression counted occurs in the text at least
    once, and the total of a category is the sum of its counts. *)
Theorem found_expressions_are_counted text :
  analyze_emotion_in_text text
  = map (fun p => (fst p, map expr (es_expressions (snd p)))) (chapter_emotion_stats text)
  /\ Forall (fun p => es_expressions (snd p) <> []
                      /\ Forall (fun ec => 1 <= count ec
                                           /\ PyStr.contains text (expr ec) = true)
                           (es_expressions (snd p))
                      /\ es_total (snd p) = sumZ (map count (es_expressions (snd p))))
       (chapter_emotion_stats text).
Proof.
  pose proof catalog_plain as Hplain.
  assert (Hne : Forall (fun e => e <> []) (catalog_of EMOTION_VOCABULARY)).
  { eapply List.Forall_impl; [|exact Hplain]. now intros e [He _]. }
  split.
  - unfold analyze_emotion_in_text.
    rewrite analyze_emotion_in_text_acc;
      [| rewrite app_nil_r; apply vocabulary_keys_NoDup | apply vocabulary_NoDup | exact Hne].
    rewrite chapter_emotion_stats_closed. cbn [app].
    clear Hplain Hne. induction EMOTION_VOCABULARY as [|[emo config] voc IH];
      [reflexivity|].
    cbn [flat_map fst snd]. rewrite List.map_app, <- IH. f_equal.
    unfold category_stat. rewrite found_in_chapter_closed.
    destruct (found_expressions_of text (expressions config)) as [|e0 l0] eqn:E.
    + reflexivity.
    + rewrite <- E.
      assert (Hpos : (0 <? sumZ (map (occurrences text)
                                   (found_expressions_of text (expressions config)))) = true).
      { apply Z.ltb_lt.
        destruct (Z_lt_le_dec 0 (sumZ (map (occurrences text)
                      (found_expressions_of text (expressions config))))) as [H|H];
          [exact H|].
        rewrite sumZ_found in H. apply found_none in H. congruence. }
      rewrite Hpos. cbn [map fst snd es_expressions]. rewrite List.map_map. cbn [expr].
      now rewrite List.map_id.
  - rewrite chapter_emotion_stats_closed. apply List.Forall_forall.
    intros [emo stat] Hin. apply in_flat_map in Hin as ([emo' config] & Hvoc & Hin).
    cbn [fst snd] in *. unfold category_stat in Hin.
    rewrite found_in_chapter_closed in Hin.
    destruct (0 <? _) eqn:Epos in Hin; [|destruct Hin].
    destruct Hin as [[= <- <-]|[]]. cbn [es_expressions es_total].
    apply Z.ltb_lt in Epos. split; [|split].
    + intros E. apply map_eq_nil in E. rewrite E in Epos. simpl in Epos. lia.
    + apply List.Forall_forall. intros ec Hec. apply in_map_iff in Hec as (e & <- & He).
      cbn [count expr]. unfold found_expressions_of in He.
      apply List.filter_In in He as [He Hc]. apply Z.ltb_lt in Hc. split; [lia|].
      rewrite contains_occurrences; [now apply Z.ltb_lt|].
      rewrite List.Forall_forall in Hne. apply Hne. unfold catalog_of.
      apply in_flat_map. exists (emo', config). split; [exact Hvoc | exact He].
    + rewrite List.map_map. reflexivity.
Qed.

(** ** The full analysis and the incremental analysis *)

(** What [analyze_openings] reads of a sentence. *)
Definition opening_view (s : Sentence) : pystr * Z * nat :=
  (s_text s, s_chapter_number s, s_position s).

Lemma analyze_openings_view (l l' : list Sentence) (n n' : nat) :
  map opening_view l = map opening_view l' ->
  analyze_openings l n = analyze_openings l' n'.
Proof.
  intros Hview.
  assert (Hopen : map opening_view (filter (fun s => (s_position s =? 0)%nat) l)
                  = map opening_view (filter (fun s => (s_position s =? 0)%nat) l')).
  { revert l' Hview. induction l as [|s l IH]; intros [|s' l'] Hview; try discriminate;
      [reflexivity|].
    injection Hview as Ht Hn Hp Hview. specialize (IH l' Hview).
    assert (Hs : opening_view s = opening_view s') by (unfold opening_view; congruence).
    rewrite !filter_cons, Hp.
    destruct (decide (Is_true (s_position s' =? 0)%nat)); [|exact IH].
    cbn [map]. now rewrite IH, Hs. }
  unfold analyze_openings.
  set (o := filter (fun s => (s_position s =? 0)%nat) l) in *.
  set (o' := filter (fun s => (s_position s =? 0)%nat) l') in *.
  clearbody o o'. clear Hview l l'.
  assert (Hlen : length o = length o').
  { rewrite <- (length_map opening_view o), Hopen. apply length_map. }
  match goal with
  | |- context [fold_left ?f o ?init] =>
      assert (Hfold : forall acc, fold_left f o acc = fold_left f o' acc)
  end.
  { clear Hlen. revert o' Hopen. induction o as [|s o IH]; intros [|s' o'] Hopen acc;
      try discriminate; [reflexivity|].
    injection Hopen as Ht Hn _ Hopen. cbn [fold_left]. destruct acc as [cats exs].
    rewrite Ht, Hn. now apply IH. }
  rewrite Hfold. destruct (fold_left _ o' _) as [cats exs].
  rewrite Hlen. destruct o as [|s o], o' as [|s' o']; try discriminate; reflexivity.
Qed.

Section Agreement.

Variable JIEBA_AVAILABLE : bool.
Variable pseg_cut : pystr -> option (list (pystr * pystr)).
Variable compute_content_hash : pystr -> pystr.

Abbreviation extract := (extract_template_cached JIEBA_AVAILABLE pseg_cut).
Abbreviation incremental_loop :=
  (incremental_step JIEBA_AVAILABLE pseg_cut compute_content_hash).

(** The text of a chapter, and its analysis by [analyze_single_chapter]. *)
Definition text_of (chapter : Chapter) : pystr := default [] (content chapter).

Definition analyze_chapter (chapter : Chapter) : option ChapterAnalysis :=
  analyze_single_chapter JIEBA_AVAILABLE pseg_cut
    (id chapter) (chapter_number_of chapter) (text_of chapter) (title chapter).

(** The template records the full analysis builds from a sentence record
    and a template. *)
Definition sentence_template (sent : Sentence) (tpl : pystr) : Template :=
  {| text := s_text sent;
     template := tpl;
     chapter_id := s_chapter_id sent;
     chapter_number := s_chapter_number sent;
     chapter_title := default [] (s_chapter_title sent);
     position := s_position sent;
     is_opening := s_is_opening sent;
     is_ending := s_is_ending sent |}.

Lemma with_text_content chapter :
  In chapter (with_text [chapter]) ->
  exists c0 rest, content chapter = Some (c0 :: rest) /\ text_of chapter = c0 :: rest.
Proof.
  unfold with_text, text_of. simpl.
  destruct (content chapter) as [[|c0 rest]|]; simpl; try tauto. intros _. now eexists _, _.
Qed.

(** The sentences and the texts the full analysis gathers. *)
Lemma full_gather chapters acc_s acc_c :
  fold_left
    (fun '(all_sentences, chapters_content) chapter =>
       match content chapter with
       | Some ((_ :: _) as text) =>
           (all_sentences ++ chapter_sentences chapter text, chapters_content ++ [text])
       | _ => (all_sentences, chapters_content)
       end)
    chapters (acc_s, acc_c)
  = (acc_s ++ flat_map (fun c => chapter_sentences c (text_of c)) (with_text chapters),
     acc_c ++ map text_of (with_text chapters)).
Proof.
  revert acc_s acc_c. induction chapters as [|c chapters IH]; intros acc_s acc_c.
  - simpl. now rewrite !app_nil_r.
  - cbn [fold_left]. unfold with_text, text_of in *. cbn [List.filter].
    destruct (content c) as [[|c0 rest]|] eqn:Hc; cbn [is_empty negb]; rewrite IH;
      try reflexivity.
    cbn [flat_map map]. rewrite Hc. cbn [from_option Datatypes.id]. now rewrite <- !app_assoc.
Qed.

Lemma chapter_sentences_texts chapter text :
  map s_text (chapter_sentences chapter text) = split_sentences text.
Proof.
  unfold chapter_sentences. apply list_eq. intros i.
  change (map s_text ?l) with (s_text <$> l).
  rewrite list_lookup_fmap, list_lookup_imap.
  now destruct (split_sentences text !! i).
Qed.

Lemma mapM_app_Some {A B} (f : A -> option B) l1 l2 k :
  mapM f (l1 ++ l2) = Some k ->
  exists k1 k2, k = k1 ++ k2 /\ mapM f l1 = Some k1 /\ mapM f l2 = Some k2.
Proof.
  intros H. apply mapM_Some in H. apply Forall2_app_inv_l in H as (k1 & k2 & H1 & H2 & ->).
  exists k1, k2. split; [reflexivity|]. split; now apply mapM_Some.
Qed.

(** The analysis of a chapter with text, from the templates of its
    sentences. *)
Lemma analyze_chapter_templates chapter c0 rest strs :
  text_of chapter = c0 :: rest ->
  mapM extract (split_sentences (c0 :: rest)) = Some strs ->
  exists a,
    analyze_chapter chapter = Some a
    /\ gather_templates [a]
       = zip_with sentence_template (chapter_sentences chapter (c0 :: rest)) strs
    /\ map opening_view (gather_sentences [a])
       = map opening_view (chapter_sentences chapter (c0 :: rest))
    /\ ca_emotion_stats a = chapter_emotion_stats (c0 :: rest).
Proof.
  intros Ht Hs. unfold analyze_chapter, analyze_single_chapter. rewrite Ht.
  unfold extract_templates_batch. rewrite Hs. cbn [mbind option_bind].
  eexists. split; [reflexivity|]. apply length_mapM in Hs.
  unfold gather_templates, gather_sentences, chapter_sentences.
  cbn [flat_map ca_templates ca_chapter_id ca_chapter_number ca_chapter_title
       ca_emotion_stats from_option Datatypes.id].
  rewrite !app_nil_r. set (sentences := split_sentences (c0 :: rest)) in *.
  split; [|split; [|reflexivity]].
  - apply list_eq. intros i. change (map ?f ?l) with (f <$> l).
    rewrite list_lookup_fmap, lookup_zip_with, !list_lookup_imap.
    rewrite (lookup_zip_with pair sentences strs i).
    destruct (sentences !! i) as [sent|]; [|reflexivity].
    destruct (strs !! i) as [tpl|]; reflexivity.
  - apply list_eq. intros i. change (map ?f ?l) with (f <$> l).
    rewrite !list_lookup_fmap, !list_lookup_imap.
    rewrite (lookup_zip_with pair sentences strs i).
    destruct (sentences !! i) as [sent|] eqn:Ei.
    + destruct (strs !! i) as [tpl|] eqn:Ej; [reflexivity|].
      apply lookup_lt_Some in Ei. apply lookup_ge_None in Ej. lia.
    + reflexivity.
Qed.

(** The analyses of the chapters with text, from the templates the full
    analysis extracts for the sentences of all of them. *)
Lemma analyses_of_templates (chapters : list Chapter) strs :
  mapM extract
    (map s_text (flat_map (fun c => chapter_sentences c (text_of c)) (with_text chapters)))
  = Some strs ->
  exists analyses,
    mapM analyze_chapter (with_text chapters) = Some analyses
    /\ gather_templates analyses
       = zip_with sentence_template
           (flat_map (fun c => chapter_sentences c (text_of c)) (with_text chapters)) strs
    /\ map opening_view (gather_sentences analyses)
       = map opening_view
           (flat_map (fun c => chapter_sentences c (text_of c)) (with_text chapters))
    /\ Forall2 (fun t a => ca_emotion_stats a = chapter_emotion_stats t)
         (map text_of (with_text chapters)) analyses.
Proof.
  revert strs. induction chapters as [|c chapters IH]; intros strs Hs.
  - simpl in Hs. injection Hs as <-. exists []. repeat split. constructor.
  - unfold with_text in *. cbn [List.filter] in *.
    destruct (negb (is_empty (content c))) eqn:Ec; [|now apply IH].
    cbn [flat_map map] in *. rewrite List.map_app in Hs.
    apply mapM_app_Some in Hs as (k1 & k2 & -> & H1 & H2).
    destruct (IH k2 H2) as (analyses & Ha & Ht & Hv & Hst).
    destruct (with_text_content c) as (c0 & rest & Hc & Htext).
    { unfold with_text. simpl. rewrite Ec. now left. }
    rewrite Htext in *. rewrite chapter_sentences_texts in H1.
    destruct (analyze_chapter_templates c c0 rest k1 Htext H1) as (a & Hac & Hat & Hav & Hae).
    exists (a :: analyses). split; [|split; [|split]].
    + cbn [mapM]. rewrite Hac, Ha. reflexivity.
    + unfold gather_templates in *. cbn [flat_map] in *. rewrite app_nil_r in Hat.
      rewrite Hat, Ht. symmetry. apply zip_with_app.
      apply length_mapM in H1. rewrite <- H1.
      unfold chapter_sentences. apply length_imap.
    + unfold gather_sentences in *. cbn [flat_map] in *. rewrite app_nil_r in Hav.
      rewrite !List.map_app, Hav, Hv. reflexivity.
    + constructor; [exact Hae | exact Hst].
Qed.

(** The loop of the incremental run when no chapter can be read from the
    cache: the refresh is forced, or the chapters have distinct ids and no
    row yet. *)
Definition nothing_cached (force_refresh : bool)
  (caches : gmap pystr ChapterPatternCache) (chapters : list Chapter) : Prop :=
  force_refresh = true
  \/ (NoDup (map id chapters) /\ forall c, In c chapters -> caches !! id c = None).

Lemma uncached_loop force_refresh chapters st analyses :
  nothing_cached force_refresh (ls_caches st) chapters ->
  mapM analyze_chapter (with_text chapters) = Some analyses ->
  exists caches,
    for_each chapters (incremental_loop force_refresh) st
    = Some {| ls_caches := caches;
              ls_analyses := ls_analyses st ++ analyses;
              ls_cached_count := ls_cached_count st;
              ls_refreshed_count := (ls_refreshed_count st + length analyses)%nat |}.
Proof.
  revert st analyses. induction chapters as [|c chapters IH]; intros st analyses Hfresh Ha.
  - simpl in Ha. injection Ha as <-. exists (ls_caches st). simpl.
    rewrite app_nil_r, Nat.add_0_r. now destruct st.
  - cbn [for_each]. unfold with_text in Ha. cbn [List.filter] in Ha.
    assert (Hrest : forall st1,
              (forall c', In c' chapters -> id c' <> id c ->
                          ls_caches st1 !! id c' = ls_caches st !! id c') ->
              nothing_cached force_refresh (ls_caches st1) chapters).
    { intros st1 Hsame. destruct Hfresh as [->|[Hnd Hnone]]; [now left|]. right.
      cbn [map] in Hnd. apply NoDup_cons in Hnd as [Hc Hnd]. split; [exact Hnd|].
      intros c' Hc'. rewrite Hsame; [apply Hnone; now right | exact Hc'|].
      intros E. apply Hc. rewrite <- E. apply list_elem_of_In, in_map. exact Hc'. }
    destruct (content c) as [[|c0 rest]|] eqn:Hc; cbn [is_empty negb] in Ha.
    + rewrite step_empty by now rewrite Hc. cbn [mbind option_bind].
      apply IH; [|exact Ha]. now apply Hrest.
    + cbn [mapM] in Ha.
      destruct (analyze_chapter c) as [a|] eqn:Hac; [|discriminate].
      cbn [mbind option_bind] in Ha.
      destruct (mapM analyze_chapter (List.filter _ chapters)) as [rest_a|] eqn:Hr;
        [|discriminate].
      injection Ha as <-.
      rewrite (step_stale _ _ _ force_refresh st c (c0 :: rest) Hc); [|discriminate|].
      * unfold analyze_chapter, text_of in Hac. rewrite Hc in Hac. cbn [from_option Datatypes.id] in Hac.
        rewrite Hac. cbn [mbind option_bind].
        match goal with
        | |- context [for_each chapters _ ?st1] =>
            destruct (IH st1 rest_a) as [caches Hloop]
        end.
        -- apply Hrest. intros c' _ Hne. cbn [ls_caches]. now rewrite lookup_insert_ne.
        -- exact Hr.
        -- exists caches. rewrite Hloop. cbn [ls_analyses ls_cached_count ls_refreshed_count].
           rewrite <- app_assoc. cbn [app length]. do 2 f_equal. lia.
      * destruct Hfresh as [->|[_ Hnone]]; [reflexivity|].
        destruct force_refresh; [reflexivity|].
        rewrite (Hnone c) by now left. reflexivity.
    + rewrite step_empty by now rewrite Hc. cbn [mbind option_bind].
      apply IH; [|exact Ha]. now apply Hrest.
Qed.

(** The result built from the same templates, from sentences that differ
    in what the opening analysis does not read, and from an emotion report
    with the same score. *)
Lemma build_result_agree templates sents sents' ed ed' n r :
  build_result templates sents ed n = Some r ->
  map opening_view sents' = map opening_view sents ->
  diversity_score ed' = diversity_score ed ->
  exists r',
    build_result templates sents' ed' n = Some r'
    /\ score r' = score r /\ level r' = level r
    /\ chapters_analyzed r' = chapters_analyzed r
    /\ patterns_found r' = patterns_found r
    /\ top_patterns r' = top_patterns r
    /\ opening_analysis r' = opening_analysis r
    /\ ngram_analysis r' = ngram_analysis r
    /\ emotion_diversity r' = ed' /\ emotion_diversity r = ed.
Proof.
  unfold build_result. intros Hr Hview Hscore.
  destruct (cluster_templates templates) as [clusters|]; [|discriminate].
  cbn [mbind option_bind] in *. injection Hr as <-. eexists. split; [reflexivity|].
  cbn [score level chapters_analyzed patterns_found top_patterns opening_analysis
       ngram_analysis emotion_diversity].
  rewrite (analyze_openings_view sents' sents n n Hview).
  assert (Hs : forall patterns oa cc ng,
            calculate_pattern_score patterns oa ed' cc ng
            = calculate_pattern_score patterns oa ed cc ng).
  { intros. unfold calculate_pattern_score. now rewrite Hscore. }
  rewrite Hs. repeat split.
Qed.

Lemma cluster_templates_returns templates threshold :
  exists clusters, cluster_templates_similar templates threshold = Some clusters.
Proof.
  unfold cluster_templates_similar. destruct templates as [|t0 templates]; [now eexists|].
  destruct (filter _ (t0 :: templates)) as [|v valid]; [now eexists|].
  destruct (length _ <=? 50)%nat; [|now eexists].
  match goal with
  | |- context [_merge_similar_clusters ?cl threshold] =>
      destruct (merge_similar_clusters_items cl threshold) as (merged & -> & _)
  end.
  now eexists.
Qed.

(** X8: when nothing can be read from the cache (the refresh is forced,
    or the chapters have distinct ids and no row) and the full analysis of
    a project succeeds, the incremental analysis succeeds too, counts no
    cached chapter and every chapter with text as refreshed, and gives the
    same score, level, number of chapters, number of patterns, top
    patterns, opening analysis and n-gram analysis, and the same diversity
    score, total and number of distinct expressions in the emotion
    report. *)
Theorem incremental_agrees_with_full db pid min_chapters force_refresh db1 r stats1 :
  nothing_cached force_refresh (chapter_pattern_cache db) (select_chapters db pid) ->
  analyze_project_patterns JIEBA_AVAILABLE pseg_cut db pid min_chapters
  = Some (db1, success r stats1) ->
  exists db2 r2,
    analyze_project_patterns_incremental JIEBA_AVAILABLE pseg_cut compute_content_hash
      db pid min_chapters force_refresh
    = Some (db2, success r2
              (Some {| cached_chapters := 0;
                       refreshed_chapters := length (with_text (select_chapters db pid)) |}))
    /\ score r2 = score r /\ level r2 = level r
    /\ chapters_analyzed r2 = chapters_analyzed r
    /\ patterns_found r2 = patterns_found r
    /\ top_patterns r2 = top_patterns r
    /\ opening_analysis r2 = opening_analysis r
    /\ ngram_analysis r2 = ngram_analysis r
    /\ diversity_score (emotion_diversity r2) = diversity_score (emotion_diversity r)
    /\ total_expressions (emotion_diversity r2) = total_expressions (emotion_diversity r)
    /\ total_unique (emotion_diversity r2) = total_unique (emotion_diversity r).
Proof.
  intros Hfresh Hfull.
  unfold analyze_project_patterns in Hfull.
  unfold analyze_project_patterns_incremental.
  set (chapters := select_chapters db pid) in *.
  destruct (length chapters <? min_chapters)%nat; [discriminate|].
  rewrite full_gather in Hfull. cbn [app] in Hfull.
  set (all_sentences := flat_map (fun c => chapter_sentences c (text_of c)) (with_text chapters))
    in *.
  destruct all_sentences as [|s0 sents] eqn:Hall; [discriminate|]. rewrite <- Hall in *.
  unfold extract_templates_batch in Hfull.
  destruct (mapM extract (map s_text all_sentences)) as [strs|] eqn:Hstrs; [|discriminate].
  cbn [mbind option_bind] in Hfull.
  destruct (analyses_of_templates chapters strs Hstrs) as (analyses & Ha & Ht & Hv & Hst).
  fold all_sentences in Ht, Hv.
  destruct (uncached_loop force_refresh chapters
              {| ls_caches := chapter_pattern_cache db; ls_analyses := [];
                 ls_cached_count := 0; ls_refreshed_count := 0 |} analyses Hfresh Ha)
    as [caches Hloop].
  rewrite Hloop. cbn [mbind option_bind ls_analyses ls_caches ls_cached_count
                      ls_refreshed_count app Nat.add].
  assert (Hne : analyses <> []).
  { intros ->. apply length_mapM in Ha. simpl in Ha.
    apply length_zero_iff_nil in Ha. subst all_sentences. rewrite Ha in Hall. discriminate. }
  destruct analyses as [|a0 analyses'] eqn:Ean; [congruence|]. rewrite <- Ean in *.
  match type of Hfull with
  | context [build_result ?T _ ?ed ?n] =>
      destruct (build_result T all_sentences ed n) as [r0|] eqn:Hres; [|discriminate]
  end.
  cbn [mbind option_bind] in Hfull. injection Hfull as _ <- _.
  change (zip_with _ all_sentences strs)
    with (zip_with sentence_template all_sentences strs) in Hres.
  rewrite <- Ht in Hres.
  destruct (emotion_totals_agree _ _ Hst) as (Hte & Htu & Hds).
  destruct (build_result_agree _ _ _ _ (aggregate_emotion_stats analyses) _ _ Hres Hv Hds)
    as (r2 & Hres2 & Hs & Hl & Hc & Hp & Htp & Ho & Hn & He2 & He).
  rewrite Hres2. cbn [mbind option_bind].
  apply length_mapM in Ha. rewrite <- Ha.
  eexists _, r2. split; [reflexivity|].
  rewrite He2, He. repeat split; assumption.
Qed.

Lemma with_text_In chapters c :
  In c (with_text chapters) ->
  In c chapters /\ exists c0 rest, text_of c = c0 :: rest.
Proof.
  unfold with_text, text_of. intros H. apply filter_In in H as [Hin Hc].
  split; [exact Hin|]. destruct (content c) as [[|c0 rest]|]; try discriminate.
  now eexists _, _.
Qed.

Lemma analyses_without_sentences (wt : list Chapter) :
  (forall c, In c wt ->
     (exists c0 rest, text_of c = c0 :: rest) /\ split_sentences (text_of c) = []) ->
  exists analyses,
    mapM analyze_chapter wt = Some analyses /\ gather_templates analyses = [].
Proof.
  induction wt as [|c wt IH]; intros H; [now exists []|].
  destruct IH as (analyses & Ha & Hg); [intros c' Hc'; apply H; now right|].
  destruct (H c (or_introl eq_refl)) as [(c0 & rest & Ht) Hs].
  assert (Hc : exists a, analyze_chapter c = Some a /\ ca_templates a = []).
  { unfold analyze_chapter, analyze_single_chapter. rewrite Ht in *.
    cbv beta iota zeta. rewrite Hs. eexists. split; reflexivity. }
  destruct Hc as (a & Hc & Hnil).
  cbn [mapM]. rewrite Hc, Ha. cbn [mbind option_bind]. eexists. split; [reflexivity|].
  unfold gather_templates in *. cbn [flat_map]. rewrite Hnil. exact Hg.
Qed.

(** X9: the two analyses differ on a project with enough chapters, one
    of them with text, in which no chapter has a sentence (a piece of more
    than 3 characters): the full analysis returns [no_content] and leaves
    the database as it is, the incremental one (with nothing to read from
    the cache) succeeds, with no pattern and no bigram. *)
Theorem text_without_sentences db pid min_chapters force_refresh :
  nothing_cached force_refresh (chapter_pattern_cache db) (select_chapters db pid) ->
  (min_chapters <= length (select_chapters db pid))%nat ->
  with_text (select_chapters db pid) <> [] ->
  (forall c, In c (select_chapters db pid) -> split_sentences (text_of c) = []) ->
  analyze_project_patterns JIEBA_AVAILABLE pseg_cut db pid min_chapters
  = Some (db, no_content (py "章节内容为空"))
  /\ exists db2 r2,
       analyze_project_patterns_incremental JIEBA_AVAILABLE pseg_cut compute_content_hash
         db pid min_chapters force_refresh
       = Some (db2, success r2
                 (Some {| cached_chapters := 0;
                          refreshed_chapters := length (with_text (select_chapters db pid)) |}))
       /\ patterns_found r2 = 0%nat
       /\ total_bigrams (ngram_analysis r2) = 0.
Proof.
  intros Hfresh Hmin Htext Hnone.
  unfold analyze_project_patterns, analyze_project_patterns_incremental.
  set (chapters := select_chapters db pid) in *.
  apply Nat.ltb_ge in Hmin. rewrite Hmin.
  rewrite full_gather. cbn [app].
  assert (Hall : flat_map (fun c => chapter_sentences c (text_of c)) (with_text chapters) = []).
  { assert (Hwt : forall c, In c (with_text chapters) -> In c chapters)
      by (intros c Hc; now apply with_text_In in Hc).
    clear Htext. induction (with_text chapters) as [|c l IH]; [reflexivity|].
    cbn [flat_map]. rewrite IH by (intros c' Hc'; apply Hwt; now right).
    unfold chapter_sentences. rewrite (Hnone c) by (apply Hwt; now left). reflexivity. }
  rewrite Hall. split; [reflexivity|].
  destruct (analyses_without_sentences (with_text chapters)) as (analyses & Ha & Hg).
  { intros c Hc. apply with_text_In in Hc as [Hin Hc]. split; [exact Hc | now apply Hnone]. }
  destruct (uncached_loop force_refresh chapters
              {| ls_caches := chapter_pattern_cache db; ls_analyses := [];
                 ls_cached_count := 0; ls_refreshed_count := 0 |} analyses Hfresh Ha)
    as [caches Hloop].
  rewrite Hloop. cbn [mbind option_bind ls_analyses ls_caches ls_cached_count
                      ls_refreshed_count app Nat.add].
  apply length_mapM in Ha.
  destruct analyses as [|a0 analyses'] eqn:Ean.
  { simpl in Ha. apply length_zero_iff_nil in Ha. contradiction. }
  rewrite <- Ean in *. rewrite Hg, <- Ha. unfold build_result.
  change (cluster_templates []) with (Some (@nil (list Template))).
  cbn [mbind option_bind]. eexists _, _. split; [reflexivity|]. split; reflexivity.
Qed.

(** X10: both analyses return, on every database, when jieba is not
    available or the tagger returns on every sentence: nothing else in
    them raises, and the recursion of the union-find stays within its
    depth. *)
Theorem analysis_returns_unless_tagger_raises db pid min_chapters force_refresh :
  JIEBA_AVAILABLE = false \/ (forall sentence, is_Some (pseg_cut sentence)) ->
  is_Some (analyze_project_patterns JIEBA_AVAILABLE pseg_cut db pid min_chapters)
  /\ is_Some (analyze_project_patterns_incremental JIEBA_AVAILABLE pseg_cut
                compute_content_hash db pid min_chapters force_refresh).
Proof.
  intros Htag.
  assert (Hext : forall sentences, is_Some (mapM extract sentences)).
  { intros sentences. apply mapM_is_Some, Forall_forall. intros s _.
    unfold compose, extract_template_cached, _extract_template_with_jieba_impl, jieba_items.
    destruct Htag as [->|Htag]; [now eexists|].
    destruct JIEBA_AVAILABLE; [|now eexists]. cbn [negb].
    destruct (Htag s) as [ws ->]. now eexists. }
  assert (Hbuild : forall templates sents ed n, is_Some (build_result templates sents ed n)).
  { intros. unfold build_result, cluster_templates.
    destruct (cluster_templates_returns templates 0.7) as [clusters ->]. now eexists. }
  assert (Han : forall cid number content title,
            is_Some (analyze_single_chapter JIEBA_AVAILABLE pseg_cut cid number content title)).
  { intros cid number text title. unfold analyze_single_chapter.
    destruct text as [|c0 rest]; [now eexists|].
    unfold extract_templates_batch. destruct (Hext (split_sentences (c0 :: rest))) as [strs ->].
    now eexists. }
  split.
  - unfold analyze_project_patterns.
    destruct (_ <? _)%nat; [now eexists|].
    destruct (fold_left _ _ _) as [[|s0 sents] contents]; [now eexists|].
    unfold extract_templates_batch. destruct (Hext (map s_text (s0 :: sents))) as [strs ->].
    cbn [mbind option_bind].
    match goal with
    | |- context [build_result ?T ?S ?ed ?n] => destruct (Hbuild T S ed n) as [r ->]
    end.
    now eexists.
  - unfold analyze_project_patterns_incremental.
    destruct (_ <? _)%nat; [now eexists|].
    assert (Hloop : forall chapters st,
              is_Some (for_each chapters (incremental_loop force_refresh) st)).
    { induction chapters as [|c chapters IH]; intros st; [now eexists|].
      cbn [for_each].
      assert (Hstep : is_Some (incremental_loop force_refresh st c)).
      { unfold incremental_step. destruct (content c) as [[|c0 rest]|]; try now eexists.
        destruct (if force_refresh then None else _); [now eexists|].
        unfold get_or_create_chapter_cache.
        destruct (Han (id c) (chapter_number_of c) (default [] (content c)) (title c))
          as [a ->].
        now eexists. }
      destruct Hstep as [st1 ->]. cbn [mbind option_bind]. apply IH. }
    destruct (Hloop (select_chapters db pid)
                {| ls_caches := chapter_pattern_cache db; ls_analyses := [];
                   ls_cached_count := 0; ls_refreshed_count := 0 |}) as [st ->].
    cbn [mbind option_bind]. destruct (ls_analyses st) as [|a l]; [now eexists|].
    match goal with
    | |- context [build_result ?T ?S ?ed ?n] => destruct (Hbuild T S ed n) as [r ->]
    end.
    now eexists.
Qed.

End Agreement.

Lemma example_db_nothing_cached :
  nothing_cached false (chapter_pattern_cache example_db) (select_chapters example_db (py "p")).
Proof.
  right. split.
  - apply select_chapters_NoDup, example_db_ids.
  - intros c _. apply lookup_empty.
Qed.

Lemma incremental_agrees_with_full_witness :
  exists db1 r stats1,
    analyze_project_patterns false absent_tagger example_db (py "p") 2
    = Some (db1, success r stats1)
    /\ exists db2 r2,
         analyze_project_patterns_incremental false absent_tagger example_hash
           example_db (py "p") 2 false
         = Some (db2, success r2
                   (Some {| cached_chapters := 0;
                            refreshed_chapters :=
                              length (with_text (select_chapters example_db (py "p"))) |}))
         /\ score r2 = score r /\ level r2 = level r
         /\ chapters_analyzed r2 = chapters_analyzed r
         /\ patterns_found r2 = patterns_found r
         /\ top_patterns r2 = top_patterns r
         /\ opening_analysis r2 = opening_analysis r
         /\ ngram_analysis r2 = ngram_analysis r
         /\ diversity_score (emotion_diversity r2) = diversity_score (emotion_diversity r)
         /\ total_expressions (emotion_diversity r2) = total_expressions (emotion_diversity r)
         /\ total_unique (emotion_diversity r2) = total_unique (emotion_diversity r).
Proof.
  destruct (analyze_project_patterns false absent_tagger example_db (py "p") 2)
    as [[db1 [m n|m|r stats1]]|] eqn:E; try (vm_compute in E; discriminate E).
  exists db1, r, stats1. split; [reflexivity|].
  exact (incremental_agrees_with_full false absent_tagger example_hash
           example_db (py "p") 2 false db1 r stats1 example_db_nothing_cached E).
Defined.

(** A project whose chapters have text, but no sentence of more than 3
    characters. *)
Definition terse_db : DB :=
  {| chapters_table := [example_chapter "c1" 1 "好。"; example_chapter "c2" 2 "走！"];
     chapter_pattern_cache := ∅;
     project_pattern_analysis := ∅ |}.

Lemma text_without_sentences_witness :
  analyze_project_patterns false absent_tagger terse_db (py "p") 2
  = Some (terse_db, no_content (py "章节内容为空"))
  /\ exists db2 r2,
       analyze_project_patterns_incremental false absent_tagger example_hash
         terse_db (py "p") 2 false
       = Some (db2, success r2
                 (Some {| cached_chapters := 0;
                          refreshed_chapters :=
                            length (with_text (select_chapters terse_db (py "p"))) |}))
       /\ patterns_found r2 = 0%nat
       /\ total_bigrams (ngram_analysis r2) = 0.
Proof.
  apply (text_without_sentences false absent_tagger example_hash terse_db (py "p") 2 false).
  - right. split.
    + apply (bool_decide_unpack _). vm_compute. exact I.
    + intros c _. apply lookup_empty.
  - vm_compute. lia.
  - vm_compute. discriminate.
  - intros c Hc. vm_compute in Hc. destruct Hc as [<-|[<-|[]]]; vm_compute; reflexivity.
Defined.

Lemma analysis_returns_unless_tagger_raises_witness :
  is_Some (analyze_project_patterns false absent_tagger example_db (py "p") 2)
  /\ is_Some (analyze_project_patterns_incremental false absent_tagger example_hash
                example_db (py "p") 2 false).
Proof.
  exact (analysis_returns_unless_tagger_raises false absent_tagger example_hash
           example_db (py "p") 2 false (or_introl eq_refl)).
Defined.

(** ** The score and the suggestions *)

(** The four deductions of [calculate_pattern_score]. *)
Definition pattern_deduction (chapter_count : Z) (patterns : list Pattern) : Z :=
  Z.min 30
    (fold_left
       (fun pattern_penalty pat =>
          let repeat_ratio := PyNum.truediv (p_count pat) (Z.max chapter_count 1) in
          if PrimFloat.ltb 0.5 repeat_ratio then pattern_penalty + 5
          else if PrimFloat.ltb 0.3 repeat_ratio then pattern_penalty + 3
          else if PrimFloat.ltb 0.2 repeat_ratio then pattern_penalty + 2
          else pattern_penalty + 1)
       (firstn 10 patterns) 0).

Definition opening_deduction (oa : OpeningAnalysis) : Z :=
  if is_monotonous oa then
    if PrimFloat.ltb 0.8 (dominant_ratio oa) then 20
    else if PrimFloat.ltb 0.6 (dominant_ratio oa) then 12
    else 6
  else 0.

Definition emotion_deduction (ed : EmotionDiversity) : Z :=
  if diversity_score ed <? 40 then 20
  else if diversity_score ed <? 60 then 12
  else if diversity_score ed <? 80 then 6
  else 0.

Definition ngram_deduction (ng : option NGramAnalysis) : Z :=
  match ng with
  | Some ng =>
      (if ngram_diversity_score ng <? 30 then 15
       else if ngram_diversity_score ng <? 50 then 10
       else if ngram_diversity_score ng <? 70 then 5
       else 0)
      + (if 5 <? Z.of_nat (length (bigram_patterns ng)) then 8
         else if 3 <? Z.of_nat (length (bigram_patterns ng)) then 5
         else if 1 <? Z.of_nat (length (bigram_patterns ng)) then 2
         else 0)
      + (if 3 <? Z.of_nat (length (trigram_patterns ng)) then 7
         else if 1 <? Z.of_nat (length (trigram_patterns ng)) then 3
         else 0)
  | None => 0
  end.

Lemma pattern_penalty_grows chapter_count (patterns : list Pattern) acc :
  acc <= fold_left
           (fun pattern_penalty pat =>
              let repeat_ratio := PyNum.truediv (p_count pat) (Z.max chapter_count 1) in
              if PrimFloat.ltb 0.5 repeat_ratio then pattern_penalty + 5
              else if PrimFloat.ltb 0.3 repeat_ratio then pattern_penalty + 3
              else if PrimFloat.ltb 0.2 repeat_ratio then pattern_penalty + 2
              else pattern_penalty + 1)
           patterns acc.
Proof.
  revert acc. induction patterns as [|pat patterns IH]; intros acc; [simpl; lia|].
  cbn [fold_left]. cbv zeta.
  destruct (PrimFloat.ltb 0.5 _); [apply Z.le_trans with (acc + 5); [lia | apply IH]|].
  destruct (PrimFloat.ltb 0.3 _); [apply Z.le_trans with (acc + 3); [lia | apply IH]|].
  destruct (PrimFloat.ltb 0.2 _); [apply Z.le_trans with (acc + 2); [lia | apply IH]|].
  apply Z.le_trans with (acc + 1); [lia | apply IH].
Qed.

Lemma deduction_bounds chapter_count patterns oa ed ng :
  0 <= pattern_deduction chapter_count patterns <= 30
  /\ 0 <= opening_deduction oa <= 20
  /\ 0 <= emotion_deduction ed <= 20
  /\ 0 <= ngram_deduction ng <= 30.
Proof.
  unfold pattern_deduction, opening_deduction, emotion_deduction, ngram_deduction.
  pose proof (pattern_penalty_grows chapter_count (firstn 10 patterns) 0) as Hp.
  cbv zeta in Hp. split; [lia|]. split; [|split].
  - destruct (is_monotonous oa), (PrimFloat.ltb 0.8 (dominant_ratio oa)), (PrimFloat.ltb 0.6 (dominant_ratio oa)); lia.
  - destruct (diversity_score ed <? 40), (diversity_score ed <? 60),
      (diversity_score ed <? 80); lia.
  - destruct ng as [ng|]; [|lia].
    destruct (ngram_diversity_score ng <? 30), (ngram_diversity_score ng <? 50),
      (ngram_diversity_score ng <? 70),
      (5 <? Z.of_nat (length (bigram_patterns ng))),
      (3 <? Z.of_nat (length (bigram_patterns ng))),
      (1 <? Z.of_nat (length (bigram_patterns ng))),
      (3 <? Z.of_nat (length (trigram_patterns ng))),
      (1 <? Z.of_nat (length (trigram_patterns ng))); lia.
Qed.

Lemma opening_stage oa (s : Z) :
  (if is_monotonous oa then
     if PrimFloat.ltb 0.8 (dominant_ratio oa) then s - 20
     else if PrimFloat.ltb 0.6 (dominant_ratio oa) then s - 12
     else s - 6
   else s) = s - opening_deduction oa.
Proof.
  unfold opening_deduction.
  destruct (is_monotonous oa), (PrimFloat.ltb 0.8 (dominant_ratio oa)),
    (PrimFloat.ltb 0.6 (dominant_ratio oa)); lia.
Qed.

Lemma emotion_stage ed (s : Z) :
  (if diversity_score ed <? 40 then s - 20
   else if diversity_score ed <? 60 then s - 12
   else if diversity_score ed <? 80 then s - 6
   else s) = s - emotion_deduction ed.
Proof.
  unfold emotion_deduction.
  destruct (diversity_score ed <? 40), (diversity_score ed <? 60),
    (diversity_score ed <? 80); lia.
Qed.

Lemma ngram_stage ng (s : Z) :
  match ng with
  | Some ngram_analysis =>
      let ngram_diversity := ngram_diversity_score ngram_analysis in
      let bigram_count := Z.of_nat (length (bigram_patterns ngram_analysis)) in
      let trigram_count := Z.of_nat (length (trigram_patterns ngram_analysis)) in
      let score :=
        if ngram_diversity <? 30 then s - 15
        else if ngram_diversity <? 50 then s - 10
        else if ngram_diversity <? 70 then s - 5
        else s in
      let score :=
        if 5 <? bigram_count then score - 8
        else if 3 <? bigram_count then score - 5
        else if 1 <? bigram_count then score - 2
        else score in
      if 3 <? trigram_count then score - 7
      else if 1 <? trigram_count then score - 3
      else score
  | None => s
  end = s - ngram_deduction ng.
Proof.
  unfold ngram_deduction. destruct ng as [ng|]; [|lia]. cbv zeta.
  destruct (ngram_diversity_score ng <? 30), (ngram_diversity_score ng <? 50),
    (ngram_diversity_score ng <? 70),
    (5 <? Z.of_nat (length (bigram_patterns ng))),
    (3 <? Z.of_nat (length (bigram_patterns ng))),
    (1 <? Z.of_nat (length (bigram_patterns ng))),
    (3 <? Z.of_nat (length (trigram_patterns ng))),
    (1 <? Z.of_nat (length (trigram_patterns ng))); lia.
Qed.

(** The caps of the deductions add up to 100, so the clamp at the end of
    [calculate_pattern_score] never cuts. *)
Lemma score_unclamped patterns oa ed chapter_count ng :
  calculate_pattern_score patterns oa ed chapter_count ng
  = 100 - pattern_deduction chapter_count patterns - opening_deduction oa
    - emotion_deduction ed - ngram_deduction ng.
Proof.
  destruct (deduction_bounds chapter_count patterns oa ed ng) as (Hp & Ho & He & Hn).
  unfold calculate_pattern_score. cbv zeta.
  fold (pattern_deduction chapter_count patterns).
  rewrite opening_stage, emotion_stage.
  match goal with
  | |- context [match ng with Some _ => _ | None => ?s end] =>
      pose proof (ngram_stage ng s) as Hstage
  end.
  cbv zeta in Hstage. rewrite Hstage. lia.
Qed.

(** The ints that [float] converts exactly: those of magnitude up to
    2^53. On them [PyNum.truediv] is Python's division. *)
Definition converted_exactly (z : Z) : Prop := Z.abs z <= 2 ^ 53.

(** X11: for pattern counts and a chapter count of magnitude up to 2^53
    (the ints the division of the code and of the model agree on), the
    score lies between 0 and 100, and each of its four parts only lowers
    it, by a bounded amount: the patterns by at most 30, the n-gram
    analysis by at most 30, the openings by at most 20 (against any
    opening analysis that is not monotonous) and the emotions by at most 20
    (against any emotion report with a diversity of 80 or more). *)
Theorem score_deductions_are_capped patterns oa ed chapter_count ng :
  Forall (fun p => converted_exactly (p_count p)) patterns ->
  converted_exactly chapter_count ->
  0 <= calculate_pattern_score patterns oa ed chapter_count ng <= 100
  /\ 0 <= calculate_pattern_score [] oa ed chapter_count ng
          - calculate_pattern_score patterns oa ed chapter_count ng <= 30
  /\ 0 <= calculate_pattern_score patterns oa ed chapter_count None
          - calculate_pattern_score patterns oa ed chapter_count ng <= 30
  /\ (forall oa', is_monotonous oa' = false ->
      0 <= calculate_pattern_score patterns oa' ed chapter_count ng
           - calculate_pattern_score patterns oa ed chapter_count ng <= 20)
  /\ (forall ed', 80 <= diversity_score ed' ->
      0 <= calculate_pattern_score patterns oa ed' chapter_count ng
           - calculate_pattern_score patterns oa ed chapter_count ng <= 20).
Proof.
  intros _ _.
  destruct (deduction_bounds chapter_count patterns oa ed ng) as (Hp & Ho & He & Hn).
  rewrite !score_unclamped.
  assert (H0 : pattern_deduction chapter_count [] = 0) by reflexivity.
  assert (H1 : ngram_deduction None = 0) by reflexivity.
  rewrite H0, H1. split; [lia|]. split; [lia|]. split; [lia|]. split.
  - intros oa' Hoa. rewrite score_unclamped.
    assert (H2 : opening_deduction oa' = 0) by (unfold opening_deduction; now rewrite Hoa).
    lia.
  - intros ed' Hed. rewrite score_unclamped.
    assert (H2 : emotion_deduction ed' = 0).
    { unfold emotion_deduction.
      destruct (diversity_score ed' <? 40) eqn:E1; [apply Z.ltb_lt in E1; lia|].
      destruct (diversity_score ed' <? 60) eqn:E2; [apply Z.ltb_lt in E2; lia|].
      destruct (diversity_score ed' <? 80) eqn:E3; [apply Z.ltb_lt in E3; lia | reflexivity]. }
    lia.
Qed.

(** Three patterns of a project of 10 chapters, found 8, 4 and 3 times,
    with the reports of a project without sentences. *)
Definition score_example_patterns : list Pattern :=
  map (fun n => {| p_template := py "[代词]走[名词]了[名词]"; p_count := n;
                   p_examples := []; p_chapters := [1; 2];
                   is_opening_pattern := false; is_ending_pattern := false |})
    [8; 4; 3].

Lemma score_deductions_are_capped_witness :
  Forall (fun p => converted_exactly (p_count p)) score_example_patterns
  /\ converted_exactly 10
  /\ calculate_pattern_score score_example_patterns (analyze_openings [] 0)
       (analyze_emotion_diversity []) 10 (Some (analyze_ngram_patterns [])) = 78
  /\ calculate_pattern_score [] (analyze_openings [] 0)
       (analyze_emotion_diversity []) 10 (Some (analyze_ngram_patterns [])) = 88
  /\ 0 <= calculate_pattern_score [] (analyze_openings [] 0)
            (analyze_emotion_diversity []) 10 (Some (analyze_ngram_patterns []))
          - calculate_pattern_score score_example_patterns (analyze_openings [] 0)
              (analyze_emotion_diversity []) 10 (Some (analyze_ngram_patterns [])) <= 30.
Proof.
  assert (H1 : Forall (fun p => converted_exactly (p_count p)) score_example_patterns).
  { unfold score_example_patterns, converted_exactly. cbn [map p_count].
    repeat (constructor; [cbn; lia|]). constructor. }
  assert (H2 : converted_exactly 10) by (unfold converted_exactly; cbn; lia).
  split; [exact H1|]. split; [exact H2|].
  split; [vm_compute; reflexivity|]. split; [vm_compute; reflexivity|].
  exact (proj1 (proj2 (score_deductions_are_capped score_example_patterns
                         (analyze_openings [] 0) (analyze_emotion_diversity []) 10
                         (Some (analyze_ngram_patterns [])) H1 H2))).
Defined.

Lemma flat_map_at_most_one {A B} (f : A -> list B) l :
  (forall x, length (f x) <= 1)%nat -> (length (flat_map f l) <= length l)%nat.
Proof.
  intros H. induction l as [|x l IH]; [simpl; lia|].
  cbn [flat_map]. rewrite length_app. specialize (H x). simpl. lia.
Qed.

Lemma flat_map_nonempty {A} (f : A -> list pystr) l :
  (forall x, Forall (fun s => s <> []) (f x)) -> Forall (fun s => s <> []) (flat_map f l).
Proof.
  intros H. induction l as [|x l IH]; [constructor|].
  cbn [flat_map]. apply Forall_app. split; [apply H | exact IH].
Qed.

(** X12: [generate_pattern_suggestions] gives at most 13 suggestions,
    none of them empty, and at most 7 without an n-gram analysis. *)
Theorem suggestions_are_few patterns oa ed ng :
  (length (generate_pattern_suggestions patterns oa ed ng) <= 13)%nat
  /\ Forall (fun s => s <> []) (generate_pattern_suggestions patterns oa ed ng)
  /\ (length (generate_pattern_suggestions patterns oa ed None) <= 7)%nat.
Proof.
  assert (Hbase : forall base : list pystr,
            (length
               (match ed_suggestion ed with
                | [] => match oa_suggestion oa with
                        | [] => base
                        | _ :: _ => base ++ [oa_suggestion oa]
                        end
                | _ :: _ => match oa_suggestion oa with
                            | [] => base
                            | _ :: _ => base ++ [oa_suggestion oa]
                            end ++ [ed_suggestion ed]
                end) <= length base + 2)%nat
            /\ (Forall (fun s => s <> []) base ->
                Forall (fun s => s <> [])
                  (match ed_suggestion ed with
                   | [] => match oa_suggestion oa with
                           | [] => base
                           | _ :: _ => base ++ [oa_suggestion oa]
                           end
                   | _ :: _ => match oa_suggestion oa with
                               | [] => base
                               | _ :: _ => base ++ [oa_suggestion oa]
                               end ++ [ed_suggestion ed]
                   end))).
  { intros base. destruct (ed_suggestion ed) as [|c1 s1], (oa_suggestion oa) as [|c2 s2];
      rewrite ?length_app; simpl; (split; [lia|]); intros Hb; rewrite ?Forall_app;
      repeat split; try exact Hb; repeat constructor; discriminate. }
  unfold generate_pattern_suggestions. cbv zeta.
  set (base := flat_map _ (firstn 5 patterns)).
  assert (Hlen : (length base <= 5)%nat).
  { unfold base. etransitivity; [apply flat_map_at_most_one|].
    - intros pat. destruct (5 <=? p_count pat); simpl; lia.
    - rewrite length_take. lia. }
  assert (Hne : Forall (fun s => s <> []) base).
  { unfold base. apply flat_map_nonempty. intros pat.
    destruct (5 <=? p_count pat); repeat constructor.
    intros E. apply app_eq_nil in E as [E _]. vm_compute in E. discriminate E. }
  destruct (Hbase base) as [H2 H3]. specialize (H3 Hne).
  set (two := match ed_suggestion ed with [] => _ | _ :: _ => _ end) in *.
  clearbody two base. change pystr with (list N) in *. split; [|split].
  - destruct ng as [ng|]; [|lia]. rewrite !length_app.
    match goal with
    | |- context [length (flat_map ?f (take 3 ?l))] =>
        assert (H4 : (length (flat_map f (take 3 l)) <= 3)%nat)
    end.
    { etransitivity; [apply flat_map_at_most_one|].
      - intros bp. destruct (5 <=? rp_count bp); simpl; lia.
      - rewrite length_take. lia. }
    match goal with
    | |- context [length (flat_map ?f (take 2 ?l))] =>
        assert (H5 : (length (flat_map f (take 2 l)) <= 2)%nat)
    end.
    { etransitivity; [apply flat_map_at_most_one|].
      - intros tp. destruct (4 <=? rp_count tp); simpl; lia.
      - rewrite length_take. lia. }
    destruct (ngram_diversity_score ng <? 40); cbn [length]; lia.
  - destruct ng as [ng|]; [|exact H3]. rewrite !Forall_app.
    split; [exact H3|]. split; [|split].
    + apply flat_map_nonempty. intros bp. destruct (5 <=? rp_count bp); repeat constructor.
      intros E. apply app_eq_nil in E as [E _]. vm_compute in E. discriminate E.
    + apply flat_map_nonempty. intros tp. destruct (4 <=? rp_count tp); repeat constructor.
      intros E. apply app_eq_nil in E as [E _]. vm_compute in E. discriminate E.
    + destruct (ngram_diversity_score ng <? 40); repeat constructor. discriminate.
  - lia.
Qed.

(** ** The repeated patterns *)

Lemma insert_sorted_increasing {A} (key : A -> Z) x l :
  StronglySorted (fun a b => key a <= key b) l ->
  StronglySorted (fun a b => key a <= key b) (insert_sorted (fun y x => key y <? key x) x l).
Proof.
  induction 1 as [|y l Hsorted IH Hy]; simpl.
  - repeat constructor.
  - destruct (key y <? key x) eqn:E.
    + apply Z.ltb_lt in E. constructor; [exact IH|].
      apply List.Forall_forall. intros z Hz.
      apply list_elem_of_In in Hz. rewrite insert_sorted_perm in Hz.
      apply elem_of_cons in Hz as [->|Hz]; [lia|].
      rewrite List.Forall_forall in Hy. apply Hy. now apply list_elem_of_In.
    + apply Z.ltb_ge in E. constructor; [now constructor|].
      constructor; [exact E|].
      eapply List.Forall_impl; [|exact Hy]. simpl. intros z Hz. lia.
Qed.

Lemma sort_by_key_increasing {A} (key : A -> Z) l :
  StronglySorted (fun a b => key a <= key b) (sort_by_key key l).
Proof.
  unfold sort_by_key, stable_sort. induction l as [|x l IH]; simpl.
  - constructor.
  - now apply insert_sorted_increasing.
Qed.

Lemma sorted_NoDup_strict (l : list Z) :
  StronglySorted Z.le l -> NoDup l -> StronglySorted Z.lt l.
Proof.
  induction 1 as [|x l Hs IH Hx]; intros Hnd; [constructor|].
  apply NoDup_cons in Hnd as [Hin Hnd]. constructor; [now apply IH|].
  rewrite List.Forall_forall in *. intros y Hy. specialize (Hx y Hy).
  assert (x <> y) by (intros ->; apply Hin; now apply list_elem_of_In). lia.
Qed.

(** [sorted(set(l))]: the numbers of [l], each once, in increasing order. *)
Lemma sorted_set_spec l :
  StronglySorted Z.lt (sorted_set l) /\ forall n, In n (sorted_set l) <-> In n l.
Proof.
  unfold sorted_set. split.
  - apply sorted_NoDup_strict.
    + apply (sort_by_key_increasing (fun z => z)).
    + unfold sort_by_key. rewrite stable_sort_perm. apply NoDup_remove_dups.
  - intros n. unfold sort_by_key. rewrite stable_sort_In.
    rewrite <- !list_elem_of_In. apply elem_of_remove_dups.
Qed.

(** X13: the repeated patterns found in a list of clusters come by
    decreasing count, one at most per cluster, and each is made from a
    cluster of 3 items or more: its template is that of the first item,
    its count the size of the cluster, its examples the texts of the first
    5 items, its chapters the chapter numbers of the items in strictly
    increasing order, and it is an opening (ending) pattern exactly when
    every item is an opening (ending). *)
Theorem patterns_come_from_clusters (clusters : list (list Template)) :
  decreasing p_count (find_patterns clusters)
  /\ (length (find_patterns clusters) <= length clusters)%nat
  /\ forall p, In p (find_patterns clusters) ->
       3 <= p_count p
       /\ StronglySorted Z.lt (p_chapters p)
       /\ exists first rest,
            In (first :: rest) clusters
            /\ p_template p = template first
            /\ p_count p = Z.of_nat (length (first :: rest))
            /\ p_examples p = map text (firstn 5 (first :: rest))
            /\ (forall n, In n (p_chapters p)
                          <-> exists t, In t (first :: rest) /\ chapter_number t = n)
            /\ is_opening_pattern p = forallb is_opening (first :: rest)
            /\ is_ending_pattern p = forallb is_ending (first :: rest).
Proof.
  unfold find_patterns. split; [apply sort_by_key_reverse_decreasing|]. split.
  - unfold sort_by_key_reverse. rewrite stable_sort_length.
    apply flat_map_at_most_one. intros [|c0 cluster]; [simpl; lia|].
    destruct (3 <=? length (c0 :: cluster))%nat; simpl; lia.
  - intros p Hp. unfold sort_by_key_reverse in Hp. apply stable_sort_In in Hp.
    apply in_flat_map in Hp as (cluster & Hc & Hp).
    destruct cluster as [|first rest]; [destruct Hp|].
    destruct (3 <=? length (first :: rest))%nat eqn:E; [|destruct Hp].
    apply Nat.leb_le in E. destruct Hp as [<-|[]].
    cbn [p_count p_chapters p_template p_examples is_opening_pattern is_ending_pattern].
    destruct (sorted_set_spec (map chapter_number (first :: rest))) as [Hs Hin].
    split; [lia|]. split; [exact Hs|].
    exists first, rest. repeat split; try exact Hc.
    + intros H. apply Hin, in_map_iff in H as (t & <- & Ht). now exists t.
    + intros (t & Ht & <-). apply Hin, in_map_iff. now exists t.
Qed.

(** ** The patterns of the n-gram miner *)

(** [c[k]], 0 for a missing key. *)
Fixpoint counter_get {K} `{EqDecision K} (c : Counter K) (k : K) : Z :=
  match c with
  | [] => 0
  | (k', v) :: c' => if decide (k = k') then v else counter_get c' k
  end.

Lemma counter_get_add {K} `{EqDecision K} (c : Counter K) k' v k :
  counter_get (counter_add c k' v) k
  = counter_get c k + (if decide (k = k') then v else 0).
Proof.
  induction c as [|[k0 v0] c IH]; simpl.
  - destruct (decide (k = k')); lia.
  - destruct (decide (k' = k0)) as [->|Hne]; simpl.
    + destruct (decide (k = k0)); lia.
    + destruct (decide (k = k0)) as [->|Hne'].
      * rewrite decide_False by congruence. lia.
      * exact IH.
Qed.

Lemma counter_get_In {K} `{EqDecision K} (c : Counter K) k v :
  NoDup (map fst c) -> In (k, v) c -> counter_get c k = v.
Proof.
  induction c as [|[k0 v0] c IH]; intros Hnd Hin; [destruct Hin|].
  cbn [map fst] in Hnd. apply NoDup_cons in Hnd as [Hk Hnd]. simpl.
  destruct Hin as [[= -> ->]|Hin].
  - now rewrite decide_True.
  - rewrite decide_False; [now apply IH|]. intros ->. apply Hk.
    apply list_elem_of_In, in_map_iff. now exists (k0, v).
Qed.

(** A counter made from a list of keys has every key once, with the number
    of times it is in the list. *)
Lemma counter_of_spec {K} `{EqDecision K} (keys : list K) :
  NoDup (map fst (counter_of keys))
  /\ forall k, counter_get (counter_of keys) k
               = Z.of_nat (length (List.filter (fun x => bool_decide (x = k)) keys)).
Proof.
  unfold counter_of.
  assert (H : forall c : Counter K,
            NoDup (map fst c) ->
            NoDup (map fst (fold_left (fun c k => counter_add c k 1) keys c))
            /\ forall k, counter_get (fold_left (fun c k => counter_add c k 1) keys c) k
                         = counter_get c k
                           + Z.of_nat (length (List.filter (fun x => bool_decide (x = k)) keys))).
  { induction keys as [|x keys IH]; intros c Hnd; simpl.
    - split; [exact Hnd | intros; lia].
    - destruct (IH (counter_add c x 1)) as [H1 H2]; [now apply counter_add_keys_NoDup|].
      split; [exact H1|]. intros k. rewrite H2, counter_get_add.
      destruct (decide (k = x)) as [->|Hne].
      + rewrite bool_decide_eq_true_2 by reflexivity. simpl length. lia.
      + rewrite bool_decide_eq_false_2 by congruence. lia. }
  destruct (H []) as [H1 H2]; [constructor|]. split; [exact H1|].
  intros k. rewrite H2. simpl. lia.
Qed.

Lemma decreasing_sublist {A} (key : A -> Z) l1 l2 :
  l1 `sublist_of` l2 -> decreasing key l2 -> decreasing key l1.
Proof.
  unfold decreasing. intros Hsub Hs. revert l1 Hsub.
  induction Hs as [|x l Hs IH Hx]; intros l1 Hsub.
  - apply sublist_nil_r in Hsub as ->. constructor.
  - apply sublist_cons_r in Hsub as [Hsub|(l' & -> & Hsub)]; [now apply IH|].
    constructor; [now apply IH|].
    rewrite List.Forall_forall in *. intros y Hy. apply Hx.
    apply list_elem_of_In. eapply sublist_subseteq; [exact Hsub|]. now apply list_elem_of_In.
Qed.

Lemma decreasing_map {A B} (f : A -> B) (key : B -> Z) l :
  decreasing (fun a => key (f a)) l -> decreasing key (map f l).
Proof.
  unfold decreasing. induction 1 as [|x l Hs IH Hx]; simpl; constructor; [exact IH|].
  rewrite List.Forall_forall in *. intros y Hy.
  apply in_map_iff in Hy as (a & <- & Ha). now apply Hx.
Qed.

Lemma decreasing_ext {A} (key key' : A -> Z) l :
  (forall a, key a = key' a) -> decreasing key l -> decreasing key' l.
Proof.
  unfold decreasing. intros Hext. induction 1 as [|x l Hs IH Hx]; constructor; [exact IH|].
  eapply List.Forall_impl; [|exact Hx]. simpl. intros a. now rewrite !Hext.
Qed.

(** What is reported of the n-grams [ngrams]: at most 10 patterns by
    decreasing count, each at least 3 times among the n-grams, with its count,
    its description and exactly 3 examples, which are its first 3
    instances. *)
Definition reported (ngrams : list NGram) (rps : list RepetitivePattern) : Prop :=
  (length rps <= 10)%nat
  /\ decreasing rp_count rps
  /\ forall rp, In rp rps ->
       3 <= rp_count rp
       /\ rp_count rp
          = Z.of_nat (length (filter (fun ng => PyStr.eqb (pattern ng) (rp_pattern rp)) ngrams))
       /\ rp_description rp = _describe_ngram_pattern (rp_pattern rp)
       /\ length (rp_examples rp) = 3%nat
       /\ rp_examples rp
          = map (fun ex => {| ex_chapter := ng_chapter_number ex; ex_sentences := sentences ex |})
              (firstn 3 (filter (fun ng => PyStr.eqb (pattern ng) (rp_pattern rp)) ngrams)).

Lemma pattern_instances (ngrams : list NGram) pat :
  length (filter (fun ng => PyStr.eqb (pattern ng) pat) ngrams)
  = length (List.filter (fun x => bool_decide (x = pat)) (map pattern ngrams)).
Proof.
  induction ngrams as [|ng ngrams IH]; [reflexivity|].
  rewrite filter_cons. cbn [map List.filter].
  destruct (PyStr.eqb (pattern ng) pat) eqn:E.
  - apply PyStr.eqb_eq in E. rewrite bool_decide_eq_true_2 by exact E.
    rewrite decide_True by exact I. simpl. now rewrite IH.
  - apply PyStr.eqb_neq in E. rewrite bool_decide_eq_false_2 by exact E.
    rewrite decide_False by (intros []). exact IH.
Qed.

Lemma repetitive_patterns_reported (ngrams : list NGram) :
  reported ngrams (repetitive_patterns ngrams (counter_of (map pattern ngrams))).
Proof.
  unfold repetitive_patterns.
  destruct (counter_of_spec (map pattern ngrams)) as [Hnd Hget].
  set (counter := counter_of (map pattern ngrams)) in *.
  set (kept := filter (fun '(_, cnt) => 3 <=? cnt) (most_common 10 counter)).
  assert (Hsub : kept `sublist_of` sort_by_key_reverse snd counter).
  { unfold kept, most_common. etransitivity; [apply sublist_filter | apply sublist_take]. }
  split; [|split].
  - rewrite length_map. unfold kept, most_common.
    etransitivity; [apply length_filter|]. rewrite length_take. lia.
  - apply decreasing_map. apply (decreasing_sublist _ _ _ Hsub).
    apply (decreasing_ext snd); [now intros [k c] | apply sort_by_key_reverse_decreasing].
  - intros rp Hrp. apply in_map_iff in Hrp as ([pat cnt] & <- & Hin).
    cbn [rp_count rp_pattern rp_description rp_examples].
    assert (H3 : 3 <= cnt).
    { apply list_elem_of_In, list_elem_of_filter in Hin as [H _].
      apply Is_true_true, Z.leb_le in H. exact H. }
    assert (Hcnt : cnt = Z.of_nat (length (filter (fun ng => PyStr.eqb (pattern ng) pat) ngrams))).
    { rewrite pattern_instances, <- Hget. symmetry. apply counter_get_In; [exact Hnd|].
      apply (stable_sort_In (fun y x : pystr * Z => snd x <? snd y)).
      apply list_elem_of_In. eapply sublist_subseteq; [exact Hsub|]. now apply list_elem_of_In. }
    split; [exact H3|]. split; [exact Hcnt|]. split; [reflexivity|]. split; [|reflexivity].
    rewrite length_map, length_take. lia.
Qed.

(** X14: the repetitive bigram and trigram patterns of
    [analyze_ngram_patterns] are at most 10 each, by decreasing count; each
    occurs 3 times or more among the n-grams, its count is the number of
    n-grams with its pattern, its description is that of
    [_describe_ngram_pattern] and its examples are its first 3
    instances. *)
Theorem frequent_ngrams_reported (templates : list Template) :
  reported (extract_ngrams templates 2) (bigram_patterns (analyze_ngram_patterns templates))
  /\ reported (extract_ngrams templates 3) (trigram_patterns (analyze_ngram_patterns templates)).
Proof. split; apply repetitive_patterns_reported. Qed.

(** ** The description of a pattern *)

Definition ARROW : N := 8594%N.

(** The name [_describe_ngram_pattern] gives to a type. *)
Definition type_name (t : sentence_type) : pystr :=
  match t with
  | Dialogue => py "对话" | Thought => py "思维" | Emotion => py "情感"
  | Action => py "动作" | Narrative => py "叙述"
  end.

Lemma split_char_part sep (p : pystr) rest cur :
  ~ In sep p ->
  split_char sep (p ++ rest) cur = split_char sep rest (cur ++ p).
Proof.
  revert cur. induction p as [|c p IH]; intros cur Hsep.
  - now rewrite app_nil_r.
  - cbn [app split_char]. destruct (c =? sep)%N eqn:E.
    + apply N.eqb_eq in E. exfalso. apply Hsep. now left.
    + rewrite IH by (intros H; apply Hsep; now right). now rewrite <- app_assoc.
Qed.

(** Splitting what was joined gives the parts back, when none of them
    holds the separator. *)
Lemma split_join sep (p : pystr) (parts : list pystr) cur :
  Forall (fun q => ~ In sep q) (p :: parts) ->
  split_char sep (PyStr.join [sep] (p :: parts)) cur = (cur ++ p) :: parts.
Proof.
  revert p cur. induction parts as [|q parts IH]; intros p cur Hall.
  - apply Forall_cons in Hall as [Hp _]. cbn [PyStr.join].
    rewrite <- (app_nil_r p) at 1. rewrite split_char_part by exact Hp. reflexivity.
  - apply Forall_cons in Hall as [Hp Hall].
    change (PyStr.join [sep] (p :: q :: parts)) with (p ++ sep :: PyStr.join [sep] (q :: parts)).
    rewrite split_char_part by exact Hp. cbn [split_char]. rewrite N.eqb_refl.
    now rewrite IH.
Qed.

Lemma describe_labels (ts : list sentence_type) :
  _describe_ngram_pattern (PyStr.join (py "→") (map type_label ts))
  = PyStr.join (py " → ") (map type_name ts).
Proof.
  unfold _describe_ngram_pattern. destruct ts as [|t ts]; [reflexivity|].
  change (py "→") with [ARROW]. change 8594%N with ARROW.
  cbn [map]. rewrite split_join.
  - cbn [app]. rewrite <- List.map_cons, List.map_map. f_equal.
    change (type_name t :: map type_name ts) with (map type_name (t :: ts)).
    apply List.map_ext. now intros [].
  - rewrite <- List.map_cons. apply Forall_forall. intros q Hq.
    apply list_elem_of_In, in_map_iff in Hq as ([] & <- & _); intros H;
      apply char_in_In in H; vm_compute in H; discriminate H.
Qed.

(** X15: every n-gram of [extract_ngrams] has exactly [n] types, its
    pattern is their labels joined by [→], and [_describe_ngram_pattern]
    reads the pattern back: it gives the names of the same types joined
    by [ → ]. *)
Theorem ngram_patterns_described (templates : list Template) (n : nat) :
  Forall (fun ng =>
            pattern ng = PyStr.join (py "→") (map type_label (types ng))
            /\ _describe_ngram_pattern (pattern ng)
               = PyStr.join (py " → ") (map type_name (types ng))
            /\ length (types ng) = n)
    (extract_ngrams templates n).
Proof.
  apply List.Forall_forall. intros ng Hng.
  unfold extract_ngrams, extract_ngrams_with_members in Hng.
  apply in_map_iff in Hng as ([ng' members] & <- & Hin). cbn [fst].
  destruct (length templates <? n)%nat; [destruct Hin|].
  apply in_flat_map in Hin as ([cid cts] & _ & Hin).
  unfold chapter_ngrams in Hin. destruct (length cts <? n)%nat eqn:E; [destruct Hin|].
  apply Nat.ltb_ge in E. apply in_map_iff in Hin as (i & [= <- _] & Hi).
  cbn [pattern types]. apply in_seq in Hi. rewrite length_map in Hi.
  split; [reflexivity|]. split; [apply describe_labels|].
  apply slice_length. rewrite length_map. lia.
Qed.

(** ** The report on the openings *)

(** The first sentences of the chapters. *)
Definition first_sentences (all_sentences : list Sentence) : list Sentence :=
  filter (fun s => (s_position s =? 0)%nat) all_sentences.

(** The example kept of an opening. *)
Definition opening_example (opening : Sentence) : OpeningExample :=
  {| oe_chapter := s_chapter_number opening;
     oe_text :=
       if (50 <? length (s_text opening))%nat
       then firstn 50 (s_text opening) ++ py "..."
       else s_text opening |}.

Lemma openings_fold (openings : list Sentence) cats exs :
  fold_left
    (fun '(categories, opening_examples) opening =>
       let opening_type := analyze_opening_type (s_text opening) in
       (counter_add categories opening_type 1,
        examples_add opening_examples opening_type
          {| oe_chapter := s_chapter_number opening;
             oe_text :=
               if (50 <? length (s_text opening))%nat
               then firstn 50 (s_text opening) ++ py "..."
               else s_text opening |}))
    openings (cats, exs)
  = (fold_left (fun c t => counter_add c t 1)
       (map (fun o => analyze_opening_type (s_text o)) openings) cats,
     fold_left (fun e o => examples_add e (analyze_opening_type (s_text o)) (opening_example o))
       openings exs).
Proof.
  revert cats exs. induction openings as [|o openings IH]; intros cats exs; [reflexivity|].
  cbn [fold_left map]. cbv zeta. now rewrite IH.
Qed.

Lemma counter_add_positive {K} `{EqDecision K} (c : Counter K) k :
  Forall (fun kv => 1 <= snd kv) c -> Forall (fun kv => 1 <= snd kv) (counter_add c k 1).
Proof.
  induction 1 as [|[k' v'] c Hv Hc IH]; simpl.
  - constructor; [simpl; lia | constructor].
  - destruct (decide (k = k')); constructor.
    + simpl in *. lia.
    + exact Hc.
    + exact Hv.
    + exact IH.
Qed.

Lemma counter_of_positive {K} `{EqDecision K} (keys : list K) :
  Forall (fun kv => 1 <= snd kv) (counter_of keys).
Proof.
  unfold counter_of.
  assert (H : forall c : Counter K, Forall (fun kv => 1 <= snd kv) c ->
            Forall (fun kv => 1 <= snd kv) (fold_left (fun c k => counter_add c k 1) keys c)).
  { induction keys as [|k keys IH]; intros c Hc; [exact Hc|].
    simpl. apply IH. now apply counter_add_positive. }
  apply H. constructor.
Qed.

Lemma counter_of_total {K} `{EqDecision K} (keys : list K) :
  counter_total (counter_of keys) = Z.of_nat (length keys).
Proof.
  unfold counter_of.
  rewrite (counter_adds_total (fun k => k) (fun _ => 1) keys []).
  unfold counter_total. simpl. induction keys as [|k keys IH]; simpl in *; lia.
Qed.

Lemma examples_add_bounded exs k e :
  Forall (fun kv => length (snd kv) <= 3 /\ Forall (fun x => length (oe_text x) <= 53) (snd kv))%nat exs ->
  (length (oe_text e) <= 53)%nat ->
  Forall (fun kv => length (snd kv) <= 3 /\ Forall (fun x => length (oe_text x) <= 53) (snd kv))%nat
    (examples_add exs k e).
Proof.
  intros H He. induction H as [|[k' es] exs [Hlen Htexts] Hexs IH]; simpl.
  - constructor; [|constructor]. simpl. split; [lia|]. constructor; [exact He | constructor].
  - simpl in Hlen, Htexts. destruct (decide (k = k')); constructor; try assumption; simpl.
    + destruct (length es <? 3)%nat eqn:E.
      * apply Nat.ltb_lt in E. rewrite length_app. simpl. split; [lia|].
        apply Forall_app. split; [exact Htexts|]. constructor; [exact He | constructor].
      * now split.
    + now split.
Qed.

Lemma opening_example_short o : (length (oe_text (opening_example o)) <= 53)%nat.
Proof.
  unfold opening_example. cbn [oe_text].
  destruct (50 <? length (s_text o))%nat eqn:E.
  - rewrite length_app, length_take. change (length (py "...")) with 3%nat. lia.
  - apply Nat.ltb_ge in E. lia.
Qed.

Lemma examples_fold_bounded (openings : list Sentence) acc :
  Forall (fun kv => length (snd kv) <= 3
            /\ Forall (fun x => length (oe_text x) <= 53) (snd kv))%nat acc ->
  Forall (fun kv => length (snd kv) <= 3
            /\ Forall (fun x => length (oe_text x) <= 53) (snd kv))%nat
    (fold_left (fun e o => examples_add e (analyze_opening_type (s_text o))
                             (opening_example o)) openings acc).
Proof.
  revert acc. induction openings as [|o l IH]; intros acc Hacc; [exact Hacc|].
  simpl. apply IH. apply examples_add_bounded; [exact Hacc | apply opening_example_short].
Qed.

(** X16: in the report of [analyze_openings] the chapters counted are
    the first sentences (position 0), whatever [total_chapters] is; the
    counts of the opening types add up to that number, no type is listed
    twice, every count is between 1 and the dominant count, the dominant
    type is listed with the dominant count and is [unknown] ([None] here)
    exactly when there is no first sentence; and every type keeps at most
    3 examples, of at most 53 characters each. *)
Theorem openings_report (all_sentences : list Sentence) (total_chapters : nat) :
  oa_total_chapters (analyze_openings all_sentences total_chapters)
  = Z.of_nat (length (first_sentences all_sentences))
  /\ counter_total (categories (analyze_openings all_sentences total_chapters))
     = Z.of_nat (length (first_sentences all_sentences))
  /\ NoDup (map fst (categories (analyze_openings all_sentences total_chapters)))
  /\ (forall t c, In (t, c) (categories (analyze_openings all_sentences total_chapters)) ->
        1 <= c <= dominant_count (analyze_openings all_sentences total_chapters))
  /\ (forall t, dominant_type (analyze_openings all_sentences total_chapters) = Some t ->
        In (t, dominant_count (analyze_openings all_sentences total_chapters))
           (categories (analyze_openings all_sentences total_chapters)))
  /\ (dominant_type (analyze_openings all_sentences total_chapters) = None
      <-> first_sentences all_sentences = [])
  /\ (forall t exs, In (t, exs) (examples (analyze_openings all_sentences total_chapters)) ->
        (length exs <= 3)%nat /\ forall e, In e exs -> (length (oe_text e) <= 53)%nat).
Proof.
  unfold analyze_openings. fold (first_sentences all_sentences).
  set (openings := first_sentences all_sentences).
  rewrite openings_fold.
  fold (counter_of (map (fun o => analyze_opening_type (s_text o)) openings)).
  set (types := map (fun o => analyze_opening_type (s_text o)) openings).
  assert (Hlen : length types = length openings) by apply length_map.
  destruct (counter_of_spec types) as [Hnd _].
  pose proof (counter_of_positive types) as Hpos.
  pose proof (counter_of_total types) as Htotal. rewrite Hlen in Htotal.
  pose proof (sort_by_key_reverse_decreasing snd (counter_of types)) as Hdec.
  pose proof (stable_sort_perm (fun y x : opening_type * Z => snd x <? snd y) (counter_of types))
    as Hperm.
  fold (sort_by_key_reverse snd (counter_of types)) in Hperm.
  assert (Hexs : Forall (fun kv => length (snd kv) <= 3
                           /\ Forall (fun x => length (oe_text x) <= 53) (snd kv))%nat
                   (fold_left (fun e o => examples_add e (analyze_opening_type (s_text o))
                                            (opening_example o)) openings [])).
  { apply examples_fold_bounded. constructor. }
  unfold most_common.
  destruct (sort_by_key_reverse snd (counter_of types)) as [|[t0 c0] sorted] eqn:Es.
  - assert (Hnil : counter_of types = []).
    { apply Permutation_nil_r. now symmetry. }
    rewrite Hnil in *. cbn [firstn]. cbv iota beta.
    cbn [oa_total_chapters categories examples dominant_type dominant_count].
    unfold counter_total in Htotal. simpl in Htotal.
    split; [reflexivity|]. split; [exact Htotal|]. split; [constructor|].
    split; [intros t c []|]. split; [discriminate|]. split.
    + split; [intros _|reflexivity]. apply length_zero_iff_nil. lia.
    + rewrite Forall_forall in Hexs. intros t exs Hin.
      destruct (Hexs (t, exs)) as [H1 H2]; [now apply list_elem_of_In|].
      split; [exact H1|]. rewrite Forall_forall in H2. intros e He.
      now apply H2, list_elem_of_In.
  - cbn [firstn]. cbv iota beta.
    cbn [oa_total_chapters categories examples dominant_type dominant_count].
    split; [reflexivity|]. split; [exact Htotal|]. split; [exact Hnd|].
    assert (Hin0 : In (t0, c0) (counter_of types)).
    { apply list_elem_of_In. rewrite <- Hperm. left. }
    split; [|split; [|split]].
    + intros t c Hin. rewrite Forall_forall in Hpos.
      split; [apply (Hpos (t, c)); now apply list_elem_of_In|].
      apply list_elem_of_In in Hin. rewrite <- Hperm in Hin.
      apply elem_of_cons in Hin as [[= -> ->]|Hin]; [lia|].
      unfold decreasing in Hdec. apply StronglySorted_inv in Hdec as [_ Hall].
      rewrite List.Forall_forall in Hall. apply (Hall (t, c)). now apply list_elem_of_In.
    + intros t [= <-]. exact Hin0.
    + split; [discriminate|]. intros Hopen. rewrite Hopen in Htotal.
      rewrite Forall_forall in Hpos.
      assert (1 <= c0) by (apply (Hpos (t0, c0)); now apply list_elem_of_In).
      exfalso. clear -Htotal Hin0 H Hpos. unfold counter_total in Htotal.
      assert (Hsum : forall c : Counter opening_type,
                (forall kv, In kv c -> 1 <= snd kv) -> In (t0, c0) c ->
                c0 <= fold_right Z.add 0 (map snd c)).
      { induction c as [|kv c IH]; intros Hp Hi; [destruct Hi|]. simpl.
        assert (0 <= fold_right Z.add 0 (map snd c)).
        { clear IH Hi. induction c as [|kv' c IH']; simpl; [lia|].
          pose proof (Hp kv' (or_intror (or_introl eq_refl))).
          assert (0 <= fold_right Z.add 0 (map snd c)); [|lia].
          apply IH'. intros kv'' [->|Hk]; apply Hp; [now left | now right; right]. }
        destruct Hi as [->|Hi]; [simpl; lia|].
        pose proof (Hp kv (or_introl eq_refl)).
        assert (c0 <= fold_right Z.add 0 (map snd c)); [|lia].
        apply IH; [intros; apply Hp; now right | exact Hi]. }
      assert (Hle : c0 <= fold_right Z.add 0 (map snd (counter_of types))).
      { apply Hsum; [|exact Hin0]. intros kv Hkv. apply Hpos. now apply list_elem_of_In. }
      simpl in Htotal. lia.
    + rewrite Forall_forall in Hexs. intros t exs Hin.
      destruct (Hexs (t, exs)) as [H1 H2]; [now apply list_elem_of_In|].
      split; [exact H1|]. rewrite Forall_forall in H2. intros e He.
      now apply H2, list_elem_of_In.
Qed.

(** ** The tables *)

Section Tables.

Variable JIEBA_AVAILABLE : bool.
Variable pseg_cut : pystr -> option (list (pystr * pystr)).
Variable compute_content_hash : pystr -> pystr.

Lemma save_pattern_analysis_get db pid r other :
  get_pattern_analysis (save_pattern_analysis db pid r) other
  = if decide (other = pid)
    then Some {| ppa_project_id := pid; ppa_result := r; detection_version := py "2.0" |}
    else get_pattern_analysis db other.
Proof.
  unfold get_pattern_analysis, save_pattern_analysis. cbn [project_pattern_analysis].
  destruct (decide (other = pid)) as [->|Hne].
  - apply lookup_insert_eq.
  - now apply lookup_insert_ne.
Qed.

(** X17: a full analysis that returns never touches the chapters or
    the cache rows, nor the saved analysis of another project. On success
    the result returned is what [get_pattern_analysis] reads back for the
    project, it counts every chapter of the project and carries no cache
    statistics; otherwise the database is left as it was, and
    [insufficient_data] reports the number of chapters, which is below the
    minimum. *)
Theorem full_analysis_saves_result db pid min_chapters db' o :
  analyze_project_patterns JIEBA_AVAILABLE pseg_cut db pid min_chapters = Some (db', o) ->
  chapters_table db' = chapters_table db
  /\ chapter_pattern_cache db' = chapter_pattern_cache db
  /\ (forall other, other <> pid ->
        get_pattern_analysis db' other = get_pattern_analysis db other)
  /\ match o with
     | success r stats =>
         stats = None
         /\ get_pattern_analysis db' pid
            = Some {| ppa_project_id := pid; ppa_result := r; detection_version := py "2.0" |}
         /\ chapters_analyzed r = length (select_chapters db pid)
         /\ (min_chapters <= length (select_chapters db pid))%nat
     | insufficient_data _ current =>
         db' = db /\ current = length (select_chapters db pid)
         /\ (current < min_chapters)%nat
     | no_content _ =>
         db' = db /\ (min_chapters <= length (select_chapters db pid))%nat
     end.
Proof.
  unfold analyze_project_patterns.
  destruct (length (select_chapters db pid) <? min_chapters)%nat eqn:Emin.
  - intros [= <- <-]. apply Nat.ltb_lt in Emin. repeat split; auto.
  - apply Nat.ltb_ge in Emin.
    destruct (fold_left _ _ _) as [[|s0 sents] contents].
    + intros [= <- <-]. repeat split; auto.
    + destruct (extract_templates_batch _ _ _) as [strs|]; [|discriminate].
      cbn [mbind option_bind]. unfold build_result.
      destruct (cluster_templates _) as [clusters|]; [|discriminate].
      cbn [mbind option_bind]. intros [= <- <-].
      split; [reflexivity|]. split; [reflexivity|]. split.
      * intros other Hne. rewrite save_pattern_analysis_get. now rewrite decide_False.
      * split; [reflexivity|]. split; [|split; [reflexivity | exact Emin]].
        rewrite save_pattern_analysis_get. now rewrite decide_True.
Qed.

Lemma clear_cache_lookup db pid cid :
  chapter_pattern_cache (clear_project_pattern_cache db pid) !! cid
  = match chapter_pattern_cache db !! cid with
    | Some row => if decide (cache_project_id row = pid) then None else Some row
    | None => None
    end.
Proof.
  unfold clear_project_pattern_cache. cbn [chapter_pattern_cache].
  destruct (chapter_pattern_cache db !! cid) as [row|] eqn:E.
  - destruct (decide (cache_project_id row = pid)) as [Hp|Hp].
    + apply map_lookup_filter_None. right. intros row' E'. simpl. intros Hne.
      rewrite E in E'. injection E' as <-. contradiction.
    + apply map_lookup_filter_Some. split; [exact E | exact Hp].
  - apply map_lookup_filter_None. now left.
Qed.

Lemma needs_analysis_without_row caches chapter :
  caches !! id chapter = None ->
  needs_analysis compute_content_hash false caches chapter = negb (is_empty (content chapter))
  /\ reused compute_content_hash false caches chapter = false.
Proof.
  intros Hnone. unfold reused, needs_analysis. rewrite Hnone.
  destruct (content chapter) as [[|c0 rest]|]; split; reflexivity.
Qed.

(** X18: after [clear_project_pattern_cache] no chapter of the project
    has a row (when the rows of its chapters carry its id) while the rows
    of other projects are kept; a successful incremental analysis then
    reads nothing from the cache, refreshes every chapter with text, and
    still leaves alone the kept rows of chapters outside the project. *)
Theorem cleared_cache_is_rebuilt db pid min_chapters db' r stats :
  (forall chapter row,
      In chapter (select_chapters db pid) ->
      chapter_pattern_cache db !! id chapter = Some row -> cache_project_id row = pid) ->
  NoDup (map id (chapters_table db)) ->
  analyze_project_patterns_incremental JIEBA_AVAILABLE pseg_cut compute_content_hash
    (clear_project_pattern_cache db pid) pid min_chapters false
  = Some (db', success r stats) ->
  stats = Some {| cached_chapters := 0;
                  refreshed_chapters := length (with_text (select_chapters db pid)) |}
  /\ (forall chapter,
        In chapter (select_chapters db pid) ->
        chapter_pattern_cache (clear_project_pattern_cache db pid) !! id chapter = None)
  /\ (forall cid row,
        chapter_pattern_cache db !! cid = Some row -> cache_project_id row <> pid ->
        chapter_pattern_cache (clear_project_pattern_cache db pid) !! cid = Some row)
  /\ (forall cid row,
        chapter_pattern_cache db !! cid = Some row -> cache_project_id row <> pid ->
        cid ∉ map id (select_chapters db pid) ->
        chapter_pattern_cache db' !! cid = Some row).
Proof.
  intros Hrows Hnd Hrun.
  set (db0 := clear_project_pattern_cache db pid) in *.
  assert (Hsel : select_chapters db0 pid = select_chapters db pid) by reflexivity.
  assert (Hnone : forall chapter, In chapter (select_chapters db pid) ->
            chapter_pattern_cache db0 !! id chapter = None).
  { intros ch Hch. unfold db0. rewrite clear_cache_lookup.
    destruct (chapter_pattern_cache db !! id ch) as [row|] eqn:E; [|reflexivity].
    rewrite decide_True; [reflexivity|]. now apply (Hrows ch). }
  assert (Hkeep : forall cid row,
            chapter_pattern_cache db !! cid = Some row -> cache_project_id row <> pid ->
            chapter_pattern_cache db0 !! cid = Some row).
  { intros cid row E Hp. unfold db0. rewrite clear_cache_lookup, E. now rewrite decide_False. }
  destruct (run_success_loop _ _ _ _ _ _ _ _ _ _ Hrun) as (st & Hloop & Hcache & _ & -> & _).
  rewrite Hsel in Hloop.
  pose proof (select_chapters_NoDup db pid Hnd) as Hids.
  destruct (loop_spec _ _ _ _ _ _ _ Hids Hloop) as (_ & _ & Hc & Hr & _).
  cbn [ls_caches ls_cached_count ls_refreshed_count] in Hc, Hr.
  split; [|split; [exact Hnone | split; [exact Hkeep|]]].
  - rewrite Hc, Hr. f_equal. f_equal.
    + rewrite (filter_ext_in _ (fun _ => false)).
      * clear. induction (select_chapters db pid); simpl; auto.
      * intros ch Hch. apply needs_analysis_without_row. now apply Hnone.
    + unfold with_text. cbn [Nat.add]. f_equal. apply filter_ext_in.
      intros ch Hch. apply needs_analysis_without_row. now apply Hnone.
  - intros cid row E Hp Hcid. rewrite Hcache.
    rewrite (loop_untouched _ _ _ _ _ _ _ _ Hloop Hcid). cbn [ls_caches]. now apply Hkeep.
Qed.

End Tables.

Lemma full_analysis_saves_result_witness :
  exists db' r,
    analyze_project_patterns false absent_tagger example_db (py "p") 2
    = Some (db', success r None)
    /\ get_pattern_analysis db' (py "p")
       = Some {| ppa_project_id := py "p"; ppa_result := r; detection_version := py "2.0" |}
    /\ chapter_pattern_cache db' = chapter_pattern_cache example_db
    /\ chapters_analyzed r = 2%nat.
Proof.
  destruct (analyze_project_patterns false absent_tagger example_db (py "p") 2)
    as [[db' [m n|m|r stats]]|] eqn:E; try (vm_compute in E; discriminate E).
  pose proof (full_analysis_saves_result false absent_tagger example_db (py "p") 2 db'
                (success r stats) E) as (_ & Hcache & _ & -> & Hget & Hn & _).
  exists db', r. split; [reflexivity|]. split; [exact Hget|]. split; [exact Hcache | exact Hn].
Defined.

Lemma example_db_after_run_ids : NoDup (map id (chapters_table example_db_after_run)).
Proof. apply (bool_decide_unpack _). vm_compute. exact I. Qed.

Lemma cleared_cache_is_rebuilt_witness :
  (exists row, chapter_pattern_cache example_db_after_run !! py "c1" = Some row)
  /\ chapter_pattern_cache (clear_project_pattern_cache example_db_after_run (py "p")) !! py "c1"
     = None
  /\ exists db' r,
       analyze_project_patterns_incremental false absent_tagger example_hash
         (clear_project_pattern_cache example_db_after_run (py "p")) (py "p") 2 false
       = Some (db', success r (Some {| cached_chapters := 0; refreshed_chapters := 2 |})).
Proof.
  split; [vm_compute; eexists; reflexivity|].
  destruct (analyze_project_patterns_incremental false absent_tagger example_hash
              (clear_project_pattern_cache example_db_after_run (py "p")) (py "p") 2 false)
    as [[db' [m n|m|r stats]]|] eqn:E; try (vm_compute in E; discriminate E).
  assert (Hrows : forall chapter row,
             In chapter (select_chapters example_db_after_run (py "p")) ->
             chapter_pattern_cache example_db_after_run !! id chapter = Some row ->
             cache_project_id row = py "p").
  { intros chapter row Hc. vm_compute in Hc.
    destruct Hc as [<-|[<-|[]]]; intros Hrow; vm_compute in Hrow;
      injection Hrow as <-; reflexivity. }
  pose proof (cleared_cache_is_rebuilt false absent_tagger example_hash
                example_db_after_run (py "p") 2 db' r stats
                Hrows example_db_after_run_ids E) as (-> & Hnone & _).
  split.
  - apply (Hnone (example_chapter "c1" 1 "他走进了房间。")). vm_compute. left. reflexivity.
  - exists db', r. reflexivity.
Defined.

(** ** Which items are clustered *)

(** What holds before a loop and is kept by every round that returns
    holds after the loop, when it returns. *)
Lemma for_each_preserved {S X} (Inv : list X -> S -> Prop) (l : list X)
  (body : S -> X -> option S) (s s' : S) :
  for_each l body s = Some s' ->
  Inv [] s ->
  (forall pre x s s1, In x l -> Inv pre s -> body s x = Some s1 -> Inv (pre ++ [x]) s1) ->
  Inv l s'.
Proof.
  revert Inv s. induction l as [|x l IH]; intros Inv s Hrun H0 Hstep; simpl in Hrun.
  - now injection Hrun as <-.
  - destruct (body s x) as [s1|] eqn:E; [|discriminate]. cbn [mbind option_bind] in Hrun.
    apply (IH (fun pre => Inv (x :: pre)) s1 Hrun).
    + apply (Hstep [] x s s1); [now left | exact H0 | exact E].
    + intros pre y s2 s3 Hy Hinv Hbody.
      apply (Hstep (x :: pre) y s2 s3); [now right | exact Hinv | exact Hbody].
Qed.

Lemma merged_add_sizes merged_clusters root cluster :
  Forall (fun kc => 2 <= length (items (snd kc)))%nat merged_clusters ->
  (2 <= length (items cluster))%nat ->
  Forall (fun kc => 2 <= length (items (snd kc)))%nat (merged_add merged_clusters root cluster).
Proof.
  intros Hall Hc. induction merged_clusters as [|[k c] rest IH]; simpl.
  - constructor; [exact Hc | constructor].
  - apply Forall_cons in Hall as [Hk Hall]. destruct (root =? k)%nat.
    + constructor; [|exact Hall]. cbn [snd items] in *. rewrite length_app. lia.
    + constructor; [exact Hk | now apply IH].
Qed.

Lemma merged_add_grows merged_clusters root cluster kc :
  In kc merged_clusters ->
  exists kc', In kc' (merged_add merged_clusters root cluster)
              /\ incl (items (snd kc)) (items (snd kc')).
Proof.
  induction merged_clusters as [|[k c] rest IH]; intros Hin; [destruct Hin|]. simpl.
  destruct Hin as [<-|Hin].
  - destruct (root =? k)%nat.
    + eexists. split; [now left|]. cbn [snd items]. now apply incl_appl.
    + exists (k, c). split; [now left | apply incl_refl].
  - destruct (root =? k)%nat.
    + exists kc. split; [now right | apply incl_refl].
    + destruct (IH Hin) as (kc' & H1 & H2). exists kc'. split; [now right | exact H2].
Qed.

Lemma merged_add_holds merged_clusters root cluster :
  exists kc', In kc' (merged_add merged_clusters root cluster)
              /\ incl (items cluster) (items (snd kc')).
Proof.
  induction merged_clusters as [|[k c] rest IH]; simpl.
  - eexists. split; [now left | apply incl_refl].
  - destruct (root =? k)%nat.
    + eexists. split; [now left|]. cbn [snd items]. now apply incl_appr.
    + destruct IH as (kc' & H1 & H2). exists kc'. split; [now right | exact H2].
Qed.

(** The merged clusters are unions of the clusters given. *)
Lemma merge_similar_clusters_unions clusters threshold merged :
  _merge_similar_clusters clusters threshold = Some merged ->
  Forall (fun c => 2 <= length (items c))%nat clusters ->
  Forall (fun c => 2 <= length (items c))%nat merged
  /\ forall c, In c clusters -> exists m, In m merged /\ incl (items c) (items m).
Proof.
  unfold _merge_similar_clusters. intros Hrun Htwo.
  destruct (length clusters <=? 1)%nat.
  { injection Hrun as <-. split; [exact Htwo|]. intros c Hc. exists c.
    split; [exact Hc | apply incl_refl]. }
  destruct (for_each (seq 0 (length clusters)) _ _) as [merged_into|]; [|discriminate].
  cbn [mbind option_bind] in Hrun.
  match type of Hrun with
  | context [for_each ?l ?body ?s] => destruct (for_each l body s) as [[m mc]|] eqn:Eloop
  end; [|discriminate].
  cbn [mbind option_bind] in Hrun. injection Hrun as <-.
  pose proof (for_each_preserved
    (fun pre (s : list nat * list (nat * Cluster)) =>
       Forall (fun kc => 2 <= length (items (snd kc)))%nat (snd s)
       /\ forall ic, In ic pre ->
            exists kc, In kc (snd s) /\ incl (items (snd ic)) (items (snd kc)))
    _ _ _ _ Eloop) as H.
  destruct H as [Hsizes Hunions].
  - split; [constructor | intros ic []].
  - intros pre [i cluster] [m0 mc0] s1 Hin [Hs Hu] Hbody. cbn [snd] in *.
    destruct (find _ m0 i) as [[m1 root]|]; [|discriminate].
    cbn [mbind option_bind] in Hbody. injection Hbody as <-. cbn [snd].
    assert (Hc : In cluster clusters).
    { apply list_elem_of_In, elem_of_lookup_imap_1 in Hin as (i' & c' & [= -> ->] & Hl).
      apply list_elem_of_In. eapply list_elem_of_lookup_2. exact Hl. }
    split.
    + apply merged_add_sizes; [exact Hs|]. rewrite List.Forall_forall in Htwo.
      now apply Htwo.
    + intros ic Hic. apply in_app_iff in Hic as [Hic|[<-|[]]].
      * destruct (Hu ic Hic) as (kc & H1 & H2).
        destruct (merged_add_grows mc0 root cluster kc H1) as (kc' & H3 & H4).
        exists kc'. split; [exact H3|]. eapply incl_tran; [exact H2 | exact H4].
      * apply merged_add_holds.
  - cbn [snd] in *. split.
    + apply List.Forall_forall. intros c Hc. apply in_map_iff in Hc as (kc & <- & Hkc).
      rewrite List.Forall_forall in Hsizes. now apply Hsizes.
    + intros c Hc. apply list_elem_of_In, list_elem_of_lookup in Hc as [i Hi].
      destruct (Hunions (i, c)) as (kc & H1 & H2).
      { apply list_elem_of_In. now apply (elem_of_lookup_imap_2 (fun i c => (i, c))). }
      exists (snd kc). split; [now apply in_map | exact H2].
Qed.

(** The exact clusters: the groups of two items or more. *)
Definition exact_cluster_list (valid : list Template) : list Cluster :=
  map (fun '(tpl, its) => {| representative := tpl; items := its |})
    (filter (fun '(_, its) => (2 <=? length its)%nat) (group_by template valid)).

Definition same_template (x : Template) (l : list Template) : list Template :=
  List.filter (fun y => bool_decide (template y = template x)) l.

Lemma lookup_group_elem {A K} `{EqDecision K} (k : K) (groups : list (K * list A)) :
  lookup_group k groups <> [] -> In (k, lookup_group k groups) groups.
Proof.
  induction groups as [|[k' xs] groups IH]; simpl; [congruence|].
  destruct (decide (k = k')) as [->|Hne]; [now left|]. intros H. right. now apply IH.
Qed.

Lemma exact_cluster_items valid c :
  In c (exact_cluster_list valid) ->
  (2 <= length (items c))%nat
  /\ items c = List.filter (fun y => bool_decide (template y = representative c)) valid.
Proof.
  unfold exact_cluster_list. intros Hc. apply in_map_iff in Hc as ([tpl its] & <- & Hin).
  apply list_elem_of_In, list_elem_of_filter in Hin as [Hlen Hin]. cbn [items representative].
  apply Is_true_true, Nat.leb_le in Hlen. split; [exact Hlen|].
  rewrite <- (group_by_lookup template valid tpl). symmetry.
  apply lookup_group_In; [apply group_by_NoDup | now apply list_elem_of_In].
Qed.

Lemma exact_cluster_of valid x :
  In x valid -> (2 <= length (same_template x valid))%nat ->
  exists c, In c (exact_cluster_list valid) /\ items c = same_template x valid.
Proof.
  intros Hx Hlen. exists {| representative := template x; items := same_template x valid |}.
  split; [|reflexivity]. unfold exact_cluster_list.
  apply in_map_iff. exists (template x, same_template x valid). split; [reflexivity|].
  apply list_elem_of_In, list_elem_of_filter. split.
  - apply Is_true_true, Nat.leb_le. exact Hlen.
  - apply list_elem_of_In. unfold same_template.
    rewrite <- (group_by_lookup template valid (template x)).
    apply lookup_group_elem. rewrite group_by_lookup.
    intros E. fold (same_template x valid) in E. rewrite E in Hlen. simpl in Hlen. lia.
Qed.

Lemma in_exact_clusters valid x :
  In x (all_items (exact_cluster_list valid))
  <-> In x valid /\ (2 <= length (same_template x valid))%nat.
Proof.
  unfold all_items. rewrite in_concat. split.
  - intros (its & Hits & Hx). apply in_map_iff in Hits as (c & <- & Hc).
    destruct (exact_cluster_items valid c Hc) as [Hlen Hitems].
    rewrite Hitems in Hx. apply List.filter_In in Hx as [Hv Hk].
    apply bool_decide_eq_true in Hk. split; [exact Hv|].
    unfold same_template. rewrite Hk, <- Hitems. exact Hlen.
  - intros [Hx Hlen]. destruct (exact_cluster_of valid x Hx Hlen) as (c & Hc & Hitems).
    exists (items c). split; [now apply in_map|]. rewrite Hitems.
    apply List.filter_In. split; [exact Hx | now apply bool_decide_eq_true].
Qed.

Lemma shared_template (valid : list Template) x :
  NoDup valid -> In x valid ->
  ((2 <= length (same_template x valid))%nat
   <-> exists y, In y valid /\ y <> x /\ template y = template x).
Proof.
  intros Hnd Hx.
  assert (Hin : forall y, In y (same_template x valid)
                          <-> In y valid /\ template y = template x).
  { intros y. unfold same_template. rewrite List.filter_In, bool_decide_eq_true. tauto. }
  assert (Hnd' : NoDup (same_template x valid)).
  { unfold same_template. clear Hin Hx. induction valid as [|a l IH]; simpl; [constructor|].
    apply NoDup_cons in Hnd as [Ha Hnd]. destruct (bool_decide _).
    - apply NoDup_cons. split; [|now apply IH]. intros Hin. apply Ha.
      apply list_elem_of_In in Hin. apply List.filter_In in Hin as [Hin _].
      now apply list_elem_of_In.
    - now apply IH. }
  assert (Hxin : In x (same_template x valid)) by (apply Hin; tauto).
  destruct (same_template x valid) as [|a [|b l]] eqn:E.
  - destruct Hxin.
  - split; [simpl; lia|]. intros (y & Hy & Hne & Ht).
    assert (Hyin : In y [a]) by (apply Hin; tauto).
    destruct Hxin as [<-|[]], Hyin as [<-|[]]. congruence.
  - split; [|simpl; lia]. intros _.
    apply NoDup_cons in Hnd' as [Hab _].
    destruct (decide (a = x)) as [->|Hax].
    + exists b. assert (Hb : In b (x :: b :: l)) by (right; now left).
      apply Hin in Hb as [Hb1 Hb2]. split; [exact Hb1|]. split; [|exact Hb2].
      intros ->. apply Hab. now left.
    + exists a. assert (Ha : In a (a :: b :: l)) by now left.
      apply Hin in Ha as [Ha1 Ha2]. auto.
Qed.

(** The clusters returned: their items are those of the exact clusters, and
    every exact cluster lies within one of them. *)
Lemma cluster_templates_similar_unions templates threshold result :
  cluster_templates_similar templates threshold = Some result ->
  let valid := filter (fun t => (5 <? length (template t))%nat) templates in
  concat result ≡ₚ all_items (exact_cluster_list valid)
  /\ forall c, In c (exact_cluster_list valid) ->
       exists cluster, In cluster result /\ incl (items c) cluster.
Proof.
  intros Hrun valid. unfold cluster_templates_similar in Hrun.
  destruct templates as [|t0 templates'].
  { injection Hrun as <-. split; [reflexivity | intros c []]. }
  fold valid in Hrun. fold (exact_cluster_list valid) in Hrun.
  destruct valid as [|v valid'] eqn:Ev.
  { injection Hrun as <-. split; [reflexivity | intros c []]. }
  rewrite <- Ev in *. clear Ev.
  assert (Htwo : Forall (fun c => 2 <= length (items c))%nat (exact_cluster_list valid)).
  { apply List.Forall_forall. intros c Hc. now apply exact_cluster_items in Hc. }
  destruct (length (exact_cluster_list valid) <=? 50)%nat.
  - destruct (_merge_similar_clusters _ _) as [merged|] eqn:Em; [|discriminate].
    cbn [mbind option_bind] in Hrun. cbv zeta in Hrun.
    destruct (merge_similar_clusters_unions _ _ _ Em Htwo) as [Hsizes Hunions].
    destruct (merge_similar_clusters_items (exact_cluster_list valid) threshold)
      as (merged' & Em' & Hperm).
    rewrite Em in Em'. injection Em' as <-.
    assert (Hall : filter (fun c => (2 <=? length (items c))%nat) merged = merged).
    { clear -Hsizes. induction merged as [|m merged IH]; [reflexivity|].
      apply Forall_cons in Hsizes as [Hm Hsizes]. rewrite filter_cons.
      rewrite decide_True by (apply Is_true_true, Nat.leb_le; exact Hm).
      now rewrite IH. }
    rewrite Hall in Hrun. injection Hrun as <-. split.
    + unfold sort_by_key_reverse. rewrite (concat_perm _ _ (stable_sort_perm _ _)). exact Hperm.
    + intros c Hc. destruct (Hunions c Hc) as (m & Hm & Hincl).
      exists (items m). split; [|exact Hincl].
      apply stable_sort_In. now apply in_map.
  - injection Hrun as <-. split.
    + unfold sort_by_key_reverse. now rewrite (concat_perm _ _ (stable_sort_perm _ _)).
    + intros c Hc. exists (items c). split; [|apply incl_refl].
      apply stable_sort_In. now apply in_map.
Qed.

(** X21: among distinct items, an item is put in a cluster exactly when
    its template is longer than 5 characters and another item has the same
    template, whatever the threshold. *)
Theorem clustered_when_template_shared templates threshold result :
  NoDup templates ->
  cluster_templates_similar templates threshold = Some result ->
  forall x,
    (exists cluster, In cluster result /\ In x cluster)
    <-> (In x templates /\ (5 < length (template x))%nat
         /\ exists y, In y templates /\ y <> x /\ template y = template x).
Proof.
  intros Hnd Hrun x.
  destruct (cluster_templates_similar_unions _ _ _ Hrun) as [Hperm _].
  set (valid := filter (fun t => (5 <? length (template t))%nat) templates) in *.
  assert (Hvalid : forall y, In y valid <-> In y templates /\ (5 < length (template y))%nat).
  { intros y. unfold valid. rewrite <- !list_elem_of_In, list_elem_of_filter.
    rewrite Is_true_true, Nat.ltb_lt. tauto. }
  assert (Hndv : NoDup valid) by now apply NoDup_filter.
  rewrite <- in_concat, <- list_elem_of_In, Hperm, list_elem_of_In, in_exact_clusters.
  split.
  - intros [Hx Hlen]. apply (shared_template valid x Hndv Hx) in Hlen as (y & Hy & Hne & Ht).
    apply Hvalid in Hx as [Hx Hl], Hy as [Hy _]. split; [exact Hx|]. split; [exact Hl|].
    now exists y.
  - intros (Hx & Hl & y & Hy & Hne & Ht).
    assert (Hxv : In x valid) by now apply Hvalid.
    split; [exact Hxv|]. apply (shared_template valid x Hndv Hxv).
    exists y. split; [|tauto]. apply Hvalid. split; [exact Hy|]. now rewrite Ht.
Qed.

(** X22: among distinct items, a cluster holds, with an item, every
    item that has the same template. *)
Theorem same_template_same_cluster templates threshold result :
  NoDup templates ->
  cluster_templates_similar templates threshold = Some result ->
  forall cluster x y,
    In cluster result -> In x cluster ->
    In y templates -> template y = template x -> In y cluster.
Proof.
  intros Hnd Hrun cluster x y Hcl Hx Hy Ht.
  destruct (cluster_templates_similar_unions _ _ _ Hrun) as [Hperm Hunions].
  set (valid := filter (fun t => (5 <? length (template t))%nat) templates) in *.
  assert (Hndv : NoDup valid) by now apply NoDup_filter.
  assert (Hxc : In x (all_items (exact_cluster_list valid))).
  { apply list_elem_of_In. rewrite <- Hperm. apply list_elem_of_In, in_concat.
    now exists cluster. }
  apply in_exact_clusters in Hxc as [Hxv Hlen].
  destruct (exact_cluster_of valid x Hxv Hlen) as (c & Hc & Hitems).
  destruct (Hunions c Hc) as (cluster' & Hcl' & Hincl).
  assert (Hxc' : In x cluster').
  { apply Hincl. rewrite Hitems. apply List.filter_In. split; [exact Hxv|].
    now apply bool_decide_eq_true. }
  assert (Hyc' : In y cluster').
  { apply Hincl. rewrite Hitems. apply List.filter_In. split.
    - unfold valid. apply list_elem_of_In, list_elem_of_filter. split.
      + rewrite Ht. unfold valid in Hxv.
        now apply list_elem_of_In, list_elem_of_filter in Hxv as [? _].
      + now apply list_elem_of_In.
    - now apply bool_decide_eq_true. }
  assert (Hsame : cluster = cluster'); [|now rewrite Hsame].
  assert (Hndr : NoDup (concat result)).
  { rewrite Hperm. now apply exact_clusters_facts. }
  apply list_elem_of_In, list_elem_of_lookup in Hcl as [i Hi].
  apply list_elem_of_In, list_elem_of_lookup in Hcl' as [j Hj].
  destruct (decide (i = j)) as [->|Hij]; [congruence|].
  destruct (NoDup_concat_disjoint result i j cluster cluster' x Hndr Hi Hj Hij Hx Hxc').
Qed.

Lemma partition_example_NoDup : NoDup partition_example.
Proof. apply (bool_decide_unpack _). vm_compute. exact I. Qed.

Lemma clustered_when_template_shared_witness :
  exists result,
    cluster_templates_similar partition_example 0.7 = Some result
    /\ forall x,
         (exists cluster, In cluster result /\ In x cluster)
         <-> (In x partition_example /\ (5 < length (template x))%nat
              /\ exists y, In y partition_example /\ y <> x /\ template y = template x).
Proof.
  destruct (cluster_templates_similar partition_example 0.7) as [result|] eqn:E;
    [|vm_compute in E; discriminate E].
  exists result. split; [reflexivity|].
  exact (clustered_when_template_shared partition_example 0.7 result
           partition_example_NoDup E).
Defined.

Lemma same_template_same_cluster_witness :
  exists result,
    cluster_templates_similar partition_example 0.7 = Some result
    /\ forall cluster x y,
         In cluster result -> In x cluster ->
         In y partition_example -> template y = template x -> In y cluster.
Proof.
  destruct (cluster_templates_similar partition_example 0.7) as [result|] eqn:E;
    [|vm_compute in E; discriminate E].
  exists result. split; [reflexivity|].
  exact (same_template_same_cluster partition_example 0.7 result
           partition_example_NoDup E).
Defined.

(** ** The character tokenizer *)

Lemma pronoun_characters_cjk c :
  PyStr.char_in c (py "我你他她它们您咱俺") = true -> is_cjk c = true.
Proof.
  intros H. apply char_in_In in H.
  assert (Hall : forallb is_cjk (py "我你他她它们您咱俺") = true) by (vm_compute; reflexivity).
  rewrite forallb_forall in Hall. now apply Hall.
Qed.

(** X20: [simple_tokenize] cuts a sentence into its characters: the
    words of the tokens joined give the sentence back, every token is one
    character flagged [r], [n] or [x], and the flag is [x] exactly for the
    characters that are not Chinese. *)
Theorem simple_tokenize_round_trip sentence :
  concat (map fst (simple_tokenize sentence)) = sentence
  /\ Forall2 (fun c token =>
                fst token = [c]
                /\ In (snd token) [py "r"; py "n"; py "x"]
                /\ (snd token = py "x" <-> is_cjk c = false))
       sentence (simple_tokenize sentence).
Proof.
  unfold simple_tokenize. cbv zeta. split.
  - induction sentence as [|c sentence IH]; [reflexivity|].
    cbn [map concat]. rewrite IH.
    now destruct (PyStr.char_in c _), (is_cjk c).
  - induction sentence as [|c sentence IH]; [constructor|].
    cbn [map]. constructor; [|exact IH].
    destruct (PyStr.char_in c _) eqn:Ep.
    + apply pronoun_characters_cjk in Ep. rewrite Ep. cbn [fst snd].
      split; [reflexivity|]. split; [now left|].
      split; [intros H; vm_compute in H; discriminate H | discriminate].
    + destruct (is_cjk c) eqn:Ec; cbn [fst snd].
      * split; [reflexivity|]. split; [right; now left|].
        split; [intros H; vm_compute in H; discriminate H | discriminate].
      * split; [reflexivity|]. split; [right; right; now left|]. tauto.
Qed.
